(** * The gno-to-go precompiler: a shallow embedding

    This development embeds the translate / verify / build pipeline of
    [gnovm/pkg/precompile/precompile.go] and its older sibling
    [gnovm/pkg/gnolang/precompile.go].

    Go strings are byte strings; they are modelled by [string].  The Go
    standard library and the third-party packages the code calls
    ([strings], [path/filepath], [strconv], [go.uber.org/multierr],
    [golang.org/x/tools/go/ast/astutil]) are modelled next to the code, one
    module per package.  What the code obtains from the outside world (the
    Go parser and printer, the file system, the external processes) is a
    field of the record [Env]. *)

From Stdlib Require Import String Ascii List Arith Lia Bool.
From Stdlib Require Import Numbers.DecimalString.
From stdpp Require Import base gmap strings list.

Local Open Scope string_scope.
Local Open Scope list_scope.
#[local] Set Warnings "-register-all,-clear-no-such-hyp".

(** The double quote and the line feed, which string literals here do not
    spell. *)
Definition dquote : string := String (ascii_of_nat 34) EmptyString.
Definition nl : string := String (ascii_of_nat 10) EmptyString.

(** ** Package [strings] *)

Module GoStrings.

Fixpoint rev_append (s acc : string) : string :=
  match s with
  | EmptyString => acc
  | String c s' => rev_append s' (String c acc)
  end.

Definition rev (s : string) : string := rev_append s EmptyString.

(** [strings.HasPrefix s prefix]. *)
Fixpoint HasPrefix (s prefix : string) {struct prefix} : bool :=
  match prefix with
  | EmptyString => true
  | String a p =>
      match s with
      | EmptyString => false
      | String b s' => if Ascii.eqb a b then HasPrefix s' p else false
      end
  end.

(** [strings.HasSuffix s suffix]. *)
Definition HasSuffix (s suffix : string) : bool :=
  HasPrefix (rev s) (rev suffix).

Fixpoint drop (n : nat) (s : string) : string :=
  match n with
  | O => s
  | S n' => match s with
            | EmptyString => EmptyString
            | String _ s' => drop n' s'
            end
  end.

Fixpoint take (n : nat) (s : string) : string :=
  match n with
  | O => EmptyString
  | S n' => match s with
            | EmptyString => EmptyString
            | String c s' => String c (take n' s')
            end
  end.

(** [strings.TrimPrefix s prefix]. *)
Definition TrimPrefix (s prefix : string) : string :=
  if HasPrefix s prefix then drop (String.length prefix) s else s.

(** [strings.TrimSuffix s suffix]. *)
Definition TrimSuffix (s suffix : string) : string :=
  if HasSuffix s suffix
  then take (String.length s - String.length suffix) s
  else s.

(** [strings.Index s substr]: the byte offset of the first occurrence. *)
Fixpoint Index (s substr : string) : option nat :=
  if HasPrefix s substr then Some 0
  else match s with
       | EmptyString => None
       | String _ s' => option_map S (Index s' substr)
       end.

(** [strings.Contains s substr]. *)
Definition Contains (s substr : string) : bool :=
  match Index s substr with Some _ => true | None => false end.

(** [strings.Split s sep] for a non-empty [sep]: [s] is cut at every
    occurrence of [sep], found from left to right without overlap.
    [skip] counts the bytes of a separator still to be passed over and
    [cur] holds the bytes of the current piece, last one first. *)
Fixpoint split_go (sep s : string) (skip : nat) (cur : string) : list string :=
  match s with
  | EmptyString => [rev cur]
  | String c s' =>
      match skip with
      | S k => split_go sep s' k cur
      | O =>
          if HasPrefix s sep
          then rev cur :: split_go sep s' (String.length sep - 1) EmptyString
          else split_go sep s' 0 (String c cur)
      end
  end.

Definition Split (s sep : string) : list string := split_go sep s 0 EmptyString.

(** The white space of [unicode.IsSpace], as UTF-8 byte sequences: the six
    ASCII characters, U+0085, U+00A0, U+1680, U+2000 to U+200A, U+2028,
    U+2029, U+202F, U+205F and U+3000. *)
Definition asciiSpace (c : ascii) : bool :=
  match nat_of_ascii c with
  | 9 | 10 | 11 | 12 | 13 | 32 => true
  | _ => false
  end.

Definition space2 (c1 c2 : ascii) : bool :=
  let a := nat_of_ascii c1 in
  let b := nat_of_ascii c2 in
  Nat.eqb a 194 && (Nat.eqb b 133 || Nat.eqb b 160).

Definition space3 (c1 c2 c3 : ascii) : bool :=
  let a := nat_of_ascii c1 in
  let b := nat_of_ascii c2 in
  let c := nat_of_ascii c3 in
  (Nat.eqb a 225 && Nat.eqb b 154 && Nat.eqb c 128)
  || (Nat.eqb a 226 && Nat.eqb b 128
      && ((Nat.leb 128 c && Nat.leb c 138)
          || Nat.eqb c 168 || Nat.eqb c 169 || Nat.eqb c 175))
  || (Nat.eqb a 226 && Nat.eqb b 129 && Nat.eqb c 159)
  || (Nat.eqb a 227 && Nat.eqb b 128 && Nat.eqb c 128).

(** [strings.TrimLeftFunc s unicode.IsSpace]. *)
Fixpoint trimLeftSpace (s : string) : string :=
  match s with
  | EmptyString => EmptyString
  | String c1 s1 =>
      if asciiSpace c1 then trimLeftSpace s1
      else match s1 with
           | EmptyString => s
           | String c2 s2 =>
               if space2 c1 c2 then trimLeftSpace s2
               else match s2 with
                    | EmptyString => s
                    | String c3 s3 =>
                        if space3 c1 c2 c3 then trimLeftSpace s3 else s
                    end
           end
  end.

(** The same scan from the end, on the reversed string, whose multi-byte
    sequences appear last byte first. *)
Fixpoint trimLeftSpaceRev (s : string) : string :=
  match s with
  | EmptyString => EmptyString
  | String c1 s1 =>
      if asciiSpace c1 then trimLeftSpaceRev s1
      else match s1 with
           | EmptyString => s
           | String c2 s2 =>
               if space2 c2 c1 then trimLeftSpaceRev s2
               else match s2 with
                    | EmptyString => s
                    | String c3 s3 =>
                        if space3 c3 c2 c1 then trimLeftSpaceRev s3 else s
                    end
           end
  end.

(** [strings.TrimSpace s]: leading white space is removed first, trailing
    white space is then removed from what remains. *)
Definition TrimSpace (s : string) : string :=
  rev (trimLeftSpaceRev (rev (trimLeftSpace s))).

End GoStrings.

(** ** Package [strconv] *)

Module Strconv.

(** [strconv.Itoa] on a non-negative count. *)
Definition Itoa (n : nat) : string := NilEmpty.string_of_uint (Nat.to_uint n).

End Strconv.

(** ** Package [path/filepath] (Unix separators) *)

Module Filepath.

Definition isSlash (c : ascii) : bool := Ascii.eqb c "/"%char.

Fixpoint stripSlashes (r : string) : string :=
  match r with
  | String c r' => if isSlash c then stripSlashes r' else r
  | EmptyString => EmptyString
  end.

Fixpoint untilSlash (r : string) : string :=
  match r with
  | String c r' => if isSlash c then EmptyString else String c (untilSlash r')
  | EmptyString => EmptyString
  end.

(** [filepath.Base path]: the last element of [path].  Trailing slashes
    are stripped first; the empty path gives ["."], a path of slashes
    gives ["/"]. *)
Definition Base (path : string) : string :=
  match path with
  | EmptyString => "."
  | _ =>
      let last := GoStrings.rev (untilSlash (stripSlashes (GoStrings.rev path))) in
      match last with
      | EmptyString => "/"
      | _ => last
      end
  end.

End Filepath.

(** ** Go errors *)

(** An [error] value is one of the three shapes this code builds: a plain
    message ([errors.New], [fmt.Errorf] without [%w]), a message wrapping
    another error ([fmt.Errorf] with [%w]; [msg] is the whole formatted
    text), or a [multierr] aggregate.  A nil error is [None]. *)
Inductive error : Type :=
| errorString (msg : string)
| wrapError (msg : string) (err : error)
| multiError (errs : list error).

Fixpoint joinSemi (msgs : list string) : string :=
  match msgs with
  | [] => EmptyString
  | [m] => m
  | m :: rest => m ++ "; " ++ joinSemi rest
  end.

(** The method [Error()]. *)
Fixpoint Error (e : error) : string :=
  match e with
  | errorString msg => msg
  | wrapError msg _ => msg
  | multiError errs => joinSemi (List.map Error errs)
  end.

(** [errors.Unwrap]. *)
Definition Unwrap (e : error) : option error :=
  match e with
  | wrapError _ inner => Some inner
  | _ => None
  end.

(** [fmt.Errorf(prefix + "%w", err)]. *)
Definition Errorf_w (prefix : string) (err : error) : error :=
  wrapError (prefix ++ Error err) err.

Module Multierr.

(** [multierr.Errors]: the entries of an aggregate; a single error is its
    own only entry and nil has none. *)
Definition Errors (e : option error) : list error :=
  match e with
  | None => []
  | Some (multiError errs) => errs
  | Some single => [single]
  end.

(** [multierr.Append]: nil is neutral, aggregates are flattened and two
    errors make an aggregate. *)
Definition Append (left right : option error) : option error :=
  match left, right with
  | None, _ => right
  | _, None => left
  | Some _, Some _ => Some (multiError (Errors left ++ Errors right))
  end.

End Multierr.

(** ** The syntax tree, as far as this code looks into it *)

(** [ast.ImportSpec]: the optional local name and the path literal
    [Path.Value] as written in the source, quotes included.  Positions are
    not modelled. *)
Record ImportSpec : Type := mkImportSpec {
  Name : option string;
  Path_Value : string
}.

(** [ast.File].  [Imports] are the import nodes of the file, in source
    order; the slice [f.Imports] and the import declarations both point to
    these nodes, and a node is addressed by its index.  [Paragraphs] is what
    [astutil.Imports] computes from the leading import declarations: the
    addresses of their specs, cut into groups at blank lines.  [Decls]
    stands for the package clause and every other declaration, which this
    code hands to the printer untouched. *)
Record File : Type := mkFile {
  Imports : list ImportSpec;
  Paragraphs : list (list nat);
  Decls : string
}.

(** In a file the parser accepted, import declarations precede all others,
    so the paragraphs list every import node once, in order. *)
Definition parsedShape (f : File) : Prop :=
  concat (Paragraphs f) = seq 0 (length (Imports f)).

(** [precompileResult]. *)
Record precompileResult : Type := mkResult {
  res_Imports : list ImportSpec;
  Translated : string
}.

(** ** Events and state of a run *)

Definition ImportPath := string.

Inductive Event : Type :=
| EvEnterPkg (pkgPath : ImportPath)      (* PrecompilePkg is called *)
| EvSkipPkg (pkgPath : ImportPath)       (* ... and finds the package marked *)
| EvTranslatePkg (pkgPath : ImportPath)  (* ... or marks it and lists its files *)
| EvFile (srcPath : string)              (* PrecompileFile is called *)
| EvWrite (path content : string)        (* a file is written *)
| EvBuild (pkgPath : string)             (* go build is run *)
| EvClean (path : string)                (* CleanGeneratedFiles is called *)
| EvMkdirTemp (dir : string)
| EvRemoveAll (dir : string).

(** [PrecompileCfg]. *)
Record PrecompileCfg : Type := mkCfg {
  Verbose : bool;
  SkipFmt : bool;
  SkipImports : bool;
  Gobuild : bool;
  GoBinary : string;
  GofmtBinary : string;
  Output : string
}.

(** What a run changes: the set [Precompiled] of [PrecompileOptions] and
    the trace of its effects, latest event last. *)
Record State : Type := mkState {
  Precompiled : gset ImportPath;
  trace : list Event
}.

Definition emit (ev : Event) (s : State) : State :=
  mkState (Precompiled s) (trace s ++ [ev]).

(** ** The environment *)

(** What the code asks of the outside world.  The answers do not change
    during a run: the files a run writes are generated [*.go] files, which
    no [*.gno] pattern matches and which are never read back as sources, and
    in memory mode the copies of the modules are in the temporary directory
    before the first of them is read. *)

Record Env : Type := mkEnv {
  (* go/parser, go/format, strconv *)
  ParseFile : string -> string -> error + File;
  format_Node : File -> string * option error;
  Quote : string -> string;
  Unquote : string -> option string;
  (* path/filepath *)
  Join : string -> string -> string;
  Dir : string -> string;
  Abs : string -> error + string;
  Glob : string -> error + list string;
  (* os, io/ioutil *)
  ReadFile : string -> error + string;
  ReadDir : string -> error + list string;
  MkdirTemp : string -> string -> error + string;
  WriteFile : string -> string -> option error;
  (* os/exec: argument vector to combined output and exit error *)
  CombinedOutput : list string -> string * option error;
  (* functions of package precompile that other files of the package define *)
  resolvePath : string -> ImportPath -> error + string;
  writeDirFile : string -> string -> option error;
  getPathsFromImportSpec : list ImportSpec -> list ImportPath;
  GnoFilesFromArgs : list string -> error + list string;
  GnoPackagesFromArgs : list string -> error + list string;
  CleanGeneratedFiles : string -> option error;
  (* the outcome of PrecompileBuildPackage's go build on a package *)
  PrecompileBuildPackage : string -> string -> option error
}.

(** ** Package [golang.org/x/tools/go/ast/astutil] *)

Module Astutil.
Section WithEnv.
Variable E : Env.

(** [importPath]: the unquoted path of a spec, empty when the literal
    does not unquote. *)
Definition importPath (imp : ImportSpec) : string :=
  match Unquote E (Path_Value imp) with
  | Some t => t
  | None => EmptyString
  end.

(** [astutil.RewriteImport]: every node of [f.Imports] whose path is
    [oldPath] gets the literal of [newPath]; the result tells whether
    there was one.  The nodes are updated in place: the file returned is
    the state of [f] after the call. *)
Definition RewriteImport (f : File) (oldPath newPath : string) : File * bool :=
  let hit imp := String.eqb (importPath imp) oldPath in
  let rewrite imp :=
    if hit imp then mkImportSpec (Name imp) (Quote E newPath) else imp in
  (mkFile (List.map rewrite (Imports f)) (Paragraphs f) (Decls f),
   existsb hit (Imports f)).

End WithEnv.
End Astutil.

(** ** Package [gnovm/pkg/precompile] *)

Module precompile.

Definition GnoRealmPkgsPrefixBefore := "gno.land/r/".
Definition GnoRealmPkgsPrefixAfter := "github.com/gnolang/gno/examples/gno.land/r/".
Definition GnoPackagePrefixBefore := "gno.land/p/demo/".
Definition GnoPackagePrefixAfter := "github.com/gnolang/gno/examples/gno.land/p/demo/".
Definition GnoStdPkgBefore := "std".
Definition GnoStdPkgAfter := "github.com/gnolang/gno/gnovm/stdlibs/stdshim".

Definition stdlibWhitelist : list string :=
  [ "bufio"; "bytes"; "compress/gzip"; "context"; "crypto/md5";
    "crypto/sha1"; "crypto/sha256"; "encoding/base64"; "encoding/binary";
    "encoding/hex"; "encoding/json"; "encoding/xml"; "errors"; "flag";
    "fmt"; "io"; "io/util"; "math"; "math/big"; "math/rand"; "regexp";
    "sort"; "strconv"; "strings"; "text/template"; "time"; "unicode/utf8";
    "std" ].

Definition importPrefixWhitelist : list string :=
  [ "github.com/gnolang/gno/_test" ].

Definition ImportPrefix := "github.com/gnolang/gno".

(** [GetPrecompileFilenameAndTags]. *)
Definition GetPrecompileFilenameAndTags (gnoFilePath : string) : string * string :=
  let nameNoExtension := GoStrings.TrimSuffix (Filepath.Base gnoFilePath) ".gno" in
  if GoStrings.HasSuffix gnoFilePath "_filetest.gno" then
    ("." +:+ nameNoExtension +:+ ".gno.gen.go", "gno && filetest")
  else if GoStrings.HasSuffix gnoFilePath "_test.gno" then
    ("." +:+ nameNoExtension +:+ ".gno.gen_test.go", "gno && test")
  else
    (nameNoExtension +:+ ".gno.gen.go", "gno").

(** [parseResult]: the normalized text and whether it is an error of the
    toolchain. *)
Definition parseResult (input path : string) : string * bool :=
  let tag := "command-line-arguments" in
  let input := GoStrings.TrimSpace input in
  let isStdErr := GoStrings.Contains input tag in
  let parts := GoStrings.Split input "main.gno.gen.go" in
  match parts with
  | _ :: part1 :: _ => (path +:+ part1, isStdErr)
  | _ => (input, isStdErr)
  end.

Section WithEnv.
Variable E : Env.

(** The path the code reads off a spec: the literal with one trailing and
    one leading double quote trimmed. *)
Definition trimmedPath (importSpec : ImportSpec) : string :=
  GoStrings.TrimPrefix (GoStrings.TrimSuffix (Path_Value importSpec) dquote) dquote.

(** Body of the whitelist loop of [precompileAST] for one spec. *)
Definition checkWhitelist (errs : option error) (importSpec : ImportSpec) : option error :=
  let importPath := trimmedPath importSpec in
  if GoStrings.HasPrefix importPath GnoRealmPkgsPrefixBefore then errs
  else if GoStrings.HasPrefix importPath GnoPackagePrefixBefore then errs
  else if existsb (String.eqb importPath) stdlibWhitelist then errs
  else if existsb (GoStrings.HasPrefix importPath) importPrefixWhitelist then errs
  else Multierr.Append errs
         (Some (errorString
                  ("import " +:+ Quote E importPath +:+ " is not in the whitelist"))).

Definition replaceFailure (old new : string) : option error :=
  Some (errorString ("failed to replace the " +:+ Quote E old
                     +:+ " package with " +:+ Quote E new)).

(** Body of the rewrite loop of [precompileAST] for one spec.  The path
    is read once, before the three rules are tried in turn. *)
Definition rewriteImport (st : File * option error) (importSpec : ImportSpec)
  : File * option error :=
  let importPath := trimmedPath importSpec in
  let st :=
    if String.eqb importPath GnoStdPkgBefore then
      let '(f, ok) := Astutil.RewriteImport E (fst st) GnoStdPkgBefore GnoStdPkgAfter in
      (f, if ok then snd st
          else Multierr.Append (snd st) (replaceFailure GnoStdPkgBefore GnoStdPkgAfter))
    else st in
  let st :=
    if GoStrings.HasPrefix importPath GnoPackagePrefixBefore then
      let target := GnoPackagePrefixAfter
                    +:+ GoStrings.TrimPrefix importPath GnoPackagePrefixBefore in
      let '(f, ok) := Astutil.RewriteImport E (fst st) importPath target in
      (f, if ok then snd st
          else Multierr.Append (snd st) (replaceFailure importPath target))
    else st in
  if GoStrings.HasPrefix importPath GnoRealmPkgsPrefixBefore then
    let target := GnoRealmPkgsPrefixAfter
                  +:+ GoStrings.TrimPrefix importPath GnoRealmPkgsPrefixBefore in
    let '(f, ok) := Astutil.RewriteImport E (fst st) importPath target in
    (f, if ok then snd st
        else Multierr.Append (snd st) (replaceFailure importPath target))
  else st.

(** One step of a loop over the paragraphs: the node behind the pointer
    is read in the current state of the file.  A pointer always has a
    node in Go; the model passes over one that has none. *)
Definition atNode {A : Type} (f : File) (ptr : nat) (k : ImportSpec -> A) (skip : A) : A :=
  match nth_error (Imports f) ptr with
  | Some importSpec => k importSpec
  | None => skip
  end.

(** [precompileAST].  The file is rewritten in place and the node
    returned by the no-op [astutil.Apply] is the file itself: the first
    component is both the node returned and the state of [f] afterwards. *)
Definition precompileAST (f : File) (checkWhitelist_ : bool) : File * option error :=
  let imports := Paragraphs f in
  let errs :=
    if checkWhitelist_ then
      fold_left
        (fun errs paragraph =>
           fold_left (fun errs ptr => atNode f ptr (checkWhitelist errs) errs)
                     paragraph errs)
        imports None
    else None in
  fold_left
    (fun st paragraph =>
       fold_left (fun st ptr => atNode (fst st) ptr (rewriteImport st) st)
                 paragraph st)
    imports (f, errs).

Definition generatedHeader : string :=
  "// Code generated by github.com/gnolang/gno. DO NOT EDIT." +:+ nl +:+ nl.

(** [Precompile]: the result pointer (nil is [None]) and the error.  The
    write of the header into the [bytes.Buffer] cannot fail.  The printer
    appends what it wrote to the buffer and returns its error, which is
    assigned and not read again. *)
Definition Precompile (source tags filename : string)
  : option precompileResult * option error :=
  match ParseFile E filename source with
  | inl err => (None, Some (Errorf_w "parse: " err))
  | inr f =>
      let isTestFile :=
        GoStrings.HasSuffix filename "_test.gno"
        || GoStrings.HasSuffix filename "_filetest.gno" in
      let shouldCheckWhitelist := negb isTestFile in
      let '(transformed, err) := precompileAST f shouldCheckWhitelist in
      match err with
      | Some err => (None, Some (Errorf_w EmptyString err))
      | None =>
          let out :=
            if String.eqb tags "no_header" then EmptyString
            else generatedHeader
                 +:+ (if String.eqb tags EmptyString then EmptyString
                     else "//go:build " +:+ tags +:+ nl +:+ nl) in
          let '(written, _) := format_Node E transformed in
          let out := out +:+ written in
          (Some (mkResult (Imports transformed) out), None)
      end
  end.

End WithEnv.
(** *** The orchestrator *)

(** How a call ends: it returns, the process ends ([log.Fatal], or a
    panic that nothing recovers), or the model ran out of fuel. *)
Inductive Stop : Type :=
| Fatal (err : error)
| Panic (err : error).

Inductive Outcome (A : Type) : Type :=
| Returns (a : A) (s : State)
| Stops (why : Stop) (s : State)
| OutOfFuel.
Arguments Returns {A} a s.
Arguments Stops {A} why s.
Arguments OutOfFuel {A}.

Definition finalState {A : Type} (o : Outcome A) : option State :=
  match o with
  | Returns _ s | Stops _ s => Some s
  | OutOfFuel => None
  end.

(** [std.MemFile] and [std.MemPackage]. *)
Record MemFile : Type := mkMemFile { mf_Name : string; mf_Body : string }.
Record MemPackage : Type := mkMemPackage {
  mp_Name : string;
  mp_Path : string;
  mp_Files : list MemFile
}.

Section Orchestrator.
Variable E : Env.
Variable flags : PrecompileCfg.

Definition IsPrecompiled (pkg : ImportPath) (s : State) : bool :=
  bool_decide (pkg ∈ Precompiled s).

Definition MarkAsPrecompiled (pkg : ImportPath) (s : State) : State :=
  mkState ({[ pkg ]} ∪ Precompiled s) (trace s).

(** [PrecompileVerifyFile]. *)
Definition PrecompileVerifyFile (path gofmtBinary : string) : option error :=
  let args := GoStrings.Split gofmtBinary " " ++ [ "-l"; "-e"; path ] in
  match CombinedOutput E args with
  | (_, Some err) => Some (Errorf_w (gofmtBinary +:+ ": ") err)
  | (_, None) => None
  end.

(** The loop of [PrecompileFile] over the import paths: what
    [PrecompilePkg] returns is dropped. *)
Fixpoint eachImport (pkg : ImportPath -> State -> Outcome (option error))
         (importPaths : list ImportPath) (s : State) : Outcome unit :=
  match importPaths with
  | [] => Returns tt s
  | path :: rest =>
      match pkg path s with
      | Returns _ s => eachImport pkg rest s
      | Stops why s => Stops why s
      | OutOfFuel => OutOfFuel
      end
  end.

(** [PrecompileFile], with [pkg] standing for [PrecompilePkg] with the
    options of this run. *)
Definition PrecompileFile_ (pkg : ImportPath -> State -> Outcome (option error))
           (srcPath : string) (s : State) : Outcome (option error) :=
  let s := emit (EvFile srcPath) s in
  let gofmt := if String.eqb (GofmtBinary flags) EmptyString then "gofmt"
               else GofmtBinary flags in
  match ReadFile E srcPath with
  | inl err => Returns (Some (Errorf_w "read: " err)) s
  | inr source =>
      let '(targetFilename, tags) := GetPrecompileFilenameAndTags srcPath in
      match Precompile E source tags srcPath with
      | (_, Some err) => Returns (Some (Errorf_w EmptyString err)) s
      | (None, None) => Stops (Panic (errorString "nil pointer dereference")) s
      | (Some precompileRes, None) =>
          let target :=
            if negb (String.eqb (Output flags) ".") then
              match resolvePath E (Output flags) (Dir E srcPath) with
              | inl err => inl (Errorf_w "resolve output path: " err)
              | inr path => inr (Join E path targetFilename)
              end
            else inr (Join E (Dir E srcPath) targetFilename) in
          match target with
          | inl err => Returns (Some err) s
          | inr targetPath =>
              match writeDirFile E targetPath (Translated precompileRes) with
              | Some err => Returns (Some (Errorf_w "write .go file: " err)) s
              | None =>
                  let s := emit (EvWrite targetPath (Translated precompileRes)) s in
                  match (if SkipFmt flags then None
                         else PrecompileVerifyFile targetPath gofmt) with
                  | Some err => Returns (Some (Errorf_w "check .go file: " err)) s
                  | None =>
                      if SkipImports flags then Returns None s
                      else
                        let importPaths :=
                          getPathsFromImportSpec E (res_Imports precompileRes) in
                        match eachImport pkg importPaths s with
                        | Returns _ s => Returns None s
                        | Stops why s => Stops why s
                        | OutOfFuel => OutOfFuel
                        end
                  end
              end
          end
      end
  end.

(** The loop of [PrecompilePkg] over the files: the first error ends it. *)
Fixpoint eachFile (file_ : string -> State -> Outcome (option error))
         (files : list string) (s : State) : Outcome (option error) :=
  match files with
  | [] => Returns None s
  | file :: rest =>
      match file_ file s with
      | Returns None s => eachFile file_ rest s
      | Returns (Some err) s => Returns (Some (Errorf_w (file +:+ ": ") err)) s
      | Stops why s => Stops why s
      | OutOfFuel => OutOfFuel
      end
  end.

(** [PrecompilePkg].  [fuel] bounds the depth of the recursion through
    [PrecompileFile]. *)
Fixpoint PrecompilePkg (fuel : nat) (pkgPath : ImportPath) (s : State)
  : Outcome (option error) :=
  match fuel with
  | O => OutOfFuel
  | S fuel =>
      let s := emit (EvEnterPkg pkgPath) s in
      if IsPrecompiled pkgPath s then Returns None (emit (EvSkipPkg pkgPath) s)
      else
        let s := emit (EvTranslatePkg pkgPath) (MarkAsPrecompiled pkgPath s) in
        match Glob E (Join E pkgPath "*.gno") with
        | inl err => Stops (Fatal err) s
        | inr files => eachFile (PrecompileFile_ (PrecompilePkg fuel)) files s
        end
  end.

(** [PrecompileFile]. *)
Definition PrecompileFile (fuel : nat) (srcPath : string) (s : State)
  : Outcome (option error) :=
  PrecompileFile_ (PrecompilePkg fuel) srcPath s.

(** [GoBuildFileOrPkg]. *)
Definition GoBuildFileOrPkg (fileOrPkg : string) (cfg : PrecompileCfg) : option error :=
  PrecompileBuildPackage E fileOrPkg (GoBinary cfg).

End Orchestrator.

Section CheckPkg.
Variable E : Env.

(** Sequencing of outcomes. *)
Definition andThen {A B : Type} (o : Outcome A) (k : A -> State -> Outcome B)
  : Outcome B :=
  match o with
  | Returns a s => k a s
  | Stops why s => Stops why s
  | OutOfFuel => OutOfFuel
  end.

(** [defer os.RemoveAll(tmpDir)]: runs when the function returns and when
    it panics, not when the process exits. *)
Definition deferRemoveAll {A : Type} (tmpDir : string) (o : Outcome A) : Outcome A :=
  match o with
  | Returns a s => Returns a (emit (EvRemoveAll tmpDir) s)
  | Stops (Panic err) s => Stops (Panic err) (emit (EvRemoveAll tmpDir) s)
  | Stops (Fatal err) s => Stops (Fatal err) s
  | OutOfFuel => OutOfFuel
  end.

(** The loop writing the files of the package to the temporary directory. *)
Fixpoint writeMemFiles (tmpDir : string) (files : list MemFile) (s : State)
  : Outcome unit :=
  match files with
  | [] => Returns tt s
  | mfile :: rest =>
      if negb (GoStrings.HasSuffix (mf_Name mfile) ".gno")
      then writeMemFiles tmpDir rest s
      else
        let tmpFile := Join E tmpDir (mf_Name mfile) in
        match WriteFile E tmpFile (mf_Body mfile) with
        | Some err => Stops (Panic err) s
        | None => writeMemFiles tmpDir rest (emit (EvWrite tmpFile (mf_Body mfile)) s)
        end
  end.

(** The inner loop that reads the source once per directory entry. *)
Fixpoint readEach (srcPath : string) (fileInfos : list string) : option error :=
  match fileInfos with
  | [] => None
  | _ :: rest =>
      match ReadFile E srcPath with
      | inl err => Some err
      | inr _ => readEach srcPath rest
      end
  end.

(** The translation loop: [inl] is an early return of the function,
    [inr] the count of errors at the end of the loop.  The error of a
    file is wrapped, counted and not kept. *)
Fixpoint precompileLoop (flags : PrecompileCfg) (fuel : nat) (srcPaths : list string)
         (errCount : nat) (s : State) : Outcome (error + nat) :=
  match srcPaths with
  | [] => Returns (inr errCount) s
  | srcPath :: rest =>
      andThen (PrecompileFile E flags fuel srcPath s) (fun err s =>
        let errCount := match err with Some _ => S errCount | None => errCount end in
        match ReadDir E (Dir E srcPath) with
        | inl err => Returns (inl err) s
        | inr fileInfos =>
            match readEach srcPath fileInfos with
            | Some err => Returns (inl err) s
            | None => precompileLoop flags fuel rest errCount s
            end
        end)
  end.

(** The build loop: errors are counted. *)
Fixpoint buildLoop (flags : PrecompileCfg) (pkgPaths : list string)
         (errCount : nat) (s : State) : nat * State :=
  match pkgPaths with
  | [] => (errCount, s)
  | pkgPath :: rest =>
      let s := emit (EvBuild pkgPath) s in
      match GoBuildFileOrPkg E pkgPath flags with
      | Some _ => buildLoop flags rest (S errCount) s
      | None => buildLoop flags rest errCount s
      end
  end.

(** The two cleaning loops: a failure panics. *)
Fixpoint cleanLoop (paths : list string) (s : State) : Outcome unit :=
  match paths with
  | [] => Returns tt s
  | path :: rest =>
      let s := emit (EvClean path) s in
      match CleanGeneratedFiles E path with
      | Some err => Stops (Panic err) s
      | None => cleanLoop rest s
      end
  end.

(** The part of [PrecompileAndCheckPkg] after the target paths are set. *)
Definition precompileAndBuild (fuel : nat) (targetPaths : list string)
           (cfg : option PrecompileCfg) (s : State) : Outcome (option error) :=
  let precompileCfg :=
    match cfg with
    | None => mkCfg false false false true "go" EmptyString EmptyString
    | Some cfg => cfg
    end in
  match GnoFilesFromArgs E targetPaths with
  | inl err => Returns (Some (Errorf_w "list paths: " err)) s
  | inr srcPaths =>
      andThen (precompileLoop precompileCfg fuel srcPaths 0 s) (fun r s =>
        match r with
        | inl err => Returns (Some err) s
        | inr (S n) =>
            Returns (Some (errorString
                             (Strconv.Itoa (S n) +:+ " precompile errors from addpkg"))) s
        | inr O =>
            match GnoPackagesFromArgs E targetPaths with
            | inl err => Returns (Some (Errorf_w "list packages: " err)) s
            | inr pkgPaths =>
                let '(errCount, s) := buildLoop precompileCfg pkgPaths 0 s in
                andThen (cleanLoop srcPaths s) (fun _ s =>
                andThen (cleanLoop (elements (Precompiled s)) s) (fun _ s =>
                  match errCount with
                  | S n =>
                      Returns (Some (errorString
                                       (Strconv.Itoa (S n) +:+ " build errors"))) s
                  | O => Returns None s
                  end))
            end
        end)
  end.

(** [PrecompileAndCheckPkg].  The options of the run are new: the set of
    precompiled packages starts empty. *)
Definition PrecompileAndCheckPkg (fuel : nat) (isMem : bool) (mempkg : MemPackage)
           (paths : list string) (cfg : option PrecompileCfg)
  : Outcome (option error) :=
  let s := mkState ∅ [] in
  if isMem then
    match Abs E EmptyString with
    | inl err => Stops (Panic err) s
    | inr absPath =>
        match MkdirTemp E absPath (mp_Name mempkg) with
        | inl err => Returns (Some err) s
        | inr tmpDir =>
            let s := emit (EvMkdirTemp tmpDir) s in
            deferRemoveAll tmpDir
              (andThen (writeMemFiles tmpDir (mp_Files mempkg) s) (fun _ s =>
                 precompileAndBuild fuel [tmpDir] cfg s))
        end
    end
  else precompileAndBuild fuel paths cfg s.

End CheckPkg.
End precompile.

(** ** Package [gnovm/pkg/gnolang] *)

Module gnolang.

(** [GetPrecompileFilenameAndTags], which here has the flag [isPureGo]. *)
Definition GetPrecompileFilenameAndTags (gnoFilePath : string) (isPureGo : bool)
  : string * string :=
  let nameNoExtension := GoStrings.TrimSuffix (Filepath.Base gnoFilePath) ".gno" in
  if GoStrings.HasSuffix gnoFilePath "_filetest.gno" then
    (if isPureGo then "." +:+ nameNoExtension +:+ ".go"
     else "." +:+ nameNoExtension +:+ ".gno.gen.go",
     "gno && filetest")
  else if GoStrings.HasSuffix gnoFilePath "_test.gno" then
    (if isPureGo then "." +:+ nameNoExtension +:+ ".go"
     else "." +:+ nameNoExtension +:+ ".gno.gen_test.go",
     "gno && test")
  else
    (if isPureGo then nameNoExtension +:+ ".go"
     else nameNoExtension +:+ ".gno.gen.go",
     "gno").

(** [identifyCommandLineArguments]. *)
Definition identifyCommandLineArguments (input path : string) : string * bool :=
  let tag := "command-line-arguments" in
  let input := GoStrings.TrimSpace input in
  let isStdErr := GoStrings.Contains input tag in
  let parts := GoStrings.Split input "main.go" in
  match parts with
  | _ :: part1 :: _ => (path +:+ part1, isStdErr)
  | _ => (input, isStdErr)
  end.

(** The constants, the white lists, [precompileAST] and [Precompile] of
    this package have, line for line, the text of their namesakes in
    package precompile. *)
Definition precompileAST := precompile.precompileAST.
Definition Precompile := precompile.Precompile.

End gnolang.

(** ** A small world to run the code in *)

Module Demo.

(** A module of the demonstration tree: its path on disk, its package
    name and the paths it imports. *)
Record Module_ : Type := mkModule {
  m_path : string;
  m_pkg : string;
  m_imports : list string
}.

Definition quoted (s : string) : string := dquote +:+ s +:+ dquote.

(** The text of a module: a package clause and one import declaration
    per import, and the tree the Go parser gives for it. *)
Definition sourceOf (m : Module_) : string :=
  fold_left (fun acc p => acc +:+ "import " +:+ quoted p +:+ nl)
            (m_imports m) ("package " +:+ m_pkg m +:+ nl).

Definition treeOf (m : Module_) : File :=
  mkFile (List.map (fun p => mkImportSpec None (quoted p)) (m_imports m))
         (List.map (fun i => [i]) (seq 0 (length (m_imports m))))
         ("package " +:+ m_pkg m).

Definition render (f : File) : string :=
  fold_left (fun acc imp => acc +:+ "import " +:+ Path_Value imp +:+ nl)
            (Imports f) (Decls f +:+ nl).

Definition unquote (lit : string) : option string :=
  if GoStrings.HasPrefix lit dquote && GoStrings.HasSuffix lit dquote
     && (2 <=? String.length lit)%nat
  then Some (GoStrings.take (String.length lit - 2) (GoStrings.drop 1 lit))
  else None.

Fixpoint lastSlash (s : string) : option nat :=
  match s with
  | EmptyString => None
  | String c s' =>
      match lastSlash s' with
      | Some i => Some (S i)
      | None => if Filepath.isSlash c then Some 0 else None
      end
  end.

Definition dir (path : string) : string :=
  match lastSlash path with
  | Some i => GoStrings.take i path
  | None => "."
  end.

Definition join (a b : string) : string := a +:+ "/" +:+ b.

(** Import paths under the module prefix name directories of the
    repository; other imports name no package on disk. *)
Definition pathsOf (imports : list ImportSpec) : list ImportPath :=
  flat_map
    (fun imp =>
       match unquote (Path_Value imp) with
       | Some p =>
           if GoStrings.HasPrefix p (precompile.ImportPrefix +:+ "/")
           then [GoStrings.TrimPrefix p (precompile.ImportPrefix +:+ "/")]
           else []
       | None => []
       end)
    imports.

Definition noFile (path : string) : error :=
  errorString ("open " +:+ path +:+ ": no such file or directory").

Definition world (tree : list Module_) (printer : File -> string * option error) : Env :=
  let isGno path := GoStrings.HasSuffix path ".gno" in
  let under d := List.filter (fun m => String.eqb (dir (m_path m)) d) tree in
  mkEnv
    (fun filename source =>
       match List.find (fun m => String.eqb (sourceOf m) source) tree with
       | Some m => inr (treeOf m)
       | None => inl (errorString (filename +:+ ":1:1: expected 'package'"))
       end)
    printer
    quoted
    unquote
    join
    dir
    (fun path => inr ("/work" +:+ path))
    (fun pattern =>
       inr (List.map m_path
              (List.filter (fun m => String.eqb (join (dir (m_path m)) "*.gno") pattern)
                           tree)))
    (fun path =>
       match List.find (fun m => String.eqb (m_path m) path) tree with
       | Some m => inr (sourceOf m)
       | None => inl (noFile path)
       end)
    (fun d => inr (List.map (fun m => Filepath.Base (m_path m)) (under d)))
    (fun parent name => inr (join parent (name +:+ "123")))
    (fun _ _ => None)
    (fun _ => (EmptyString, None))
    (fun output d => inr (if String.eqb output EmptyString then d else join output d))
    (fun _ _ => None)
    pathsOf
    (fun paths => inr (List.map m_path (flat_map under paths)))
    (fun paths => inr paths)
    (fun _ => None)
    (fun _ _ => None).

Definition printer (f : File) : string * option error := (render f, None).

(** A printer that gives up after the package clause. *)
Definition brokenPrinter (f : File) : string * option error :=
  (Decls f, Some (errorString "format.Node internal error")).

(** Package [pkg]: [a.gno] imports a library package, [b.gno] imports
    [os], which production modules may not. *)
Definition avl := mkModule "examples/gno.land/p/demo/avl/avl.gno" "avl" [].
Definition a_gno := mkModule "pkg/a.gno" "pkg" [ "gno.land/p/demo/avl" ].
Definition b_gno := mkModule "pkg/b.gno" "pkg" [ "os" ].
Definition b_test_gno := mkModule "pkg/b_test.gno" "pkg" [ "os" ].
Definition pkgTree : list Module_ := [ a_gno; b_gno; avl ].

(** A diamond: both modules of [root] import [shared]. *)
Definition shared := mkModule "examples/gno.land/p/demo/shared/shared.gno" "shared" [].
Definition left := mkModule "root/left.gno" "root" [ "gno.land/p/demo/shared" ].
Definition right := mkModule "root/right.gno" "root" [ "gno.land/p/demo/shared"; "std" ].
Definition diamondTree : list Module_ := [ left; right; shared ].

(** A cycle: [ping] and [pong] import each other, and [pong] itself. *)
Definition ping :=
  mkModule "examples/gno.land/p/demo/ping/ping.gno" "ping" [ "gno.land/p/demo/pong" ].
Definition pong :=
  mkModule "examples/gno.land/p/demo/pong/pong.gno" "pong"
           [ "gno.land/p/demo/ping"; "gno.land/p/demo/pong" ].
Definition cycleTree : list Module_ := [ ping; pong ].

Definition flags : PrecompileCfg :=
  mkCfg false false false true "go" "gofmt" ".".

(** The state after [PrecompilePkg] ran on the diamond. *)
Definition diamondFinal : State :=
  match precompile.finalState
          (precompile.PrecompilePkg (world diamondTree printer) flags 3 "root"
             (mkState ∅ [])) with
  | Some s => s
  | None => mkState ∅ []
  end.

(** The package as [keyscli] submits it: in memory, and, once written
    to the temporary directory, on disk. *)
Definition tmp_a := mkModule "/work/pkg123/a.gno" "pkg" [ "gno.land/p/demo/avl" ].
Definition tmp_b := mkModule "/work/pkg123/b.gno" "pkg" [ "os" ].
Definition memTree : list Module_ := [ tmp_a; tmp_b; avl ].
Definition memPkg : precompile.MemPackage :=
  precompile.mkMemPackage "pkg" "gno.land/r/demo/pkg"
    [ precompile.mkMemFile "a.gno" (sourceOf tmp_a);
      precompile.mkMemFile "b.gno" (sourceOf tmp_b) ].

(** The packages of the cycle. *)
Definition cyclePackages : gset ImportPath :=
  {[ "examples/gno.land/p/demo/ping"; "examples/gno.land/p/demo/pong" ]}.

(** What [Precompile] returns for [root/right.gno]. *)
Definition rightResult : precompileResult :=
  match fst (precompile.Precompile (world diamondTree printer)
               (sourceOf right) "gno" "root/right.gno") with
  | Some res => res
  | None => mkResult [] EmptyString
  end.

End Demo.

(** ** Notions of the specification *)

(** The kind of a module, read off the suffix of its file name in the
    order of the [switch] of [GetPrecompileFilenameAndTags]. *)
Inductive Kind : Type := Implementation | Test | FileTest.

Definition kindOf (gnoFilePath : string) : Kind :=
  if GoStrings.HasSuffix gnoFilePath "_filetest.gno" then FileTest
  else if GoStrings.HasSuffix gnoFilePath "_test.gno" then Test
  else Implementation.

(** The base name of a module without its extension. *)
Definition nameNoExtension (gnoFilePath : string) : string :=
  GoStrings.TrimSuffix (Filepath.Base gnoFilePath) ".gno".

(** Whether a file name is that of a test or file-test module, as
    [Precompile] computes it. *)
Definition isTestFile (filename : string) : bool :=
  GoStrings.HasSuffix filename "_test.gno"
  || GoStrings.HasSuffix filename "_filetest.gno".

(** An import path matches a rule of the white list. *)
Definition whitelisted (importPath : string) : bool :=
  GoStrings.HasPrefix importPath precompile.GnoRealmPkgsPrefixBefore
  || GoStrings.HasPrefix importPath precompile.GnoPackagePrefixBefore
  || existsb (String.eqb importPath) precompile.stdlibWhitelist
  || existsb (GoStrings.HasPrefix importPath) precompile.importPrefixWhitelist.

(** The violation reported for an import. *)
Definition violation (E : Env) (importSpec : ImportSpec) : error :=
  errorString ("import " +:+ Quote E (precompile.trimmedPath importSpec)
               +:+ " is not in the whitelist").

(** The entries of the aggregate that [Precompile] returns wrapped once. *)
Definition entries (err : option error) : list error :=
  match err with
  | Some (wrapError _ inner) => Multierr.Errors (Some inner)
  | other => Multierr.Errors other
  end.

(** The rewrite rule that applies to an import path, if any, gives its
    target. *)
Definition target (importPath : string) : option string :=
  if String.eqb importPath precompile.GnoStdPkgBefore then
    Some precompile.GnoStdPkgAfter
  else if GoStrings.HasPrefix importPath precompile.GnoPackagePrefixBefore then
    Some (precompile.GnoPackagePrefixAfter
          +:+ GoStrings.TrimPrefix importPath precompile.GnoPackagePrefixBefore)
  else if GoStrings.HasPrefix importPath precompile.GnoRealmPkgsPrefixBefore then
    Some (precompile.GnoRealmPkgsPrefixAfter
          +:+ GoStrings.TrimPrefix importPath precompile.GnoRealmPkgsPrefixBefore)
  else None.

(** An import node after the rewrite: the literal of the target, under the
    same local name. *)
Definition rewritten (E : Env) (importSpec : ImportSpec) : ImportSpec :=
  match target (precompile.trimmedPath importSpec) with
  | Some t => mkImportSpec (Name importSpec) (Quote E t)
  | None => importSpec
  end.

(** The literals of an import and of its target are plain: unquoting them
    is trimming their two quotes.  Literals with escape sequences and raw
    literals are not. *)
Definition plainSpec (E : Env) (importSpec : ImportSpec) : Prop :=
  Unquote E (Path_Value importSpec) = Some (precompile.trimmedPath importSpec)
  /\ match target (precompile.trimmedPath importSpec) with
     | Some t =>
         Unquote E (Quote E t) = Some t
         /\ precompile.trimmedPath (mkImportSpec (Name importSpec) (Quote E t)) = t
     | None => True
     end.

(** A stand-in for [PrecompilePkg] that only records that it is called:
    it shows which paths [PrecompileFile] hands to the package resolver. *)
Definition recordCall (pkgPath : ImportPath) (s : State)
  : precompile.Outcome (option error) :=
  precompile.Returns None (emit (EvEnterPkg pkgPath) s).

(** The packages whose translation a trace starts, in order. *)
Fixpoint translatedPkgs (tr : list Event) : list ImportPath :=
  match tr with
  | [] => []
  | EvTranslatePkg pkgPath :: rest => pkgPath :: translatedPkgs rest
  | _ :: rest => translatedPkgs rest
  end.

(** What at-most-once means for the trace of a run that started with the
    set [S0]: no package is translated twice, a package that was asked for
    and was not in [S0] is translated exactly once, and a package of [S0]
    is not translated again. *)
Definition translatedOnce (S0 : gset ImportPath) (tr : list Event) : Prop :=
  (forall p, count_occ string_dec (translatedPkgs tr) p <= 1)
  /\ (forall p, In (EvEnterPkg p) tr -> p ∉ S0 ->
                count_occ string_dec (translatedPkgs tr) p = 1)
  /\ (forall p, p ∈ S0 -> count_occ string_dec (translatedPkgs tr) p = 0).

(** The packages [PrecompilePkg] is asked for in a trace, in order. *)
Fixpoint enteredPkgs (tr : list Event) : list ImportPath :=
  match tr with
  | [] => []
  | EvEnterPkg pkgPath :: rest => pkgPath :: enteredPkgs rest
  | _ :: rest => enteredPkgs rest
  end.

(** What a call returned, if it did. *)
Definition returned {A : Type} (o : precompile.Outcome A) : option A :=
  match o with
  | precompile.Returns a _ => Some a
  | _ => None
  end.

(** The files written, the paths handed to [CleanGeneratedFiles] and the
    directories removed in a trace. *)
Definition writtenPaths (tr : list Event) : list string :=
  flat_map (fun ev => match ev with EvWrite path _ => [path] | _ => [] end) tr.

Definition cleanedPaths (tr : list Event) : list string :=
  flat_map (fun ev => match ev with EvClean path => [path] | _ => [] end) tr.

Definition removedDirs (tr : list Event) : list string :=
  flat_map (fun ev => match ev with EvRemoveAll dir => [dir] | _ => [] end) tr.

(** ** Notions used in the proofs *)

(** A string without a slash. *)
Fixpoint noSlash (s : string) : bool :=
  match s with
  | EmptyString => true
  | String c s' => negb (Filepath.isSlash c) && noSlash s'
  end.

(** One step of the rewrite loop of [precompileAST]. *)
Definition rewriteStep (E : Env) (st : File * option error) (ptr : nat)
  : File * option error :=
  precompile.atNode (fst st) ptr (precompile.rewriteImport E st) st.

(** A node is as in the source or already rewritten. *)
Definition step (E : Env) (o c : ImportSpec) : Prop := c = o \/ c = rewritten E o.

(** What one call of [astutil.RewriteImport] does to a node. *)
Definition rewriteNode (E : Env) (p t : string) (imp : ImportSpec) : ImportSpec :=
  if String.eqb (Astutil.importPath E imp) p
  then mkImportSpec (Name imp) (Quote E t) else imp.

(** The invariant of the rewrite loop before it visits node [k]. *)
Record visited (E : Env) (f g : File) (k : nat) : Prop := mkVisited {
  v_paragraphs : Paragraphs g = Paragraphs f;
  v_decls : Decls g = Decls f;
  v_nodes : Forall2 (step E) (Imports f) (Imports g);
  v_done : forall j o, j < k -> nth_error (Imports f) j = Some o ->
                       nth_error (Imports g) j = Some (rewritten E o)
}.

(** A property of the state that a call keeps, however it ends. *)
Definition preserving {X A : Type} (P : State -> Prop)
           (body : X -> State -> precompile.Outcome A) : Prop :=
  forall x s s', P s -> precompile.finalState (body x s) = Some s' -> P s'.

(** The set of precompiled packages is the set the run started with plus
    the packages translated since, none of them twice, and every package
    that was asked for is in it. *)
Record consistent (S0 : gset ImportPath) (s : State) : Prop := mkConsistent {
  c_nodup : List.NoDup (translatedPkgs (trace s));
  c_marked : forall p, p ∈ Precompiled s <-> p ∈ S0 \/ In p (translatedPkgs (trace s));
  c_fresh : forall p, In p (translatedPkgs (trace s)) -> p ∉ S0;
  c_entered : forall p, In (EvEnterPkg p) (trace s) -> p ∈ Precompiled s
}.

(** Events that do not touch the set of precompiled packages. *)
Definition quiet (ev : Event) : Prop :=
  match ev with
  | EvEnterPkg _ | EvSkipPkg _ | EvTranslatePkg _ => False
  | _ => True
  end.

(** A call that, from any state which has at least the packages of [B]
    marked, comes to an end and only adds to the marked packages. *)
Definition endsAbove {X A : Type} (B : gset ImportPath)
           (body : X -> State -> precompile.Outcome A) : Prop :=
  forall x s, B ⊆ Precompiled s ->
              body x s <> precompile.OutOfFuel
              /\ forall s', precompile.finalState (body x s) = Some s' ->
                            Precompiled s ⊆ Precompiled s'.

(** [body'] does what [body] does wherever [body] has fuel enough. *)
Definition extends {X A : Type} (body body' : X -> State -> precompile.Outcome A) : Prop :=
  forall x s, body x s <> precompile.OutOfFuel -> body' x s = body x s.

(** The modules [PrecompileFile] is called on in a trace, in order. *)
Definition filesOf (tr : list Event) : list string :=
  flat_map (fun ev => match ev with EvFile srcPath => [srcPath] | _ => [] end) tr.

(** The file [f] is one of the modules of the package [q]. *)
Definition globs (E : Env) (q : ImportPath) (f : string) : Prop :=
  exists files, Glob E (Join E q "*.gno") = inr files /\ In f files.

(** Package paths name directories one to one: the listing of a package
    has no file twice, and no file is in the listing of two package paths. *)
Definition uniqueFiles (E : Env) : Prop :=
  (forall q files, Glob E (Join E q "*.gno") = inr files -> List.NoDup files)
  /\ (forall q q' f, globs E q f -> globs E q' f -> q = q').

(** The stretch [tr] of a trace between the states [s] and [s'] translates
    no module twice, and every module it translates is one of [own] or
    belongs to a package marked between [s] and [s']. *)
Record freshFiles (E : Env) (own : list string) (s s' : State) (tr : list Event)
  : Prop := mkFreshFiles {
  ff_trace : trace s' = trace s ++ tr;
  ff_marked : Precompiled s ⊆ Precompiled s';
  ff_nodup : List.NoDup (filesOf tr);
  ff_owner : forall f, In f (filesOf tr) ->
                       In f own
                       \/ (exists q, q ∈ Precompiled s' /\ (q ∉ Precompiled s)
                                     /\ globs E q f)
}.

(** A call of the package resolver whose every run is such a stretch, with
    no module of its own. *)
Definition freshCall {X A : Type} (E : Env)
           (body : X -> State -> precompile.Outcome A) : Prop :=
  forall x s s', precompile.finalState (body x s) = Some s' ->
                 exists tr, freshFiles E [] s s' tr.


(** ** The build and run steps *)

(** What these steps ask of the operating system beyond [Env]: [os.Stat]
    followed by [IsDir], [os.Getwd], and the combined output and the exit
    error of a process started in the directory [cmd.Dir] with an argument
    vector; the empty [cmd.Dir] is the working directory of the caller.  As
    in [Env], the answers do not change during a call. *)
Record Sys : Type := mkSys {
  Stat : string -> error + bool;
  Getwd : error + string;
  CombinedOutputIn : string -> list string -> string * option error
}.

(** What a call does to the outside world, latest effect last. *)
Inductive Effect : Type :=
| Ran (dir : string) (argv : list string)
| Wrote (path content : string)
| MadeTemp (dir : string)
| Removed (dir : string).

(** How a call that cannot exit the process ends: it returns, or it
    panics. *)
Inductive Ended (A : Type) : Type :=
| Done (a : A)
| Panicked (err : error).
Arguments Done {A} a.
Arguments Panicked {A} err.

(** ** Package [sort] *)

Module Sort.

Fixpoint insertSorted (x : string) (l : list string) : list string :=
  match l with
  | [] => [x]
  | y :: l' => if String.leb x y then x :: l else y :: insertSorted x l'
  end.

(** [sort.Strings]: the strings in ascending byte-wise order. *)
Definition Strings (l : list string) : list string :=
  fold_right insertSorted [] l.

End Sort.

(** ** Package [gnovm/pkg/precompile], the steps that run the toolchain *)

Module precompile_exec.
Section WithWorld.
Variable E : Env.
Variable W : Sys.

(** [guessRootDir]. *)
Definition guessRootDir (fileOrPkg goBinary : string)
  : (error + string) * list Effect :=
  match Abs E fileOrPkg with
  | inl err => (inl err, [])
  | inr abs =>
      let argv := [ goBinary; "list"; "-m"; "-mod=mod"; "-f"; "{{.Dir}}";
                    precompile.ImportPrefix ] in
      match CombinedOutputIn W abs argv with
      | (_, Some _) => (inl (errorString "can't guess --root-dir"), [Ran abs argv])
      | (out, None) => (inr (GoStrings.TrimSpace out), [Ran abs argv])
      end
  end.

(** Body of the loop of [PrecompileBuildPackage] over the matches: the
    [switch] that skips a match or appends it to [files]. *)
Definition appendMatch (files : list string) (goMatch : string) : list string :=
  if GoStrings.HasPrefix goMatch "." then files
  else if GoStrings.HasSuffix goMatch "_filetest.go" then files
  else if GoStrings.HasSuffix goMatch "_filetest.gno.gen.go" then files
  else if GoStrings.HasSuffix goMatch "_test.go" then files
  else if GoStrings.HasSuffix goMatch "_test.gno.gen.go" then files
  else files ++ [goMatch].

(** The loop that reads every entry of the directory before the build. *)
Fixpoint readEntries (fileOrPkg : string) (fileInfos : list string) : option error :=
  match fileInfos with
  | [] => None
  | name :: rest =>
      match ReadFile E (Join E fileOrPkg name) with
      | inl err => Some err
      | inr _ => readEntries fileOrPkg rest
      end
  end.

(** The end of [PrecompileBuildPackage], from [sort.Strings] on. *)
Definition goBuild (fileOrPkg goBinary : string) (files : list string)
  : option error * list Effect :=
  let files := Sort.Strings files in
  let argv := goBinary :: "build" :: "-v" :: "-tags=gno" :: files in
  let '(rootDir, log) := guessRootDir fileOrPkg goBinary in
  let dir := match rootDir with inr d => d | inl _ => EmptyString end in
  match CombinedOutputIn W dir argv with
  | (_, Some err) => (Some (Errorf_w "std go compiler: " err), log ++ [Ran dir argv])
  | (_, None) => (None, log ++ [Ran dir argv])
  end.

(** The beginning of [PrecompileBuildPackage]: the files to build, or the
    error that ends the call. *)
Definition filesToBuild (fileOrPkg : string) : error + list string :=
  match Stat W fileOrPkg with
  | inl err => inl (Errorf_w "invalid file or package path: " err)
  | inr isDir =>
      if negb isDir then inr [fileOrPkg]
      else
        match Glob E (Join E fileOrPkg "*.go") with
        | inl err => inl (Errorf_w "glob: " err)
        | inr goMatches => inr (fold_left appendMatch goMatches [])
        end
  end.

(** [PrecompileBuildPackage]. *)
Definition PrecompileBuildPackage (fileOrPkg goBinary : string)
  : option error * list Effect :=
  match filesToBuild fileOrPkg with
  | inl err => (Some err, [])
  | inr files =>
      match Getwd W with
      | inl err => (Some err, [])
      | inr _ =>
          match ReadDir E fileOrPkg with
          | inl err => (Some err, [])
          | inr fileInfos =>
              match readEntries fileOrPkg fileInfos with
              | Some err => (Some err, [])
              | None => goBuild fileOrPkg goBinary files
              end
          end
      end
  end.

(** [PrecompileRun]: the error and the output. *)
Definition PrecompileRun (targetFileName tmpDir goRunBinary path : string)
  : (option error * string) * list Effect :=
  let args := GoStrings.Split goRunBinary " " ++ [ targetFileName ] in
  let '(out, _) := CombinedOutputIn W tmpDir args in
  let '(res, isErr) := precompile.parseResult out path in
  let nonEmpty := negb (String.eqb res EmptyString) in
  (if isErr && nonEmpty then (Some (errorString res), EmptyString)
   else if negb isErr && nonEmpty then (None, res)
   else if negb (Nat.eqb (String.length out) 0) then (None, out)
   else (None, EmptyString),
   [Ran tmpDir args]).

(** Body of the loop of [PrecompileAndRunMempkg] for a module: the error
    to append, if any, and the value of [output] afterwards. *)
Definition runMemFile (tmpDir path : string) (mfile : precompile.MemFile)
           (output : string) : Ended (option error * string) * list Effect :=
  let '(targetFileName, tags) :=
    precompile.GetPrecompileFilenameAndTags (precompile.mf_Name mfile) in
  match precompile.Precompile E (precompile.mf_Body mfile) tags
          (precompile.mf_Name mfile) with
  | (_, Some err) => (Done (Some err, output), [])
  | (None, None) => (Panicked (errorString "nil pointer dereference"), [])
  | (Some res, None) =>
      let target := Join E tmpDir targetFileName in
      match WriteFile E target (Translated res) with
      | Some err => (Done (Some err, output), [])
      | None =>
          let '(r, log) := PrecompileRun targetFileName tmpDir "go run" path in
          (Done r, Wrote target (Translated res) :: log)
      end
  end.

(** The loop of [PrecompileAndRunMempkg]. *)
Fixpoint runMemFiles (tmpDir path : string) (files : list precompile.MemFile)
         (errs : option error) (output : string)
  : Ended (option error * string) * list Effect :=
  match files with
  | [] => (Done (errs, output), [])
  | mfile :: rest =>
      if negb (GoStrings.HasSuffix (precompile.mf_Name mfile) ".gno")
      then runMemFiles tmpDir path rest errs output
      else
        match runMemFile tmpDir path mfile output with
        | (Panicked err, log) => (Panicked err, log)
        | (Done (err, output), log) =>
            let '(r, log') :=
              runMemFiles tmpDir path rest (Multierr.Append errs err) output in
            (r, log ++ log')
        end
  end.

(** [PrecompileAndRunMempkg].  The deferred [os.RemoveAll] runs when the
    function returns and when it panics. *)
Definition PrecompileAndRunMempkg (mempkg : precompile.MemPackage) (path : string)
  : Ended (option error * string) * list Effect :=
  match MkdirTemp E EmptyString (precompile.mp_Name mempkg) with
  | inl err => (Done (Some err, EmptyString), [])
  | inr tmpDir =>
      let '(r, log) :=
        runMemFiles tmpDir path (precompile.mp_Files mempkg) None EmptyString in
      (match r with
       | Done (Some errs, _) => Done (Some errs, EmptyString)
       | Done (None, output) => Done (None, output)
       | Panicked err => Panicked err
       end,
       MadeTemp tmpDir :: log ++ [Removed tmpDir])
  end.

End WithWorld.
End precompile_exec.

(** ** Package [gnovm/pkg/gnolang], the steps that run the toolchain *)

Module gnolang_exec.
Section WithWorld.
Variable E : Env.
Variable W : Sys.

(** [PrecompileBuildPackage]: the text of its namesake in package
    precompile without the reads of the directory before the build. *)
Definition PrecompileBuildPackage (fileOrPkg goBinary : string)
  : option error * list Effect :=
  match precompile_exec.filesToBuild E W fileOrPkg with
  | inl err => (Some err, [])
  | inr files => precompile_exec.goBuild E W fileOrPkg goBinary files
  end.

(** Body of the loop of [PrecompileAndCheckMempkg] for a module: the
    error to append, if any.  The format checker is started in the working
    directory of the caller. *)
Definition checkMemFile (tmpDir : string) (mfile : precompile.MemFile)
  : Ended (option error) * list Effect :=
  match gnolang.Precompile E (precompile.mf_Body mfile) "gno,tmp"
          (precompile.mf_Name mfile) with
  | (_, Some err) => (Done (Some err), [])
  | (None, None) => (Panicked (errorString "nil pointer dereference"), [])
  | (Some res, None) =>
      let tmpFile := Join E tmpDir (precompile.mf_Name mfile) in
      match WriteFile E tmpFile (Translated res) with
      | Some err => (Done (Some err), [])
      | None =>
          (Done (precompile.PrecompileVerifyFile E tmpFile "gofmt"),
           [ Wrote tmpFile (Translated res);
             Ran EmptyString (GoStrings.Split "gofmt" " " ++ [ "-l"; "-e"; tmpFile ]) ])
      end
  end.

(** The loop of [PrecompileAndCheckMempkg]. *)
Fixpoint checkMemFiles (tmpDir : string) (files : list precompile.MemFile)
         (errs : option error) : Ended (option error) * list Effect :=
  match files with
  | [] => (Done errs, [])
  | mfile :: rest =>
      if negb (GoStrings.HasSuffix (precompile.mf_Name mfile) ".gno")
      then checkMemFiles tmpDir rest errs
      else
        match checkMemFile tmpDir mfile with
        | (Panicked err, log) => (Panicked err, log)
        | (Done err, log) =>
            let '(r, log') := checkMemFiles tmpDir rest (Multierr.Append errs err) in
            (r, log ++ log')
        end
  end.

(** [PrecompileAndCheckMempkg]. *)
Definition PrecompileAndCheckMempkg (mempkg : precompile.MemPackage)
  : Ended (option error) * list Effect :=
  match MkdirTemp E EmptyString (precompile.mp_Name mempkg) with
  | inl err => (Done (Some err), [])
  | inr tmpDir =>
      let '(r, log) := checkMemFiles tmpDir (precompile.mp_Files mempkg) None in
      (match r with
       | Done (Some errs) => Done (Some (Errorf_w "precompile package: " errs))
       | Done None => Done None
       | Panicked err => Panicked err
       end,
       MadeTemp tmpDir :: log ++ [Removed tmpDir])
  end.

End WithWorld.
End gnolang_exec.

(** ** The options of a run *)

(** [NewPrecompileOptions]: the flags given and an empty set of
    precompiled packages; nothing has happened yet. *)
Definition NewPrecompileOptions (cfg : PrecompileCfg) : PrecompileCfg * State :=
  (cfg, mkState ∅ []).

(** [GetFlags]. *)
Definition GetFlags (opts : PrecompileCfg * State) : PrecompileCfg := fst opts.

(** ** A small world to build and run in *)

Module DemoExec.

(** The environment [E] with another answer to [filepath.Glob]. *)
Definition withGlob (E : Env) (glob : string -> error + list string) : Env :=
  mkEnv (ParseFile E) (format_Node E) (Quote E) (Unquote E) (Join E) (Dir E) (Abs E)
        glob (ReadFile E) (ReadDir E) (MkdirTemp E) (WriteFile E) (CombinedOutput E)
        (resolvePath E) (writeDirFile E) (getPathsFromImportSpec E)
        (GnoFilesFromArgs E) (GnoPackagesFromArgs E) (CleanGeneratedFiles E)
        (PrecompileBuildPackage E).

(** The Go files of the directory [pkg] after a translation. *)
Definition goFiles : list string :=
  [ "pkg/b.gno.gen.go"; "pkg/.b_test.gno.gen_test.go"; "pkg/a.gno.gen.go";
    "pkg/helper_test.go" ].

Definition env : Env :=
  withGlob (Demo.world Demo.pkgTree Demo.printer)
           (fun pattern => if String.eqb pattern "pkg/*.go" then inr goFiles else inr []).

(** What the compiler prints for a program that uses an undefined name. *)
Definition undefinedX : string :=
  "# command-line-arguments" +:+ nl +:+ "./main.gno.gen.go:3:9: undefined: X" +:+ nl.

(** A system in which [pkg] is a directory, the module root is [/work],
    the program [main.gno.gen.go] does not compile, the program
    [crash.gno.gen.go] prints a line and exits with status 2, and every
    other program prints a greeting. *)
Definition sys : Sys :=
  mkSys
    (fun path =>
       if String.eqb path "pkg" then inr true
       else if GoStrings.HasSuffix path ".go" then inr false
       else inl (Demo.noFile path))
    (inr "/work")
    (fun dir argv =>
       match argv with
       | _ :: "list" :: _ => ("/work" +:+ nl, None)
       | _ :: "run" :: "main.gno.gen.go" :: _ =>
           (undefinedX, Some (errorString "exit status 1"))
       | _ :: "run" :: "crash.gno.gen.go" :: _ =>
           ("panic: boom" +:+ nl, Some (errorString "exit status 2"))
       | _ :: "run" :: _ => ("hello" +:+ nl, None)
       | _ => (EmptyString, None)
       end).

(** A package of programs in memory, with a file that is no module, and
    the world it is translated in.  [broken.gno] does not parse and
    [main.gno] imports [os]. *)
Definition hello_gno := Demo.mkModule "hello.gno" "main" [ "fmt" ].
Definition crash_gno := Demo.mkModule "crash.gno" "main" [].
Definition main_gno := Demo.mkModule "main.gno" "main" [ "os" ].

Definition runEnv : Env := Demo.world [ hello_gno; crash_gno; main_gno ] Demo.printer.

Definition scripts : precompile.MemPackage :=
  precompile.mkMemPackage "main" "gno.land/r/demo/main"
    [ precompile.mkMemFile "crash.gno" (Demo.sourceOf crash_gno);
      precompile.mkMemFile "README.md" "notes";
      precompile.mkMemFile "hello.gno" (Demo.sourceOf hello_gno) ].

Definition faulty : precompile.MemPackage :=
  precompile.mkMemPackage "main" "gno.land/r/demo/main"
    [ precompile.mkMemFile "broken.gno" "func";
      precompile.mkMemFile "hello.gno" (Demo.sourceOf hello_gno);
      precompile.mkMemFile "main.gno" (Demo.sourceOf main_gno) ].

(** The environment [E] with another parser. *)
Definition withParser (E : Env) (parse : string -> string -> error + File) : Env :=
  mkEnv parse (format_Node E) (Quote E) (Unquote E) (Join E) (Dir E) (Abs E)
        (Glob E) (ReadFile E) (ReadDir E) (MkdirTemp E) (WriteFile E) (CombinedOutput E)
        (resolvePath E) (writeDirFile E) (getPathsFromImportSpec E)
        (GnoFilesFromArgs E) (GnoPackagesFromArgs E) (CleanGeneratedFiles E)
        (PrecompileBuildPackage E).

(** A module that imports [fmt], written as a raw string literal. *)
Definition rawFmt : File :=
  mkFile [ mkImportSpec None "`fmt`" ] [ [ 0 ] ] "package main".

Definition rawEnv : Env :=
  withParser (Demo.world [] Demo.printer) (fun _ _ => inr rawFmt).

(** A module with imports of every sort. *)
Definition mixed_gno :=
  Demo.mkModule "pkg/mixed.gno" "pkg"
    [ "fmt"; "os"; "gno.land/p/demo/avl"; "net/http"; "std"; "gno.land/r/demo/users" ].

(** The state after [PrecompilePkg] ran on the package [pkg], whose module
    [b.gno] is rejected. *)
Definition pkgFinal : State :=
  match precompile.finalState
          (precompile.PrecompilePkg (Demo.world Demo.pkgTree Demo.printer) Demo.flags 3
             "pkg" (mkState ∅ [])) with
  | Some s => s
  | None => mkState ∅ []
  end.

(** The flags of a run that leaves the imports alone. *)
Definition skipFlags : PrecompileCfg :=
  mkCfg false false true true "go" "gofmt" ".".

(** The world of the package in memory with a pattern matcher that
    rejects every pattern, and the state in which the check of the package
    ends there. *)
Definition badGlobEnv : Env :=
  withGlob (Demo.world Demo.memTree Demo.printer)
           (fun _ => inl (errorString "syntax error in pattern")).

Definition badGlobFinal : State :=
  match precompile.finalState
          (precompile.PrecompileAndCheckPkg badGlobEnv 3 true Demo.memPkg [] None) with
  | Some s => s
  | None => mkState ∅ []
  end.

(** The state in which the check of the package [pkg] without its
    module [b.gno] ends. *)
Definition goodFinal : State :=
  match precompile.finalState
          (precompile.PrecompileAndCheckPkg
             (Demo.world [ Demo.a_gno; Demo.avl ] Demo.printer) 3 false
             (precompile.mkMemPackage EmptyString EmptyString []) [ "pkg" ]
             (Some Demo.flags)) with
  | Some s => s
  | None => mkState ∅ []
  end.

(** The state in which the check of the package in memory ends: its
    module [b.gno] is rejected. *)
Definition failedFinal : State :=
  match precompile.finalState
          (precompile.PrecompileAndCheckPkg (Demo.world Demo.memTree Demo.printer) 3 true
             Demo.memPkg [] None) with
  | Some s => s
  | None => mkState ∅ []
  end.

(** The state after [PrecompileFile] ran on a module of the diamond. *)
Definition leftFinal : State :=
  match precompile.finalState
          (precompile.PrecompileFile (Demo.world Demo.diamondTree Demo.printer) Demo.flags 3
             "root/left.gno" (mkState ∅ [])) with
  | Some s => s
  | None => mkState ∅ []
  end.

End DemoExec.

(** ** Notions for the build and run steps *)

(** The [switch] of [PrecompileBuildPackage] appends the match. *)
Definition keeps (goMatch : string) : bool :=
  match precompile_exec.appendMatch [] goMatch with
  | [] => false
  | _ => true
  end.

(** Every string is at most its successor in the list. *)
Fixpoint ascending (l : list string) : Prop :=
  match l with
  | x :: rest =>
      match rest with
      | y :: _ => String.leb x y = true
      | [] => True
      end /\ ascending rest
  | [] => True
  end.

(** The modules of a package in memory that the loops do not skip. *)
Definition gnoFiles (mempkg : precompile.MemPackage) : list precompile.MemFile :=
  List.filter (fun mfile => GoStrings.HasSuffix (precompile.mf_Name mfile) ".gno")
              (precompile.mp_Files mempkg).

(** The error a module adds to the aggregate of [PrecompileAndCheckMempkg]. *)
Definition checkFailure (E : Env) (tmpDir : string) (mfile : precompile.MemFile)
  : option error :=
  match fst (gnolang_exec.checkMemFile E tmpDir mfile) with
  | Done err => err
  | Panicked _ => None
  end.

(** An effect stays inside the directory [tmpDir]: it writes a file
    joined to it or runs a process in it. *)
Definition inside (E : Env) (tmpDir : string) (eff : Effect) : Prop :=
  match eff with
  | Wrote path _ => exists name, path = Join E tmpDir name
  | Ran dir _ => dir = tmpDir
  | MadeTemp _ | Removed _ => False
  end.

(** *** Packages in memory *)

(** The error a module adds to the aggregate of [PrecompileAndRunMempkg],
    and what its program printed when there is none. *)
Definition runFailure (E : Env) (W : Sys) (tmpDir path : string)
           (mfile : precompile.MemFile) : option error :=
  match fst (precompile_exec.runMemFile E W tmpDir path mfile EmptyString) with
  | Done (err, _) => err
  | Panicked _ => None
  end.

Definition runOutput (W : Sys) (tmpDir path : string) (mfile : precompile.MemFile)
  : string :=
  snd (fst (precompile_exec.PrecompileRun W
              (fst (precompile.GetPrecompileFilenameAndTags (precompile.mf_Name mfile)))
              tmpDir "go run" path)).

(** An effect of the check of a package in memory: a file is written
    into [tmpDir], or a process is run on a file of [tmpDir]. *)
Definition onlyTouches (E : Env) (tmpDir : string) (eff : Effect) : Prop :=
  match eff with
  | Wrote path _ => exists name, path = Join E tmpDir name
  | Ran _ argv => exists name, last argv = Some (Join E tmpDir name)
  | MadeTemp _ | Removed _ => False
  end.

(** *** The translation *)

(** An import that matches no rule of the white list. *)
Definition unlisted (importSpec : ImportSpec) : bool :=
  negb (whitelisted (precompile.trimmedPath importSpec)).

(** *** The check of a package *)

(** The packages handed to [go build] in a trace. *)
Definition builtPaths (tr : list Event) : list string :=
  flat_map (fun ev => match ev with EvBuild pkgPath => [pkgPath] | _ => [] end) tr.

(** Nothing is built or cleaned while the modules are translated. *)
Definition untouched (s : State) : Prop :=
  builtPaths (trace s) = [] /\ cleanedPaths (trace s) = [].

(** The temporary directory was made first and is not removed. *)
Definition tempOpen (tmpDir : string) (s : State) : Prop :=
  exists mid, trace s = EvMkdirTemp tmpDir :: mid /\ removedDirs mid = [].

(** The check [o] of the targets got as far as the build: in a state [s1]
    with the property [P] every module was translated, then the packages
    were built and the paths [cleaned] were cleaned.  If it returned, it
    cleaned every source path and every marked package and returned nil or
    the count of the build errors; it did not exit the process. *)
Definition reachedBuild (E : Env) (P : State -> Prop) (targetPaths : list string)
           (o : precompile.Outcome (option error)) (s' : State) : Prop :=
  exists srcPaths pkgPaths s1 cleaned,
    GnoFilesFromArgs E targetPaths = inr srcPaths
    /\ GnoPackagesFromArgs E targetPaths = inr pkgPaths
    /\ P s1
    /\ s' = mkState (Precompiled s1)
                    (trace s1 ++ List.map EvBuild pkgPaths ++ List.map EvClean cleaned)
    /\ (forall r, returned o = Some r ->
                  cleaned = srcPaths ++ elements (Precompiled s1)
                  /\ (r = None
                      \/ exists n, r = Some (errorString
                                               (Strconv.Itoa (S n) +:+ " build errors"))))
    /\ (forall err, o <> precompile.Stops (precompile.Fatal err) s').

(** The events of the translation: all that happens before the first
    build. *)
Definition translating (ev : Event) : Prop :=
  match ev with
  | EvFile _ | EvWrite _ _ | EvEnterPkg _ | EvSkipPkg _ | EvTranslatePkg _ => True
  | _ => False
  end.

(** *** The normalization of diagnostics *)

(** The text up to the first occurrence of [sep], or all of it. *)
Definition upTo (sep text : string) : string :=
  match GoStrings.Index text sep with
  | Some m => GoStrings.take m text
  | None => text
  end.

(** *** The generated files *)

(** A generated text: the header, a build constraint with one of the three
    sets of tags, and a body. *)
Definition headedText (text : string) : Prop :=
  exists tags body,
    In tags [ "gno"; "gno && test"; "gno && filetest" ]
    /\ text = precompile.generatedHeader +:+ "//go:build " +:+ tags +:+ nl +:+ nl +:+ body.

(** An event that writes no file or a generated text. *)
Definition headed (ev : Event) : Prop :=
  match ev with
  | EvWrite _ text => headedText text
  | _ => True
  end.

(** The run from [s0] to [s] has only added events, and what it wrote is
    generated text. *)
Definition wroteHeaded (s0 s : State) : Prop :=
  exists tr, trace s = trace s0 ++ tr /\ Forall headed tr.

(** A step of [PrecompileAndRunMempkg] for a module of the package: the
    generated text of the module is written under its generated name into
    [tmpDir], or [go run] is started in [tmpDir] on that name alone. *)
Definition runStep (E : Env) (tmpDir : string) (mempkg : precompile.MemPackage)
           (eff : Effect) : Prop :=
  exists mfile,
    In mfile (gnoFiles mempkg)
    /\ let target :=
         fst (precompile.GetPrecompileFilenameAndTags (precompile.mf_Name mfile)) in
       (exists text, eff = Wrote (Join E tmpDir target) text /\ headedText text)
       \/ eff = Ran tmpDir [ "go"; "run"; target ].

(** * Facts about the library models *)

Module StringFacts.
Import GoStrings.

Lemma app_nil_l (s : string) : EmptyString +:+ s = s.
Proof. reflexivity. Qed.

Lemma app_cons (c : ascii) (s t : string) : String c s +:+ t = String c (s +:+ t).
Proof. reflexivity. Qed.

Lemma app_nil_r (s : string) : s +:+ EmptyString = s.
Proof. induction s as [|c s IH]; [reflexivity|]. rewrite app_cons, IH. reflexivity. Qed.

Lemma app_assoc (a b c : string) : (a +:+ b) +:+ c = a +:+ (b +:+ c).
Proof.
  induction a as [|x a IH]; [reflexivity|].
  rewrite !app_cons, IH. reflexivity.
Qed.

Lemma app_length (a b : string) :
  String.length (a +:+ b) = String.length a + String.length b.
Proof.
  induction a as [|x a IH]; [reflexivity|].
  rewrite app_cons. simpl. rewrite IH. reflexivity.
Qed.

Lemma rev_append_spec (s acc : string) : rev_append s acc = rev s +:+ acc.
Proof.
  unfold rev. revert acc.
  induction s as [|c s IH]; intros acc; [reflexivity|].
  simpl. rewrite IH, (IH (String c EmptyString)), app_assoc. reflexivity.
Qed.

Lemma rev_cons (c : ascii) (s : string) : rev (String c s) = rev s +:+ String c EmptyString.
Proof. unfold rev at 1. simpl. apply rev_append_spec. Qed.

Lemma rev_app (a b : string) : rev (a +:+ b) = rev b +:+ rev a.
Proof.
  induction a as [|c a IH].
  - rewrite app_nil_l. change (rev EmptyString) with EmptyString.
    rewrite app_nil_r. reflexivity.
  - rewrite app_cons, !rev_cons, IH, app_assoc. reflexivity.
Qed.

Lemma rev_involutive (s : string) : rev (rev s) = s.
Proof.
  induction s as [|c s IH]; [reflexivity|].
  rewrite rev_cons, rev_app, IH. reflexivity.
Qed.

Lemma rev_inj (a b : string) : rev a = rev b -> a = b.
Proof. intros H. rewrite <- (rev_involutive a), H. apply rev_involutive. Qed.

Lemma rev_length (s : string) : String.length (rev s) = String.length s.
Proof.
  induction s as [|c s IH]; [reflexivity|].
  rewrite rev_cons, app_length, IH. simpl. lia.
Qed.

Lemma app_inv_head (a b c : string) : a +:+ b = a +:+ c -> b = c.
Proof.
  induction a as [|x a IH]; [trivial|].
  rewrite !app_cons. intros H. injection H as H. auto.
Qed.

Lemma app_inv_tail (a b c : string) : a +:+ c = b +:+ c -> a = b.
Proof.
  intros H. apply rev_inj. apply (app_inv_head (rev c)).
  rewrite <- !rev_app. congruence.
Qed.

Lemma HasPrefix_iff (s p : string) :
  HasPrefix s p = true <-> exists t, s = p +:+ t.
Proof.
  revert s. induction p as [|a p IH]; intros s.
  - simpl. split; [intros _; exists s; reflexivity | intros _; reflexivity].
  - destruct s as [|b s].
    + simpl. split; [discriminate | intros [t Ht]; discriminate Ht].
    + simpl. destruct (Ascii.eqb a b) eqn:Hab.
      * apply Ascii.eqb_eq in Hab. subst b. rewrite IH.
        split; intros [t Ht]; exists t.
        -- rewrite app_cons, Ht. reflexivity.
        -- rewrite app_cons in Ht. injection Ht as Ht. exact Ht.
      * split; [discriminate|].
        intros [t Ht]. rewrite app_cons in Ht. injection Ht as Hc _.
        subst b. rewrite Ascii.eqb_refl in Hab. discriminate.
Qed.

Lemma HasPrefix_app (p t : string) : HasPrefix (p +:+ t) p = true.
Proof. apply HasPrefix_iff. exists t. reflexivity. Qed.

Lemma HasSuffix_iff (s x : string) :
  HasSuffix s x = true <-> exists t, s = t +:+ x.
Proof.
  unfold HasSuffix. rewrite HasPrefix_iff. split; intros [t Ht].
  - exists (rev t). apply rev_inj. rewrite rev_app, rev_involutive. exact Ht.
  - exists (rev t). rewrite Ht, rev_app. reflexivity.
Qed.

Lemma HasSuffix_app (t x : string) : HasSuffix (t +:+ x) x = true.
Proof. apply HasSuffix_iff. exists t. reflexivity. Qed.

Lemma drop_app (p t : string) : drop (String.length p) (p +:+ t) = t.
Proof. induction p as [|c p IH]; [reflexivity|]. rewrite app_cons. simpl. exact IH. Qed.

Lemma take_app (t x : string) : take (String.length t) (t +:+ x) = t.
Proof.
  induction t as [|c t IH]; [reflexivity|].
  rewrite app_cons. simpl. rewrite IH. reflexivity.
Qed.

Lemma TrimPrefix_app (p t : string) : TrimPrefix (p +:+ t) p = t.
Proof. unfold TrimPrefix. rewrite HasPrefix_app. apply drop_app. Qed.

Lemma TrimSuffix_app (t x : string) : TrimSuffix (t +:+ x) x = t.
Proof.
  unfold TrimSuffix. rewrite HasSuffix_app, app_length.
  replace (String.length t + String.length x - String.length x)
    with (String.length t) by lia.
  apply take_app.
Qed.

End StringFacts.

Module PathFacts.
Import GoStrings Filepath StringFacts.

Lemma noSlash_app (a b : string) : noSlash (a +:+ b) = noSlash a && noSlash b.
Proof.
  induction a as [|c a IH]; [reflexivity|].
  rewrite app_cons. simpl. rewrite IH, andb_assoc. reflexivity.
Qed.

Lemma noSlash_rev (s : string) : noSlash (rev s) = noSlash s.
Proof.
  induction s as [|c s IH]; [reflexivity|].
  rewrite rev_cons, noSlash_app, IH. simpl.
  rewrite andb_true_r. apply andb_comm.
Qed.

Lemma HasPrefix_untilSlash (y r : string) :
  noSlash y = true -> HasPrefix (untilSlash r) y = HasPrefix r y.
Proof.
  revert r. induction y as [|a y IH]; intros r Hy; [reflexivity|].
  simpl in Hy. apply andb_true_iff in Hy as [Ha Hy].
  destruct r as [|b r]; [reflexivity|].
  simpl. destruct (isSlash b) eqn:Hb.
  - simpl. destruct (Ascii.eqb a b) eqn:Hab; [|reflexivity].
    apply Ascii.eqb_eq in Hab. subst b. rewrite Hb in Ha. discriminate.
  - simpl. destruct (Ascii.eqb a b); [apply IH; exact Hy | reflexivity].
Qed.

(** The base of a path that ends in [.gno] is its last element. *)
Lemma Base_gno (p : string) :
  HasSuffix p ".gno" = true -> Base p = rev (untilSlash (rev p)).
Proof.
  intros H. apply HasSuffix_iff in H as [t ->].
  unfold Base. destruct (t +:+ ".gno") eqn:Hp.
  - destruct t; discriminate Hp.
  - rewrite <- Hp. rewrite rev_app.
    change (rev ".gno") with "ong.". rewrite !app_cons. simpl.
    rewrite rev_cons.
    match goal with |- context [?u +:+ "o"] => destruct u end; reflexivity.
Qed.

Lemma HasSuffix_Base (p x : string) :
  HasSuffix p ".gno" = true -> noSlash x = true ->
  HasSuffix (Base p) x = HasSuffix p x.
Proof.
  intros Hp Hx. rewrite (Base_gno p Hp). unfold HasSuffix.
  rewrite rev_involutive. apply HasPrefix_untilSlash.
  rewrite noSlash_rev. exact Hx.
Qed.

(** Such a base is the name without extension followed by [.gno]. *)
Lemma Base_name (p : string) :
  HasSuffix p ".gno" = true ->
  Base p = TrimSuffix (Base p) ".gno" +:+ ".gno".
Proof.
  intros Hp.
  assert (H : HasSuffix (Base p) ".gno" = true)
    by (rewrite HasSuffix_Base; [exact Hp | exact Hp | reflexivity]).
  apply HasSuffix_iff in H as [t Ht].
  rewrite Ht at 2. rewrite TrimSuffix_app. exact Ht.
Qed.

End PathFacts.

Module SplitFacts.
Import GoStrings StringFacts.

Lemma Contains_false (s sep : string) :
  Contains s sep = false <-> Index s sep = None.
Proof.
  unfold Contains. destruct (Index s sep); split; intros H; congruence.
Qed.

Lemma Index_cons_None (c : ascii) (s sep : string) :
  Index (String c s) sep = None ->
  HasPrefix (String c s) sep = false /\ Index s sep = None.
Proof.
  simpl. destruct (HasPrefix (String c s) sep); [discriminate|].
  destruct (Index s sep); [discriminate|]. auto.
Qed.

Lemma Index_cons_S (c : ascii) (s sep : string) (n : nat) :
  Index (String c s) sep = Some (S n) ->
  HasPrefix (String c s) sep = false /\ Index s sep = Some n.
Proof.
  simpl. destruct (HasPrefix (String c s) sep); [discriminate|].
  destruct (Index s sep); simpl; [|discriminate].
  intros H. injection H as ->. auto.
Qed.

(** No occurrence means no way to cut the string around the separator. *)
Lemma Index_None_iff (s sep : string) :
  Index s sep = None <-> ~ exists a b, s = a +:+ sep +:+ b.
Proof.
  split.
  - induction s as [|c s IH]; intros H [a [b Hab]].
    + destruct a; [|discriminate Hab]. rewrite app_nil_l in Hab.
      destruct sep; [discriminate H | discriminate Hab].
    + destruct a as [|x a].
      * rewrite app_nil_l in Hab.
        assert (Hp : HasPrefix (String c s) sep = true)
          by (rewrite Hab; apply HasPrefix_app).
        apply Index_cons_None in H as [H _]. congruence.
      * rewrite app_cons in Hab. injection Hab as _ Hab.
        apply Index_cons_None in H as [_ H]. apply IH; eauto.
  - induction s as [|c s IH]; intros H.
    + destruct (Index EmptyString sep) eqn:Hi; [|reflexivity].
      exfalso. apply H. exists EmptyString, EmptyString.
      destruct sep; [reflexivity | discriminate Hi].
    + simpl. destruct (HasPrefix (String c s) sep) eqn:Hp.
      * exfalso. apply H. apply HasPrefix_iff in Hp as [t Ht].
        exists EmptyString, t. exact Ht.
      * rewrite IH; [reflexivity|].
        intros [a [b Hab]]. apply H. exists (String c a), b.
        rewrite app_cons, Hab. reflexivity.
Qed.

(** A factor of a string without occurrence has none either. *)
Lemma Index_None_factor (l s r sep : string) :
  Index (l +:+ s +:+ r) sep = None -> Index s sep = None.
Proof.
  rewrite !Index_None_iff. intros H [a [b Hab]]. apply H.
  exists (l +:+ a), (b +:+ r). rewrite Hab, !app_assoc. reflexivity.
Qed.

Lemma split_go_skip (sep a rest cur : string) :
  split_go sep (a +:+ rest) (String.length a) cur = split_go sep rest 0 cur.
Proof.
  induction a as [|x a IH]; [reflexivity|].
  rewrite app_cons. simpl. exact IH.
Qed.

Lemma split_go_none (sep s cur : string) :
  Index s sep = None -> split_go sep s 0 cur = [rev cur +:+ s].
Proof.
  revert cur. induction s as [|c s IH]; intros cur H.
  - simpl. rewrite app_nil_r. reflexivity.
  - apply Index_cons_None in H as [Hp H].
    cbn [split_go]. rewrite Hp, (IH _ H), rev_cons, app_assoc. reflexivity.
Qed.

Lemma split_go_first (sep pre rest cur : string) :
  sep <> EmptyString ->
  Index (pre +:+ sep +:+ rest) sep = Some (String.length pre) ->
  split_go sep (pre +:+ sep +:+ rest) 0 cur
  = (rev cur +:+ pre) :: split_go sep rest 0 EmptyString.
Proof.
  intros Hsep. revert cur. induction pre as [|c pre IH]; intros cur H.
  - rewrite app_nil_l, app_nil_r. destruct sep as [|x sep]; [congruence|].
    rewrite app_cons. cbn [split_go].
    rewrite <- app_cons, HasPrefix_app. f_equal.
    replace (String.length (String x sep) - 1) with (String.length sep)
      by (cbn [String.length]; lia).
    apply split_go_skip.
  - rewrite app_cons in *. cbn [String.length] in H.
    apply Index_cons_S in H as [Hp H].
    cbn [split_go]. rewrite Hp, (IH _ H), rev_cons, app_assoc. reflexivity.
Qed.

Lemma Split_none (s sep : string) : Index s sep = None -> Split s sep = [s].
Proof. intros H. unfold Split. rewrite (split_go_none _ _ _ H). reflexivity. Qed.

Lemma Split_first (sep pre rest : string) :
  sep <> EmptyString ->
  Index (pre +:+ sep +:+ rest) sep = Some (String.length pre) ->
  Index rest sep = None ->
  Split (pre +:+ sep +:+ rest) sep = [pre; rest].
Proof.
  intros Hsep Hi Hr. unfold Split.
  rewrite (split_go_first _ _ _ _ Hsep Hi), (split_go_none _ _ _ Hr). reflexivity.
Qed.

(** [TrimSpace] returns a factor of its argument. *)
Lemma trimLeftSpace_suffix (s : string) : exists l, s = l +:+ trimLeftSpace s.
Proof.
  assert (H : forall n s, String.length s <= n -> exists l, s = l +:+ trimLeftSpace s).
  { clear s. induction n as [|n IH]; intros s Hn.
    - destruct s; [exists EmptyString; reflexivity | simpl in Hn; lia].
    - destruct s as [|c1 s1]; [exists EmptyString; reflexivity|].
      simpl in Hn. cbn [trimLeftSpace].
      destruct (asciiSpace c1).
      { destruct (IH s1 ltac:(lia)) as [l Hl]. exists (String c1 l).
        rewrite app_cons, <- Hl. reflexivity. }
      destruct s1 as [|c2 s2]; [exists EmptyString; reflexivity|].
      simpl in Hn. destruct (space2 c1 c2).
      { destruct (IH s2 ltac:(lia)) as [l Hl]. exists (String c1 (String c2 l)).
        rewrite !app_cons, <- Hl. reflexivity. }
      destruct s2 as [|c3 s3]; [exists EmptyString; reflexivity|].
      simpl in Hn. destruct (space3 c1 c2 c3).
      { destruct (IH s3 ltac:(lia)) as [l Hl].
        exists (String c1 (String c2 (String c3 l))).
        rewrite !app_cons, <- Hl. reflexivity. }
      exists EmptyString. reflexivity. }
  exact (H _ s (le_n _)).
Qed.

Lemma trimLeftSpaceRev_suffix (s : string) : exists l, s = l +:+ trimLeftSpaceRev s.
Proof.
  assert (H : forall n s, String.length s <= n -> exists l, s = l +:+ trimLeftSpaceRev s).
  { clear s. induction n as [|n IH]; intros s Hn.
    - destruct s; [exists EmptyString; reflexivity | simpl in Hn; lia].
    - destruct s as [|c1 s1]; [exists EmptyString; reflexivity|].
      simpl in Hn. cbn [trimLeftSpaceRev].
      destruct (asciiSpace c1).
      { destruct (IH s1 ltac:(lia)) as [l Hl]. exists (String c1 l).
        rewrite app_cons, <- Hl. reflexivity. }
      destruct s1 as [|c2 s2]; [exists EmptyString; reflexivity|].
      simpl in Hn. destruct (space2 c2 c1).
      { destruct (IH s2 ltac:(lia)) as [l Hl]. exists (String c1 (String c2 l)).
        rewrite !app_cons, <- Hl. reflexivity. }
      destruct s2 as [|c3 s3]; [exists EmptyString; reflexivity|].
      simpl in Hn. destruct (space3 c3 c2 c1).
      { destruct (IH s3 ltac:(lia)) as [l Hl].
        exists (String c1 (String c2 (String c3 l))).
        rewrite !app_cons, <- Hl. reflexivity. }
      exists EmptyString. reflexivity. }
  exact (H _ s (le_n _)).
Qed.

Lemma TrimSpace_factor (s : string) : exists l r, s = l +:+ TrimSpace s +:+ r.
Proof.
  unfold TrimSpace.
  destruct (trimLeftSpace_suffix s) as [l Hl].
  destruct (trimLeftSpaceRev_suffix (rev (trimLeftSpace s))) as [r Hr].
  exists l, (rev r). rewrite <- rev_app, <- Hr, rev_involutive. exact Hl.
Qed.

Lemma TrimSpace_no_occurrence (s sep : string) :
  Contains s sep = false -> Index (TrimSpace s) sep = None.
Proof.
  intros H. apply Contains_false in H.
  destruct (TrimSpace_factor s) as [l [r Hs]].
  rewrite Hs in H. exact (Index_None_factor _ _ _ _ H).
Qed.

End SplitFacts.

Module TranslateFacts.
Import GoStrings StringFacts precompile.

Lemma fold_paragraphs {A B : Type} (g : A -> B -> A) (pars : list (list B)) (a : A) :
  fold_left (fun a par => fold_left g par a) pars a = fold_left g (concat pars) a.
Proof.
  revert a. induction pars as [|par pars IH]; intros a; [reflexivity|].
  simpl. rewrite fold_left_app. apply IH.
Qed.

Lemma fold_seq_nth {A B : Type} (g : A -> B -> A) (l1 l2 : list B) (a : A) :
  fold_left (fun a i => match nth_error (l1 ++ l2) i with
                        | Some x => g a x
                        | None => a
                        end)
            (seq (length l1) (length l2)) a
  = fold_left g l2 a.
Proof.
  revert l1 a. induction l2 as [|x l2 IH]; intros l1 a; [reflexivity|].
  simpl. rewrite nth_error_app2 by lia. rewrite Nat.sub_diag. simpl.
  specialize (IH (l1 ++ [x]) (g a x)).
  rewrite <- List.app_assoc, List.length_app in IH. simpl in IH.
  rewrite Nat.add_1_r in IH. exact IH.
Qed.

Lemma Errors_Append (a : option error) (msg : string) :
  Multierr.Errors (Multierr.Append a (Some (errorString msg)))
  = Multierr.Errors a ++ [errorString msg].
Proof. destruct a as [e|]; reflexivity. Qed.

Lemma isTestFile_kind (filename : string) :
  isTestFile filename = match kindOf filename with
                        | Implementation => false
                        | _ => true
                        end.
Proof.
  unfold isTestFile, kindOf.
  destruct (HasSuffix filename "_filetest.gno"), (HasSuffix filename "_test.gno");
    reflexivity.
Qed.

Lemma package_not_realm (p : string) :
  HasPrefix p GnoPackagePrefixBefore = true ->
  HasPrefix p GnoRealmPkgsPrefixBefore = false.
Proof. intros H. apply HasPrefix_iff in H as [t ->]. reflexivity. Qed.

Lemma std_no_prefix (p : string) :
  String.eqb p GnoStdPkgBefore = true ->
  HasPrefix p GnoPackagePrefixBefore = false
  /\ HasPrefix p GnoRealmPkgsPrefixBefore = false.
Proof. intros H. apply String.eqb_eq in H. subst p. split; reflexivity. Qed.

(** The three rules of the rewrite loop exclude each other: the loop body
    amounts to at most one call of [RewriteImport]. *)
Lemma rewriteImport_target (E : Env) (g : File) (errs : option error)
      (importSpec : ImportSpec) :
  rewriteImport E (g, errs) importSpec =
    match target (trimmedPath importSpec) with
    | Some t =>
        let '(g', ok) := Astutil.RewriteImport E g (trimmedPath importSpec) t in
        (g', if ok then errs
             else Multierr.Append errs (replaceFailure E (trimmedPath importSpec) t))
    | None => (g, errs)
    end.
Proof.
  unfold rewriteImport, target.
  destruct (String.eqb (trimmedPath importSpec) GnoStdPkgBefore) eqn:Hstd.
  - destruct (std_no_prefix _ Hstd) as [H1 H2].
    apply String.eqb_eq in Hstd. rewrite Hstd in *.
    cbn [fst snd]. rewrite H1, H2. rewrite <- Hstd. reflexivity.
  - destruct (HasPrefix (trimmedPath importSpec) GnoPackagePrefixBefore) eqn:Hpkg.
    + rewrite (package_not_realm _ Hpkg). reflexivity.
    + destruct (HasPrefix (trimmedPath importSpec) GnoRealmPkgsPrefixBefore);
        reflexivity.
Qed.

Lemma whitelisted_no_target (p : string) : whitelisted p = false -> target p = None.
Proof.
  unfold whitelisted, target. intros H.
  apply orb_false_iff in H as [H Hpre].
  apply orb_false_iff in H as [H Hstd].
  apply orb_false_iff in H as [Hr Hp].
  rewrite Hr, Hp.
  destruct (String.eqb p GnoStdPkgBefore) eqn:Heq; [|reflexivity].
  apply String.eqb_eq in Heq. subst p. discriminate Hstd.
Qed.

Lemma checkWhitelist_violation (E : Env) (errs : option error) (importSpec : ImportSpec) :
  whitelisted (trimmedPath importSpec) = false ->
  checkWhitelist E errs importSpec
  = Multierr.Append errs (Some (violation E importSpec)).
Proof.
  unfold whitelisted, checkWhitelist. intros H.
  apply orb_false_iff in H as [H Hpre].
  apply orb_false_iff in H as [H Hstd].
  apply orb_false_iff in H as [Hr Hp].
  rewrite Hr, Hp, Hstd, Hpre. reflexivity.
Qed.

Lemma checkWhitelist_all (E : Env) (l : list ImportSpec) (errs : option error) :
  Forall (fun importSpec => whitelisted (trimmedPath importSpec) = false) l ->
  Multierr.Errors (fold_left (checkWhitelist E) l errs)
  = Multierr.Errors errs ++ List.map (violation E) l.
Proof.
  intros H. revert errs. induction H as [|x l Hx Hl IH]; intros errs.
  - simpl. rewrite List.app_nil_r. reflexivity.
  - simpl. rewrite IH, (checkWhitelist_violation _ _ _ Hx).
    unfold violation at 1. rewrite Errors_Append, <- List.app_assoc. reflexivity.
Qed.

(** In a parsed file the two loops of [precompileAST] visit the import
    nodes in order. *)
Lemma precompileAST_parsed (E : Env) (f : File) (check : bool) :
  parsedShape f ->
  precompileAST E f check
  = fold_left (rewriteStep E) (seq 0 (length (Imports f)))
              (f, if check then fold_left (checkWhitelist E) (Imports f) None
                  else None).
Proof.
  intros Hshape. unfold precompileAST.
  rewrite (fold_paragraphs (rewriteStep E)). rewrite Hshape. f_equal. f_equal.
  destruct check; [|reflexivity].
  rewrite (fold_paragraphs (fun errs ptr => atNode f ptr (checkWhitelist E errs) errs)).
  rewrite Hshape. unfold atNode.
  exact (fold_seq_nth (checkWhitelist E) [] (Imports f) None).
Qed.

(** Imports outside the white list match no rewrite rule: the rewrite
    loop leaves file and errors as they are. *)
Lemma rewrite_nothing (E : Env) (f : File) (errs : option error) (ptrs : list nat) :
  Forall (fun importSpec => whitelisted (trimmedPath importSpec) = false) (Imports f) ->
  fold_left (rewriteStep E) ptrs (f, errs) = (f, errs).
Proof.
  intros Hall. induction ptrs as [|ptr ptrs IH]; [reflexivity|].
  simpl. unfold rewriteStep at 2, atNode. cbn [fst].
  destruct (nth_error (Imports f) ptr) as [importSpec|] eqn:Hnth; [|exact IH].
  rewrite rewriteImport_target.
  rewrite (whitelisted_no_target (trimmedPath importSpec)); [exact IH|].
  rewrite List.Forall_forall in Hall. apply Hall. eapply nth_error_In. exact Hnth.
Qed.

End TranslateFacts.

Module RewriteFacts.
Import GoStrings StringFacts TranslateFacts precompile.

(** A rewrite target matches no rule itself. *)
Lemma target_of_target (p t : string) : target p = Some t -> target t = None.
Proof.
  unfold target.
  destruct (String.eqb p GnoStdPkgBefore); [intros H; injection H as <-; reflexivity|].
  destruct (HasPrefix p GnoPackagePrefixBefore);
    [intros H; injection H as <-; reflexivity|].
  destruct (HasPrefix p GnoRealmPkgsPrefixBefore);
    [intros H; injection H as <-; reflexivity | discriminate].
Qed.

Section Loop.
Variable E : Env.

Lemma RewriteImport_nodes (g : File) (p t : string) :
  Astutil.RewriteImport E g p t
  = (mkFile (List.map (rewriteNode E p t) (Imports g)) (Paragraphs g) (Decls g),
     existsb (fun imp => String.eqb (Astutil.importPath E imp) p) (Imports g)).
Proof. reflexivity. Qed.

Lemma importPath_plain (o : ImportSpec) :
  plainSpec E o -> Astutil.importPath E o = trimmedPath o.
Proof. intros [H _]. unfold Astutil.importPath. rewrite H. reflexivity. Qed.

(** One call of [RewriteImport] for a path that has a target: nodes with
    that path become rewritten, rewritten nodes stay so. *)
Lemma rewriteNode_step (p t : string) (o c : ImportSpec) :
  target p = Some t -> plainSpec E o -> step E o c ->
  step E o (rewriteNode E p t c)
  /\ (c = rewritten E o -> rewriteNode E p t c = rewritten E o)
  /\ (trimmedPath o = p -> rewriteNode E p t c = rewritten E o).
Proof.
  intros Ht Hplain Hstep.
  assert (Horig : c = o ->
                  step E o (rewriteNode E p t c)
                  /\ (c = rewritten E o -> rewriteNode E p t c = rewritten E o)
                  /\ (trimmedPath o = p -> rewriteNode E p t c = rewritten E o)).
  { intros ->. unfold rewriteNode. rewrite (importPath_plain o Hplain).
    destruct (String.eqb (trimmedPath o) p) eqn:Heq.
    - apply String.eqb_eq in Heq.
      assert (Hr : mkImportSpec (Name o) (Quote E t) = rewritten E o)
        by (unfold rewritten; rewrite Heq, Ht; reflexivity).
      rewrite Hr. repeat split; [right; reflexivity | ..]; reflexivity.
    - apply String.eqb_neq in Heq.
      split; [left; reflexivity|]. split; [auto | congruence]. }
  destruct Hstep as [Hc | Hc]; [exact (Horig Hc)|].
  destruct (target (trimmedPath o)) as [to|] eqn:Hto.
  - assert (Hr : rewritten E o = mkImportSpec (Name o) (Quote E to))
      by (unfold rewritten; rewrite Hto; reflexivity).
    destruct Hplain as [_ Hplain]. rewrite Hto in Hplain. destruct Hplain as [Hu _].
    assert (Hne : to <> p).
    { intros ->. rewrite (target_of_target _ _ Hto) in Ht. discriminate. }
    assert (Hsame : rewriteNode E p t c = c).
    { subst c. rewrite Hr. unfold rewriteNode, Astutil.importPath. cbn [Path_Value].
      rewrite Hu. apply String.eqb_neq in Hne. rewrite Hne. reflexivity. }
    rewrite Hsame. split; [right; exact Hc|]. split; [auto|]. intros _. exact Hc.
  - apply Horig. rewrite Hc. unfold rewritten. rewrite Hto. reflexivity.
Qed.

Lemma Forall2_nth {A B : Type} (R : A -> B -> Prop) (l : list A) (l' : list B)
      (j : nat) (a : A) :
  Forall2 R l l' -> nth_error l j = Some a ->
  exists b, nth_error l' j = Some b /\ R a b.
Proof.
  intros H. revert j. induction H as [|x y l l' Hxy H IH]; intros j Hj.
  - destruct j; discriminate Hj.
  - destruct j as [|j]; simpl in *.
    + injection Hj as ->. eauto.
    + apply IH. exact Hj.
Qed.

Lemma nodes_after_rewrite (p t : string) (orig cur : list ImportSpec) :
  target p = Some t ->
  Forall (plainSpec E) orig ->
  Forall2 (step E) orig cur ->
  Forall2 (step E) orig (List.map (rewriteNode E p t) cur)
  /\ forall j o, nth_error orig j = Some o ->
                 nth_error cur j = Some (rewritten E o) \/ trimmedPath o = p ->
                 nth_error (List.map (rewriteNode E p t) cur) j = Some (rewritten E o).
Proof.
  intros Ht Hplain H. induction H as [|o c orig cur Hoc H IH].
  - split; [constructor|]. intros [|j] o Hj; discriminate Hj.
  - apply List.Forall_cons_iff in Hplain as [Ho Hplain].
    destruct (IH Hplain) as [IH1 IH2].
    destruct (rewriteNode_step p t o c Ht Ho Hoc) as [H1 [H2 H3]].
    split; [constructor; assumption|].
    intros [|j] o' Hj Hcase; simpl in *.
    + injection Hj as <-. f_equal.
      destruct Hcase as [Hc | Hp]; [injection Hc as Hc; auto | auto].
    + apply IH2; assumption.
Qed.

Lemma visited_step (f g : File) (errs : option error) (k : nat) :
  Forall (plainSpec E) (Imports f) ->
  k < length (Imports f) ->
  visited E f g k ->
  exists g', rewriteStep E (g, errs) k = (g', errs) /\ visited E f g' (S k).
Proof.
  intros Hplain Hk [Hpar Hdecl Hnodes Hdone].
  destruct (nth_error (Imports f) k) as [o|] eqn:Ho;
    [|apply nth_error_None in Ho; lia].
  destruct (Forall2_nth _ _ _ _ _ Hnodes Ho) as [c [Hc Hoc]].
  assert (Hplain_o : plainSpec E o).
  { rewrite List.Forall_forall in Hplain. apply Hplain.
    eapply nth_error_In. exact Ho. }
  unfold rewriteStep, atNode. cbn [fst]. rewrite Hc, rewriteImport_target.
  assert (Hkeep : target (trimmedPath c) = None -> c = rewritten E o ->
                  exists g', (g, errs) = (g', errs) /\ visited E f g' (S k)).
  { intros _ Hr. exists g. split; [reflexivity|].
    constructor; try assumption.
    intros j o' Hj Ho'. destruct (Nat.eq_dec j k) as [-> | Hne].
    - rewrite Ho in Ho'. injection Ho' as <-. rewrite Hc, Hr. reflexivity.
    - apply Hdone; [lia | exact Ho']. }
  destruct (target (trimmedPath o)) as [t|] eqn:Ht.
  - destruct Hoc as [-> | ->].
    + rewrite Ht, RewriteImport_nodes.
      destruct (nodes_after_rewrite (trimmedPath o) t _ _ Ht Hplain Hnodes)
        as [Hn Hd].
      assert (Hhit : existsb (fun imp => String.eqb (Astutil.importPath E imp)
                                                    (trimmedPath o))
                             (Imports g) = true).
      { apply existsb_exists. exists o. split.
        - eapply nth_error_In. exact Hc.
        - rewrite (importPath_plain o Hplain_o). apply String.eqb_refl. }
      rewrite Hhit. eexists. split; [reflexivity|].
      constructor; cbn [Imports Paragraphs Decls]; try assumption.
      intros j o' Hj Ho'. apply Hd; [exact Ho'|].
      destruct (Nat.eq_dec j k) as [-> | Hne].
      * right. congruence.
      * left. apply Hdone; [lia | exact Ho'].
    + assert (Hr : rewritten E o = mkImportSpec (Name o) (Quote E t))
        by (unfold rewritten; rewrite Ht; reflexivity).
      destruct Hplain_o as [_ Hp]. rewrite Ht in Hp. destruct Hp as [_ Htrim].
      assert (Hnone : target (trimmedPath (rewritten E o)) = None).
      { rewrite Hr, Htrim. exact (target_of_target _ _ Ht). }
      rewrite Hnone. apply Hkeep; [exact Hnone | reflexivity].
  - assert (Hc' : c = o).
    { destruct Hoc as [-> | ->]; [reflexivity|].
      unfold rewritten. rewrite Ht. reflexivity. }
    subst c. rewrite Ht. apply Hkeep; [exact Ht|].
    unfold rewritten. rewrite Ht. reflexivity.
Qed.

Lemma visited_loop (f : File) (errs : option error) (m k : nat) (g : File) :
  Forall (plainSpec E) (Imports f) ->
  k + m = length (Imports f) ->
  visited E f g k ->
  exists g', fold_left (rewriteStep E) (seq k m) (g, errs) = (g', errs)
             /\ visited E f g' (length (Imports f)).
Proof.
  intros Hplain. revert k g. induction m as [|m IH]; intros k g Hkm Hv.
  - exists g. split; [reflexivity|]. replace (length (Imports f)) with k by lia.
    exact Hv.
  - destruct (visited_step f g errs k Hplain ltac:(lia) Hv) as [g1 [Hstep Hv1]].
    destruct (IH (S k) g1 ltac:(lia) Hv1) as [g' [Hfold Hv']].
    exists g'. split; [|exact Hv']. simpl. rewrite Hstep. exact Hfold.
Qed.

(** In a parsed file with plain literals the rewrite loop never fails and
    leaves every import node rewritten. *)
Lemma precompileAST_rewrites (f : File) (check : bool) :
  parsedShape f ->
  Forall (plainSpec E) (Imports f) ->
  Imports (fst (precompileAST E f check)) = List.map (rewritten E) (Imports f)
  /\ snd (precompileAST E f check)
     = if check then fold_left (checkWhitelist E) (Imports f) None else None.
Proof.
  intros Hshape Hplain. rewrite (precompileAST_parsed E f check Hshape).
  assert (Hv0 : visited E f f 0).
  { constructor; try reflexivity.
    - clear. induction (Imports f); constructor; [left; reflexivity | assumption].
    - intros j o Hj. lia. }
  destruct (visited_loop f (if check then fold_left (checkWhitelist E) (Imports f) None
                            else None)
                         (length (Imports f)) 0 f Hplain eq_refl Hv0)
    as [g' [Hfold [_ _ Hnodes Hdone]]].
  rewrite Hfold. cbn [fst snd]. split; [|reflexivity].
  apply nth_error_ext. intros j. rewrite nth_error_map.
  destruct (nth_error (Imports f) j) as [o|] eqn:Ho.
  - apply Hdone; [|exact Ho]. apply nth_error_Some. congruence.
  - apply nth_error_None. apply nth_error_None in Ho.
    rewrite <- (List.Forall2_length Hnodes). exact Ho.
Qed.

End Loop.
End RewriteFacts.

Module RunFacts.
Import precompile.

(** *** Properties of the state that every call keeps *)

Section Loops.
Variable E : Env.
Variable flags : PrecompileCfg.
Variable P : State -> Prop.
Hypothesis P_file : forall srcPath s, P s -> P (emit (EvFile srcPath) s).
Hypothesis P_write : forall path content s, P s -> P (emit (EvWrite path content) s).

Lemma eachImport_preserving (pkg : ImportPath -> State -> Outcome (option error)) :
  preserving P pkg -> preserving P (eachImport pkg).
Proof.
  intros Hpkg paths. induction paths as [|path rest IH]; intros s s' Hs Hfin.
  - simpl in Hfin. injection Hfin as <-. exact Hs.
  - simpl in Hfin. destruct (pkg path s) as [a s1|why s1|] eqn:Hcall.
    + apply (IH s1 s'); [|exact Hfin].
      apply (Hpkg path s s1 Hs). rewrite Hcall. reflexivity.
    + simpl in Hfin. injection Hfin as <-.
      apply (Hpkg path s s1 Hs). rewrite Hcall. reflexivity.
    + discriminate Hfin.
Qed.

Lemma PrecompileFile_preserving (pkg : ImportPath -> State -> Outcome (option error)) :
  preserving P pkg -> preserving P (PrecompileFile_ E flags pkg).
Proof.
  intros Hpkg srcPath s s' Hs Hfin. unfold PrecompileFile_ in Hfin.
  pose proof (P_file srcPath s Hs) as Hs1.
  destruct (ReadFile E srcPath) as [err|source];
    [simpl in Hfin; injection Hfin as <-; exact Hs1|].
  destruct (GetPrecompileFilenameAndTags srcPath) as [targetFilename tags].
  destruct (Precompile E source tags srcPath) as [[res|] [err|]];
    try (simpl in Hfin; injection Hfin as <-; exact Hs1).
  match type of Hfin with
  | context [match ?t with inl _ => _ | inr _ => _ end] =>
      destruct t as [err|targetPath];
        [simpl in Hfin; injection Hfin as <-; exact Hs1|]
  end.
  destruct (writeDirFile E targetPath (Translated res));
    [simpl in Hfin; injection Hfin as <-; exact Hs1|].
  pose proof (P_write targetPath (Translated res) _ Hs1) as Hs2.
  match type of Hfin with
  | context [match ?t with Some _ => _ | None => _ end] =>
      destruct t; [simpl in Hfin; injection Hfin as <-; exact Hs2|]
  end.
  destruct (SkipImports flags); [simpl in Hfin; injection Hfin as <-; exact Hs2|].
  match type of Hfin with
  | context [eachImport pkg ?paths ?s0] =>
      pose proof (eachImport_preserving pkg Hpkg paths s0 s' Hs2) as Himp;
        destruct (eachImport pkg paths s0) as [a s3|why s3|]
  end.
  - apply Himp. simpl in Hfin. exact Hfin.
  - apply Himp. simpl in Hfin. exact Hfin.
  - discriminate Hfin.
Qed.

Lemma eachFile_preserving (file_ : string -> State -> Outcome (option error)) :
  preserving P file_ -> preserving P (eachFile file_).
Proof.
  intros Hfile files. induction files as [|file rest IH]; intros s s' Hs Hfin.
  - simpl in Hfin. injection Hfin as <-. exact Hs.
  - simpl in Hfin. destruct (file_ file s) as [[err|] s1|why s1|] eqn:Hcall.
    + simpl in Hfin. injection Hfin as <-.
      apply (Hfile file s s1 Hs). rewrite Hcall. reflexivity.
    + apply (IH s1 s'); [|exact Hfin].
      apply (Hfile file s s1 Hs). rewrite Hcall. reflexivity.
    + simpl in Hfin. injection Hfin as <-.
      apply (Hfile file s s1 Hs). rewrite Hcall. reflexivity.
    + discriminate Hfin.
Qed.

Hypothesis P_skip :
  forall pkgPath s, P s -> pkgPath ∈ Precompiled s ->
                    P (emit (EvSkipPkg pkgPath) (emit (EvEnterPkg pkgPath) s)).
Hypothesis P_translate :
  forall pkgPath s, P s -> pkgPath ∉ Precompiled s ->
                    P (emit (EvTranslatePkg pkgPath)
                            (MarkAsPrecompiled pkgPath (emit (EvEnterPkg pkgPath) s))).

Lemma PrecompilePkg_preserving (fuel : nat) :
  preserving P (PrecompilePkg E flags fuel).
Proof.
  induction fuel as [|fuel IH]; intros pkgPath s s' Hs Hfin; [discriminate Hfin|].
  cbn [PrecompilePkg] in Hfin. unfold IsPrecompiled in Hfin.
  cbn [emit Precompiled] in Hfin.
  destruct (bool_decide (pkgPath ∈ Precompiled s)) eqn:Hmarked.
  - apply bool_decide_eq_true in Hmarked.
    simpl in Hfin. injection Hfin as <-. apply P_skip; assumption.
  - apply bool_decide_eq_false in Hmarked.
    pose proof (P_translate pkgPath s Hs Hmarked) as Hs2.
    destruct (Glob E (Join E pkgPath "*.gno")) as [err|files].
    + simpl in Hfin. injection Hfin as <-. exact Hs2.
    + eapply (eachFile_preserving _ (PrecompileFile_preserving _ IH));
        [exact Hs2 | exact Hfin].
Qed.

Lemma PrecompileFile_fuel_preserving (fuel : nat) :
  preserving P (PrecompileFile E flags fuel).
Proof.
  unfold PrecompileFile. apply PrecompileFile_preserving.
  apply PrecompilePkg_preserving.
Qed.

End Loops.

(** *** Every package is translated at most once *)

Lemma translatedPkgs_app (a b : list Event) :
  translatedPkgs (a ++ b) = translatedPkgs a ++ translatedPkgs b.
Proof.
  induction a as [|ev a IH]; [reflexivity|].
  destruct ev; simpl; rewrite IH; reflexivity.
Qed.

Lemma consistent_emit (S0 : gset ImportPath) (ev : Event) (s : State) :
  translatedPkgs [ev] = [] ->
  (forall p, ev = EvEnterPkg p -> p ∈ Precompiled s) ->
  consistent S0 s -> consistent S0 (emit ev s).
Proof.
  intros Hev Henter [Hnd Hmarked Hfresh Hentered].
  constructor; cbn [emit trace Precompiled];
    rewrite ?translatedPkgs_app, ?Hev, ?List.app_nil_r; try assumption.
  intros p Hin. apply List.in_app_or in Hin as [Hin | [Heq | []]]; auto.
Qed.

Lemma consistent_translate (S0 : gset ImportPath) (pkgPath : ImportPath) (s : State) :
  consistent S0 s -> pkgPath ∉ Precompiled s ->
  consistent S0 (emit (EvTranslatePkg pkgPath)
                      (MarkAsPrecompiled pkgPath (emit (EvEnterPkg pkgPath) s))).
Proof.
  intros [Hnd Hmarked Hfresh Hentered] Hnew.
  assert (Hnot : ~ In pkgPath (translatedPkgs (trace s)) /\ pkgPath ∉ S0).
  { split; intros H; apply Hnew; apply Hmarked; auto. }
  destruct Hnot as [Hnot1 Hnot2].
  constructor; cbn [emit trace Precompiled MarkAsPrecompiled];
    rewrite ?translatedPkgs_app; cbn [translatedPkgs]; rewrite ?List.app_nil_r.
  - apply List.NoDup_app; [exact Hnd | repeat constructor; intros [] |].
    intros x Hx [<- | []]. contradiction.
  - intros p. rewrite elem_of_union, elem_of_singleton, Hmarked, List.in_app_iff.
    simpl. intuition congruence.
  - intros p Hin. apply List.in_app_or in Hin as [Hin | [<- | []]]; auto.
  - intros p Hin. rewrite elem_of_union, elem_of_singleton.
    apply List.in_app_or in Hin as [Hin | [Hin | []]]; [|discriminate Hin].
    apply List.in_app_or in Hin as [Hin | [Hin | []]]; [right; auto|].
    left. congruence.
Qed.

Lemma PrecompilePkg_consistent (E : Env) (flags : PrecompileCfg)
      (S0 : gset ImportPath) (fuel : nat) :
  preserving (consistent S0) (PrecompilePkg E flags fuel).
Proof.
  apply PrecompilePkg_preserving.
  - intros. apply consistent_emit; [reflexivity | discriminate | assumption].
  - intros. apply consistent_emit; [reflexivity | discriminate | assumption].
  - intros pkgPath s Hs Hin.
    apply consistent_emit; [reflexivity | discriminate |].
    apply consistent_emit; [reflexivity | | assumption].
    intros p Hp. injection Hp as <-. exact Hin.
  - intros. apply consistent_translate; assumption.
Qed.

Lemma consistent_start (S0 : gset ImportPath) : consistent S0 (mkState S0 []).
Proof.
  constructor; simpl.
  - constructor.
  - intros p. tauto.
  - intros p [].
  - intros p [].
Qed.

End RunFacts.

Module CheckFacts.
Import precompile RunFacts.

Lemma finalState_andThen {A B : Type} (o : Outcome A) (k : A -> State -> Outcome B)
      (s' : State) :
  finalState (andThen o k) = Some s' ->
  (exists a s1, o = Returns a s1 /\ finalState (k a s1) = Some s')
  \/ finalState o = Some s'.
Proof.
  destruct o as [a s1|why s1|]; simpl; intros H.
  - left. eauto.
  - right. exact H.
  - discriminate H.
Qed.

Section Flow.
Variable E : Env.
Variable P : State -> Prop.
Hypothesis P_quiet : forall ev s, quiet ev -> P s -> P (emit ev s).
Hypothesis P_file :
  forall flags fuel, preserving P (PrecompileFile E flags fuel).

Lemma writeMemFiles_preserving (tmpDir : string) :
  preserving P (writeMemFiles E tmpDir).
Proof.
  intros files. induction files as [|mfile rest IH]; intros s s' Hs Hfin.
  - simpl in Hfin. injection Hfin as <-. exact Hs.
  - simpl in Hfin.
    destruct (negb (GoStrings.HasSuffix (mf_Name mfile) ".gno")); [eauto|].
    destruct (WriteFile E _ _).
    + simpl in Hfin. injection Hfin as <-. exact Hs.
    + eapply IH; [|exact Hfin]. apply P_quiet; [exact I | exact Hs].
Qed.

Lemma precompileLoop_preserving (flags : PrecompileCfg) (fuel : nat)
      (srcPaths : list string) (errCount : nat) (s s' : State) :
  P s -> finalState (precompileLoop E flags fuel srcPaths errCount s) = Some s' -> P s'.
Proof.
  revert errCount s. induction srcPaths as [|srcPath rest IH]; intros errCount s Hs Hfin.
  - simpl in Hfin. injection Hfin as <-. exact Hs.
  - cbn [precompileLoop] in Hfin.
    apply finalState_andThen in Hfin as [[err [s1 [Hcall Hfin]]] | Hfin].
    + assert (Hs1 : P s1).
      { apply (P_file flags fuel srcPath s s1 Hs). rewrite Hcall. reflexivity. }
      destruct (ReadDir E (Dir E srcPath)) as [e|fileInfos];
        [simpl in Hfin; injection Hfin as <-; exact Hs1|].
      destruct (readEach E srcPath fileInfos);
        [simpl in Hfin; injection Hfin as <-; exact Hs1|].
      eapply IH; [exact Hs1 | exact Hfin].
    + exact (P_file flags fuel srcPath s s' Hs Hfin).
Qed.

Lemma buildLoop_preserving (flags : PrecompileCfg) (pkgPaths : list string)
      (errCount : nat) (s : State) :
  P s -> P (snd (buildLoop E flags pkgPaths errCount s)).
Proof.
  revert errCount s. induction pkgPaths as [|pkgPath rest IH]; intros errCount s Hs.
  - exact Hs.
  - simpl. destruct (GoBuildFileOrPkg E pkgPath flags);
      apply IH; apply P_quiet; (exact I || exact Hs).
Qed.

Lemma cleanLoop_preserving : preserving P (cleanLoop E).
Proof.
  intros paths. induction paths as [|path rest IH]; intros s s' Hs Hfin.
  - simpl in Hfin. injection Hfin as <-. exact Hs.
  - simpl in Hfin.
    pose proof (P_quiet (EvClean path) s I Hs) as Hs1.
    destruct (CleanGeneratedFiles E path).
    + simpl in Hfin. injection Hfin as <-. exact Hs1.
    + eapply IH; [exact Hs1 | exact Hfin].
Qed.

Lemma precompileAndBuild_preserving (fuel : nat) (targetPaths : list string)
      (cfg : option PrecompileCfg) (s s' : State) :
  P s -> finalState (precompileAndBuild E fuel targetPaths cfg s) = Some s' -> P s'.
Proof.
  intros Hs Hfin. unfold precompileAndBuild in Hfin.
  destruct (GnoFilesFromArgs E targetPaths) as [err|srcPaths];
    [simpl in Hfin; injection Hfin as <-; exact Hs|].
  apply finalState_andThen in Hfin as [[r [s1 [Hloop Hfin]]] | Hfin];
    [|eapply precompileLoop_preserving; [exact Hs | exact Hfin]].
  assert (Hs1 : P s1).
  { eapply precompileLoop_preserving; [exact Hs|]. rewrite Hloop. reflexivity. }
  destruct r as [err|[|n]]; try (simpl in Hfin; injection Hfin as <-; exact Hs1).
  destruct (GnoPackagesFromArgs E targetPaths) as [err|pkgPaths];
    [simpl in Hfin; injection Hfin as <-; exact Hs1|].
  match type of Hfin with
  | context [buildLoop E ?c pkgPaths 0 s1] =>
      pose proof (buildLoop_preserving c pkgPaths 0 s1 Hs1) as Hs2;
        destruct (buildLoop E c pkgPaths 0 s1) as [errCount s2]
  end.
  simpl in Hs2.
  apply finalState_andThen in Hfin as [[u [s3 [Hclean Hfin]]] | Hfin];
    [|eapply cleanLoop_preserving; [exact Hs2 | exact Hfin]].
  assert (Hs3 : P s3).
  { apply (cleanLoop_preserving srcPaths s2 s3 Hs2). rewrite Hclean. reflexivity. }
  apply finalState_andThen in Hfin as [[u' [s4 [Hclean' Hfin]]] | Hfin];
    [|eapply cleanLoop_preserving; [exact Hs3 | exact Hfin]].
  assert (Hs4 : P s4).
  { eapply cleanLoop_preserving; [exact Hs3|]. rewrite Hclean'. reflexivity. }
  destruct errCount; simpl in Hfin; injection Hfin as <-; exact Hs4.
Qed.

Lemma deferRemoveAll_preserving {A : Type} (tmpDir : string) (o : Outcome A)
      (s' : State) :
  (forall s1, finalState o = Some s1 -> P s1) ->
  finalState (deferRemoveAll tmpDir o) = Some s' -> P s'.
Proof.
  intros Ho Hfin. destruct o as [a s1|[err|err] s1|]; simpl in Hfin;
    try discriminate Hfin; injection Hfin as <-;
    try (apply P_quiet; [exact I|]); apply Ho; reflexivity.
Qed.

Lemma PrecompileAndCheckPkg_preserving (fuel : nat) (isMem : bool)
      (mempkg : MemPackage) (paths : list string) (cfg : option PrecompileCfg)
      (s' : State) :
  P (mkState ∅ []) ->
  finalState (PrecompileAndCheckPkg E fuel isMem mempkg paths cfg) = Some s' -> P s'.
Proof.
  intros Hs Hfin. unfold PrecompileAndCheckPkg in Hfin.
  destruct isMem; [|eapply precompileAndBuild_preserving; [exact Hs | exact Hfin]].
  destruct (Abs E EmptyString) as [err|absPath];
    [simpl in Hfin; injection Hfin as <-; exact Hs|].
  destruct (MkdirTemp E absPath (mp_Name mempkg)) as [err|tmpDir];
    [simpl in Hfin; injection Hfin as <-; exact Hs|].
  apply deferRemoveAll_preserving in Hfin; [exact Hfin|].
  intros s1 Hfin1.
  pose proof (P_quiet (EvMkdirTemp tmpDir) _ I Hs) as Hs0.
  apply finalState_andThen in Hfin1 as [[u [s2 [Hwrite Hfin1]]] | Hfin1];
    [|eapply writeMemFiles_preserving; [exact Hs0 | exact Hfin1]].
  eapply precompileAndBuild_preserving; [|exact Hfin1].
  apply (writeMemFiles_preserving tmpDir (mp_Files mempkg) _ s2 Hs0).
  rewrite Hwrite. reflexivity.
Qed.

End Flow.

Lemma consistent_quiet (S0 : gset ImportPath) (ev : Event) (s : State) :
  quiet ev -> consistent S0 s -> consistent S0 (emit ev s).
Proof.
  intros Hq. apply consistent_emit; destruct ev; try reflexivity; try contradiction;
    discriminate.
Qed.

Lemma PrecompileFile_consistent (E : Env) (flags : PrecompileCfg)
      (S0 : gset ImportPath) (fuel : nat) :
  preserving (consistent S0) (PrecompileFile E flags fuel).
Proof.
  unfold PrecompileFile. apply PrecompileFile_preserving.
  - intros. apply consistent_quiet; [exact I | assumption].
  - intros. apply consistent_quiet; [exact I | assumption].
  - apply PrecompilePkg_consistent.
Qed.

End CheckFacts.

Module TerminationFacts.
Import precompile.

(** *** Enough fuel *)

Section Loops.
Variable E : Env.
Variable flags : PrecompileCfg.
Variable B : gset ImportPath.

Lemma eachImport_ends (pkg : ImportPath -> State -> Outcome (option error)) :
  endsAbove B pkg -> endsAbove B (eachImport pkg).
Proof.
  intros Hpkg paths. induction paths as [|path rest IH]; intros s HB.
  - simpl. split; [discriminate|]. intros s' H. injection H as <-. reflexivity.
  - simpl. destruct (Hpkg path s HB) as [Hne Hmono].
    destruct (pkg path s) as [a s1|why s1|]; [| |congruence].
    + specialize (Hmono s1 eq_refl).
      destruct (IH s1 ltac:(set_solver)) as [Hne' Hmono'].
      split; [exact Hne'|]. intros s' H. specialize (Hmono' s' H). set_solver.
    + split; [discriminate|]. intros s' H. simpl in H. injection H as <-.
      exact (Hmono s1 eq_refl).
Qed.

Lemma PrecompileFile_ends (pkg : ImportPath -> State -> Outcome (option error)) :
  endsAbove B pkg -> endsAbove B (PrecompileFile_ E flags pkg).
Proof.
  intros Hpkg srcPath s HB. unfold PrecompileFile_.
  assert (Hret : forall (a : option error) (s0 : State),
             Precompiled s0 = Precompiled s ->
             Returns a s0 <> OutOfFuel
             /\ forall s', finalState (Returns a s0) = Some s' ->
                           Precompiled s ⊆ Precompiled s').
  { intros a s0 Hs0. split; [discriminate|]. intros s' H. injection H as <-.
    rewrite Hs0. reflexivity. }
  destruct (ReadFile E srcPath) as [err|source]; [apply Hret; reflexivity|].
  destruct (GetPrecompileFilenameAndTags srcPath) as [targetFilename tags].
  destruct (Precompile E source tags srcPath) as [[res|] [err|]];
    try (apply Hret; reflexivity).
  2:{ split; [discriminate|]. intros s' H. injection H as <-. reflexivity. }
  match goal with
  | |- context [match ?t with inl _ => _ | inr _ => _ end] =>
      destruct t as [err|targetPath]; [apply Hret; reflexivity|]
  end.
  destruct (writeDirFile E targetPath (Translated res)); [apply Hret; reflexivity|].
  match goal with
  | |- context [match ?t with Some _ => _ | None => _ end] =>
      destruct t; [apply Hret; reflexivity|]
  end.
  destruct (SkipImports flags); [apply Hret; reflexivity|].
  match goal with
  | |- context [eachImport pkg ?paths ?s0] =>
      destruct (eachImport_ends pkg Hpkg paths s0 HB) as [Hne Hmono];
        destruct (eachImport pkg paths s0) as [a s3|why s3|]
  end; [| |congruence].
  - split; [discriminate|]. intros s' H. injection H as <-. exact (Hmono s3 eq_refl).
  - split; [discriminate|]. intros s' H. injection H as <-. exact (Hmono s3 eq_refl).
Qed.

Lemma eachFile_ends (file_ : string -> State -> Outcome (option error)) :
  endsAbove B file_ -> endsAbove B (eachFile file_).
Proof.
  intros Hfile files. induction files as [|file rest IH]; intros s HB.
  - simpl. split; [discriminate|]. intros s' H. injection H as <-. reflexivity.
  - simpl. destruct (Hfile file s HB) as [Hne Hmono].
    destruct (file_ file s) as [[err|] s1|why s1|]; [| | |congruence].
    + split; [discriminate|]. intros s' H. injection H as <-. exact (Hmono s1 eq_refl).
    + specialize (Hmono s1 eq_refl).
      destruct (IH s1 ltac:(set_solver)) as [Hne' Hmono'].
      split; [exact Hne'|]. intros s' H. specialize (Hmono' s' H). set_solver.
    + split; [discriminate|]. intros s' H. simpl in H. injection H as <-.
      exact (Hmono s1 eq_refl).
Qed.

End Loops.

(** [U] holds every package that has files.  A package outside [U] is
    marked and left at once; a package of [U] is marked before its files are
    read, so the unmarked packages of [U] bound the depth of the recursion. *)
Lemma PrecompilePkg_ends (E : Env) (flags : PrecompileCfg) (U : gset ImportPath) :
  (forall pkgPath file files,
      Glob E (Join E pkgPath "*.gno") = inr (file :: files) -> pkgPath ∈ U) ->
  forall fuel pkgPath s,
    size (U ∖ Precompiled s) < fuel ->
    PrecompilePkg E flags fuel pkgPath s <> OutOfFuel
    /\ forall s', finalState (PrecompilePkg E flags fuel pkgPath s) = Some s' ->
                  Precompiled s ⊆ Precompiled s'.
Proof.
  intros HU fuel. induction fuel as [|fuel IH]; intros pkgPath s Hsize; [lia|].
  cbn [PrecompilePkg]. unfold IsPrecompiled. cbn [emit Precompiled].
  destruct (bool_decide (pkgPath ∈ Precompiled s)) eqn:Hmarked.
  - split; [discriminate|]. intros s' H. injection H as <-. reflexivity.
  - apply bool_decide_eq_false in Hmarked.
    set (s2 := emit (EvTranslatePkg pkgPath)
                    (MarkAsPrecompiled pkgPath (emit (EvEnterPkg pkgPath) s))).
    assert (Hs2 : Precompiled s2 = {[pkgPath]} ∪ Precompiled s) by reflexivity.
    destruct (Glob E (Join E pkgPath "*.gno")) as [err|files] eqn:Hglob.
    + split; [discriminate|]. intros s' H. injection H as <-. rewrite Hs2. set_solver.
    + destruct files as [|file files].
      * simpl. split; [discriminate|]. intros s' H. injection H as <-.
        rewrite Hs2. set_solver.
      * assert (HinU : pkgPath ∈ U) by (eapply HU; exact Hglob).
        assert (Hless : size (U ∖ Precompiled s2) < size (U ∖ Precompiled s)).
        { apply subset_size. rewrite Hs2. set_solver. }
        assert (Hrec : endsAbove (Precompiled s2) (PrecompilePkg E flags fuel)).
        { intros p s0 Hs0. apply IH.
          assert (size (U ∖ Precompiled s0) <= size (U ∖ Precompiled s2))
            by (apply subseteq_size; set_solver).
          lia. }
        destruct (eachFile_ends (Precompiled s2) _
                    (PrecompileFile_ends E flags (Precompiled s2) _ Hrec)
                    (file :: files) s2 ltac:(reflexivity)) as [Hne Hmono].
        split; [exact Hne|]. intros s' H. specialize (Hmono s' H).
        rewrite Hs2 in Hmono. set_solver.
Qed.

(** *** More fuel changes nothing *)

Section Extends.
Variable E : Env.
Variable flags : PrecompileCfg.

Lemma eachImport_extends (pkg pkg' : ImportPath -> State -> Outcome (option error)) :
  extends pkg pkg' -> extends (eachImport pkg) (eachImport pkg').
Proof.
  intros Hext paths. induction paths as [|path rest IH]; intros s Hne; [reflexivity|].
  simpl in *. destruct (pkg path s) as [a s1|why s1|] eqn:Hcall; [| |congruence].
  - rewrite (Hext path s) by congruence. rewrite Hcall. apply IH. exact Hne.
  - rewrite (Hext path s) by congruence. rewrite Hcall. reflexivity.
Qed.

Lemma PrecompileFile_extends (pkg pkg' : ImportPath -> State -> Outcome (option error)) :
  extends pkg pkg' ->
  extends (PrecompileFile_ E flags pkg) (PrecompileFile_ E flags pkg').
Proof.
  intros Hext srcPath s. unfold PrecompileFile_.
  destruct (ReadFile E srcPath) as [err|source]; [reflexivity|].
  destruct (GetPrecompileFilenameAndTags srcPath) as [targetFilename tags].
  destruct (Precompile E source tags srcPath) as [[res|] [err|]]; try reflexivity.
  match goal with
  | |- context [match ?t with inl _ => _ | inr _ => _ end] =>
      destruct t as [err|targetPath]; [reflexivity|]
  end.
  destruct (writeDirFile E targetPath (Translated res)); [reflexivity|].
  match goal with
  | |- context [match ?t with Some _ => _ | None => _ end] =>
      destruct t; [reflexivity|]
  end.
  destruct (SkipImports flags); [reflexivity|].
  match goal with
  | |- context [eachImport pkg ?paths ?s0] =>
      pose proof (eachImport_extends pkg pkg' Hext paths s0) as Himp;
        destruct (eachImport pkg paths s0) as [a s3|why s3|]
  end; intros Hne; [| |congruence]; rewrite Himp by discriminate; reflexivity.
Qed.

Lemma eachFile_extends (file_ file_' : string -> State -> Outcome (option error)) :
  extends file_ file_' -> extends (eachFile file_) (eachFile file_').
Proof.
  intros Hext files. induction files as [|file rest IH]; intros s Hne; [reflexivity|].
  simpl in *. destruct (file_ file s) as [[err|] s1|why s1|] eqn:Hcall;
    [| | |congruence]; rewrite (Hext file s) by congruence; rewrite Hcall;
    [reflexivity | apply IH; exact Hne | reflexivity].
Qed.

Lemma PrecompilePkg_more_fuel (fuel : nat) :
  extends (PrecompilePkg E flags fuel) (PrecompilePkg E flags (S fuel)).
Proof.
  induction fuel as [|fuel IH]; intros pkgPath s Hne;
    [exfalso; apply Hne; reflexivity|].
  remember (S fuel) as n eqn:Hn. cbn [PrecompilePkg]. subst n.
  cbn [PrecompilePkg] in Hne |- *.
  destruct (IsPrecompiled pkgPath (emit (EvEnterPkg pkgPath) s)); [reflexivity|].
  destruct (Glob E (Join E pkgPath "*.gno")) as [err|files]; [reflexivity|].
  apply (eachFile_extends _ _ (PrecompileFile_extends _ _ IH)). exact Hne.
Qed.

Lemma PrecompilePkg_fuel_le (fuel fuel' : nat) :
  fuel <= fuel' ->
  extends (PrecompilePkg E flags fuel) (PrecompilePkg E flags fuel').
Proof.
  intros Hle. induction Hle as [|m Hle IH]; intros pkgPath s Hne; [reflexivity|].
  rewrite <- (IH pkgPath s Hne). apply PrecompilePkg_more_fuel.
  rewrite (IH pkgPath s Hne). exact Hne.
Qed.

End Extends.
End TerminationFacts.

Module FileFacts.
Import precompile.

Lemma filesOf_app (a b : list Event) : filesOf (a ++ b) = filesOf a ++ filesOf b.
Proof. unfold filesOf. apply List.flat_map_app. Qed.

Section Fresh.
Variable E : Env.
Variable flags : PrecompileCfg.
Hypothesis Hunique : uniqueFiles E.

Lemma fresh_nothing (s : State) : freshFiles E [] s s [].
Proof.
  constructor; simpl.
  - rewrite List.app_nil_r. reflexivity.
  - reflexivity.
  - constructor.
  - intros f [].
Qed.

Lemma fresh_quiet (own : list string) (s s' : State) (tr : list Event) (ev : Event) :
  filesOf [ev] = [] -> freshFiles E own s s' tr ->
  freshFiles E own s (emit ev s') (tr ++ [ev]).
Proof.
  intros Hev [Htr Hsub Hnd Hown].
  constructor; cbn [emit trace Precompiled];
    rewrite ?filesOf_app, ?Hev, ?List.app_nil_r; try assumption.
  rewrite Htr, List.app_assoc. reflexivity.
Qed.

(** Two stretches in a row, when the files of [own1] and [own2] differ
    and belong to packages that were marked before the first began. *)
Lemma fresh_compose (own1 own2 : list string) (s s1 s2 : State)
      (tr1 tr2 : list Event) :
  freshFiles E own1 s s1 tr1 ->
  freshFiles E own2 s1 s2 tr2 ->
  List.NoDup (own1 ++ own2) ->
  (forall f, In f (own1 ++ own2) -> exists p, p ∈ Precompiled s /\ globs E p f) ->
  freshFiles E (own1 ++ own2) s s2 (tr1 ++ tr2).
Proof.
  intros [Htr1 Hsub1 Hnd1 Hown1] [Htr2 Hsub2 Hnd2 Hown2] Hnd Howner.
  destruct Hunique as [_ Hone].
  constructor.
  - rewrite Htr2, Htr1, List.app_assoc. reflexivity.
  - set_solver.
  - rewrite filesOf_app. apply List.NoDup_app; [exact Hnd1 | exact Hnd2|].
    intros f Hf1 Hf2.
    destruct (Hown1 f Hf1) as [Ho1 | [q1 [Hq1 [Hq1' Hg1]]]];
      destruct (Hown2 f Hf2) as [Ho2 | [q2 [Hq2 [Hq2' Hg2]]]].
    + apply List.NoDup_app_remove_l in Hnd as Hnd'.
      assert (Hdis : forall a, In a own1 -> ~ In a own2).
      { clear -Hnd. induction own1 as [|a l IH]; intros b Hb; [destruct Hb|].
        simpl in Hnd. apply List.NoDup_cons_iff in Hnd as [Ha Hnd].
        destruct Hb as [-> | Hb]; [|exact (IH Hnd b Hb)].
        intros Hin. apply Ha. apply List.in_or_app. right. exact Hin. }
      exact (Hdis f Ho1 Ho2).
    + destruct (Howner f (List.in_or_app _ _ _ (or_introl Ho1))) as [p [Hp Hgp]].
      assert (p = q2) by exact (Hone p q2 f Hgp Hg2). subst p.
      apply Hq2'. apply Hsub1. exact Hp.
    + destruct (Howner f (List.in_or_app _ _ _ (or_intror Ho2))) as [p [Hp Hgp]].
      assert (p = q1) by exact (Hone p q1 f Hgp Hg1). subst p.
      exact (Hq1' Hp).
    + assert (q1 = q2) by exact (Hone q1 q2 f Hg1 Hg2). subst q2.
      exact (Hq2' Hq1).
  - intros f Hf. rewrite filesOf_app in Hf.
    apply List.in_app_or in Hf as [Hf | Hf].
    + destruct (Hown1 f Hf) as [Ho | [q [Hq [Hq' Hg]]]].
      * left. apply List.in_or_app. left. exact Ho.
      * right. exists q. split; [apply Hsub2; exact Hq|]. split; assumption.
    + destruct (Hown2 f Hf) as [Ho | [q [Hq [Hq' Hg]]]].
      * left. apply List.in_or_app. right. exact Ho.
      * right. exists q. split; [exact Hq|]. split; [|exact Hg].
        intros Hin. apply Hq'. apply Hsub1. exact Hin.
Qed.

Lemma fresh_compose_nil (s s1 s2 : State) (tr1 tr2 : list Event) :
  freshFiles E [] s s1 tr1 -> freshFiles E [] s1 s2 tr2 ->
  freshFiles E [] s s2 (tr1 ++ tr2).
Proof.
  intros H1 H2.
  apply (fresh_compose [] [] s s1 s2 tr1 tr2 H1 H2); [constructor|].
  intros f [].
Qed.

Lemma eachImport_fresh (pkg : ImportPath -> State -> Outcome (option error)) :
  freshCall E pkg -> freshCall E (eachImport pkg).
Proof.
  intros Hpkg paths. induction paths as [|path rest IH]; intros s s' Hfin.
  - simpl in Hfin. injection Hfin as <-. exists []. apply fresh_nothing.
  - simpl in Hfin. destruct (pkg path s) as [a s1|why s1|] eqn:Hcall.
    + destruct (Hpkg path s s1) as [tr1 H1]; [rewrite Hcall; reflexivity|].
      destruct (IH s1 s' Hfin) as [tr2 H2].
      exists (tr1 ++ tr2). exact (fresh_compose_nil _ _ _ _ _ H1 H2).
    + simpl in Hfin. injection Hfin as <-.
      apply (Hpkg path s s1). rewrite Hcall. reflexivity.
    + discriminate Hfin.
Qed.

Lemma fresh_file_first (srcPath : string) (s s2 : State) (tr : list Event) :
  (exists p, p ∈ Precompiled s /\ globs E p srcPath) ->
  freshFiles E [] (emit (EvFile srcPath) s) s2 tr ->
  freshFiles E [srcPath] s s2 (EvFile srcPath :: tr).
Proof.
  intros Howner H2.
  assert (H1 : freshFiles E [srcPath] s (emit (EvFile srcPath) s) [EvFile srcPath]).
  { constructor; simpl.
    - reflexivity.
    - reflexivity.
    - repeat constructor. intros [].
    - intros f [<- | []]. left. left. reflexivity. }
  apply (fresh_compose [srcPath] [] s _ s2 [EvFile srcPath] tr H1 H2).
  - repeat constructor. intros [].
  - intros f [<- | []]. exact Howner.
Qed.

Lemma PrecompileFile_fresh (pkg : ImportPath -> State -> Outcome (option error))
      (srcPath : string) (s s' : State) :
  freshCall E pkg ->
  (exists p, p ∈ Precompiled s /\ globs E p srcPath) ->
  finalState (PrecompileFile_ E flags pkg srcPath s) = Some s' ->
  exists tr, freshFiles E [srcPath] s s' tr.
Proof.
  intros Hpkg Howner Hfin. unfold PrecompileFile_ in Hfin.
  set (s1 := emit (EvFile srcPath) s) in *.
  assert (Hstop : s' = s1 -> exists tr, freshFiles E [srcPath] s s' tr).
  { intros ->. exists [EvFile srcPath].
    apply (fresh_file_first srcPath s s1 [] Howner). apply fresh_nothing. }
  destruct (ReadFile E srcPath) as [err|source];
    [simpl in Hfin; injection Hfin as <-; auto|].
  destruct (GetPrecompileFilenameAndTags srcPath) as [targetFilename tags].
  destruct (Precompile E source tags srcPath) as [[res|] [err|]];
    try (simpl in Hfin; injection Hfin as <-; auto).
  match type of Hfin with
  | context [match ?t with inl _ => _ | inr _ => _ end] =>
      destruct t as [err|targetPath]; [simpl in Hfin; injection Hfin as <-; auto|]
  end.
  destruct (writeDirFile E targetPath (Translated res));
    [simpl in Hfin; injection Hfin as <-; auto|].
  set (s2 := emit (EvWrite targetPath (Translated res)) s1) in *.
  assert (Hs2 : freshFiles E [] s1 s2 [EvWrite targetPath (Translated res)]).
  { apply (fresh_quiet [] s1 s1 [] (EvWrite targetPath (Translated res)) eq_refl).
    apply fresh_nothing. }
  assert (Hwritten : s' = s2 -> exists tr, freshFiles E [srcPath] s s' tr).
  { intros ->. exact (ex_intro _ _ (fresh_file_first srcPath s s2 _ Howner Hs2)). }
  match type of Hfin with
  | context [match ?t with Some _ => _ | None => _ end] =>
      destruct t; [simpl in Hfin; injection Hfin as <-; auto|]
  end.
  destruct (SkipImports flags); [simpl in Hfin; injection Hfin as <-; auto|].
  match type of Hfin with
  | context [eachImport pkg ?paths ?s0] =>
      pose proof (eachImport_fresh pkg Hpkg paths s0 s') as Himp;
        destruct (eachImport pkg paths s0) as [a s3|why s3|]
  end; [| |discriminate Hfin].
  - destruct (Himp Hfin) as [tr3 H3].
    exact (ex_intro _ _ (fresh_file_first srcPath s s' _ Howner
                           (fresh_compose_nil _ _ _ _ _ Hs2 H3))).
  - destruct (Himp Hfin) as [tr3 H3].
    exact (ex_intro _ _ (fresh_file_first srcPath s s' _ Howner
                           (fresh_compose_nil _ _ _ _ _ Hs2 H3))).
Qed.

Lemma eachFile_fresh (pkg : ImportPath -> State -> Outcome (option error))
      (p : ImportPath) (files : list string) (s s' : State) :
  freshCall E pkg ->
  p ∈ Precompiled s ->
  (forall f, In f files -> globs E p f) ->
  List.NoDup files ->
  finalState (eachFile (PrecompileFile_ E flags pkg) files s) = Some s' ->
  exists tr, freshFiles E files s s' tr.
Proof.
  intros Hpkg. revert s. induction files as [|file rest IH];
    intros s Hp Hfiles Hnd Hfin.
  - simpl in Hfin. injection Hfin as <-. exists []. apply fresh_nothing.
  - assert (Howner : exists q, q ∈ Precompiled s /\ globs E q file).
    { exists p. split; [exact Hp|]. apply Hfiles. left. reflexivity. }
    simpl in Hfin.
    destruct (PrecompileFile_ E flags pkg file s) as [[err|] s1|why s1|] eqn:Hcall;
      [| | |discriminate Hfin].
    + simpl in Hfin. injection Hfin as <-.
      destruct (PrecompileFile_fresh pkg file s s1 Hpkg Howner) as [tr1 H1];
        [rewrite Hcall; reflexivity|].
      exists tr1. destruct H1 as [Ha Hb Hc Hd]. constructor; try assumption.
      intros f Hf. destruct (Hd f Hf) as [[<- | []] | Hq]; [left; left; reflexivity|].
      right. exact Hq.
    + destruct (PrecompileFile_fresh pkg file s s1 Hpkg Howner) as [tr1 H1];
        [rewrite Hcall; reflexivity|].
      apply List.NoDup_cons_iff in Hnd as Hnd'. destruct Hnd' as [_ Hnd'].
      destruct (IH s1) as [tr2 H2]; try assumption.
      * apply (ff_marked _ _ _ _ _ H1). exact Hp.
      * intros f Hf. apply Hfiles. right. exact Hf.
      * exists (tr1 ++ tr2).
        apply (fresh_compose [file] rest s s1 s' tr1 tr2 H1 H2 Hnd).
        intros f Hf. exists p. split; [exact Hp|]. apply Hfiles. exact Hf.
    + simpl in Hfin. injection Hfin as <-.
      destruct (PrecompileFile_fresh pkg file s s1 Hpkg Howner) as [tr1 H1];
        [rewrite Hcall; reflexivity|].
      exists tr1. destruct H1 as [Ha Hb Hc Hd]. constructor; try assumption.
      intros f Hf. destruct (Hd f Hf) as [[<- | []] | Hq]; [left; left; reflexivity|].
      right. exact Hq.
Qed.

Lemma PrecompilePkg_fresh (fuel : nat) :
  freshCall E (PrecompilePkg E flags fuel).
Proof.
  induction fuel as [|fuel IH]; intros pkgPath s s' Hfin; [discriminate Hfin|].
  cbn [PrecompilePkg] in Hfin. unfold IsPrecompiled in Hfin.
  cbn [emit Precompiled] in Hfin.
  set (s1 := emit (EvEnterPkg pkgPath) s) in *.
  assert (H1 : freshFiles E [] s s1 [EvEnterPkg pkgPath]).
  { apply (fresh_quiet [] s s [] (EvEnterPkg pkgPath) eq_refl). apply fresh_nothing. }
  destruct (bool_decide (pkgPath ∈ Precompiled s)) eqn:Hmarked.
  - simpl in Hfin. injection Hfin as <-.
    exact (ex_intro _ _ (fresh_quiet [] s s1 _ (EvSkipPkg pkgPath) eq_refl H1)).
  - apply bool_decide_eq_false in Hmarked.
    set (s2 := emit (EvTranslatePkg pkgPath) (MarkAsPrecompiled pkgPath s1)) in *.
    assert (H2 : freshFiles E [] s s2 [EvEnterPkg pkgPath; EvTranslatePkg pkgPath]).
    { constructor; simpl.
      - rewrite <- List.app_assoc. reflexivity.
      - set_solver.
      - constructor.
      - intros f []. }
    destruct (Glob E (Join E pkgPath "*.gno")) as [err|files] eqn:Hglob.
    + simpl in Hfin. injection Hfin as <-. exact (ex_intro _ _ H2).
    + destruct (eachFile_fresh (PrecompilePkg E flags fuel) pkgPath files s2 s' IH)
        as [tr [Ha Hb Hc Hd]].
      * simpl. set_solver.
      * intros f Hf. exists files. split; assumption.
      * exact (proj1 Hunique pkgPath files Hglob).
      * exact Hfin.
      * exists ([EvEnterPkg pkgPath; EvTranslatePkg pkgPath] ++ tr). constructor.
        -- rewrite Ha. destruct H2 as [Ht _ _ _]. rewrite Ht, List.app_assoc.
           reflexivity.
        -- destruct H2 as [_ Hs _ _]. set_solver.
        -- rewrite filesOf_app. exact Hc.
        -- intros f Hf. rewrite filesOf_app in Hf. simpl in Hf. right.
           destruct (Hd f Hf) as [Hown | [q [Hq [Hq' Hg]]]].
           ++ exists pkgPath. split; [apply Hb; simpl; set_solver|].
              split; [exact Hmarked|]. exists files. split; assumption.
           ++ exists q. split; [exact Hq|]. split; [|exact Hg].
              intros Hin. apply Hq'. simpl. set_solver.
Qed.

End Fresh.
End FileFacts.

(** * Properties of the pipeline *)

Section FilenameDerivation.
Import GoStrings Filepath StringFacts PathFacts.

Lemma kindOf_Base (p : string) :
  HasSuffix p ".gno" = true ->
  kindOf p =
    (if HasSuffix (Base p) "_filetest.gno" then FileTest
     else if HasSuffix (Base p) "_test.gno" then Test
     else Implementation).
Proof.
  intros Hp. unfold kindOf.
  rewrite !(HasSuffix_Base p _ Hp) by reflexivity. reflexivity.
Qed.

(** Prefixing a base name with a dot keeps a suffix it has. *)
Lemma dotted_suffix (b x : string) :
  HasSuffix b x = true -> HasSuffix ("." +:+ b) x = true.
Proof.
  intros H. apply HasSuffix_iff in H as [t ->].
  rewrite <- app_assoc. apply HasSuffix_app.
Qed.

Lemma tails_differ (a b : string) :
  a +:+ ".gno.gen_test.go" <> b +:+ ".gno.gen.go".
Proof.
  intros H. apply (f_equal rev) in H. rewrite !rev_app in H.
  change (rev ".gno.gen_test.go") with "og.tset_neg.ong." in H.
  change (rev ".gno.gen.go") with "og.neg.ong." in H.
  rewrite !app_cons in H. discriminate H.
Qed.

(** Two kinds give the same generated name only if the implementation
    name is the dotted test name, and then both files have the suffix of
    the test kind. *)
Lemma dotted_same_kind (p q : string) :
  HasSuffix p ".gno" = true -> HasSuffix q ".gno" = true ->
  nameNoExtension p = "." +:+ nameNoExtension q ->
  kindOf q <> Implementation -> kindOf p <> Implementation.
Proof.
  intros Hp Hq Hname.
  assert (Hb : Base p = "." +:+ Base q).
  { rewrite (Base_name p Hp), (Base_name q Hq).
    fold (nameNoExtension p) (nameNoExtension q).
    rewrite Hname, app_assoc. reflexivity. }
  rewrite (kindOf_Base p Hp), (kindOf_Base q Hq), Hb.
  destruct (HasSuffix (Base q) "_filetest.gno") eqn:H1.
  - rewrite (dotted_suffix _ _ H1). intros _ H. discriminate H.
  - destruct (HasSuffix (Base q) "_test.gno") eqn:H2; [|intros H; congruence].
    rewrite (dotted_suffix _ _ H2).
    intros _. destruct (HasSuffix ("." +:+ Base q) "_filetest.gno"); intros H; discriminate H.
Qed.

Lemma same_name_same_kind (p q : string) :
  HasSuffix p ".gno" = true -> HasSuffix q ".gno" = true ->
  nameNoExtension p = nameNoExtension q -> kindOf p = kindOf q.
Proof.
  intros Hp Hq Hname.
  assert (Hb : Base p = Base q).
  { rewrite (Base_name p Hp), (Base_name q Hq).
    fold (nameNoExtension p) (nameNoExtension q). rewrite Hname. reflexivity. }
  rewrite (kindOf_Base p Hp), (kindOf_Base q Hq), Hb. reflexivity.
Qed.

Lemma precompile_name (p : string) :
  fst (precompile.GetPrecompileFilenameAndTags p) =
    match kindOf p with
    | FileTest => "." +:+ nameNoExtension p +:+ ".gno.gen.go"
    | Test => "." +:+ nameNoExtension p +:+ ".gno.gen_test.go"
    | Implementation => nameNoExtension p +:+ ".gno.gen.go"
    end.
Proof.
  unfold precompile.GetPrecompileFilenameAndTags, kindOf, nameNoExtension.
  destruct (HasSuffix p "_filetest.gno"); [reflexivity|].
  destruct (HasSuffix p "_test.gno"); reflexivity.
Qed.

Lemma gnolang_name (p : string) (isPureGo : bool) :
  fst (gnolang.GetPrecompileFilenameAndTags p isPureGo) =
    if isPureGo then
      match kindOf p with
      | Implementation => nameNoExtension p +:+ ".go"
      | _ => "." +:+ nameNoExtension p +:+ ".go"
      end
    else fst (precompile.GetPrecompileFilenameAndTags p).
Proof.
  unfold gnolang.GetPrecompileFilenameAndTags,
    precompile.GetPrecompileFilenameAndTags, kindOf, nameNoExtension.
  destruct (HasSuffix p "_filetest.gno"); [destruct isPureGo; reflexivity|].
  destruct (HasSuffix p "_test.gno"); destruct isPureGo; reflexivity.
Qed.

Lemma precompile_names_differ (p q : string) :
  HasSuffix p ".gno" = true -> HasSuffix q ".gno" = true ->
  kindOf p <> kindOf q ->
  fst (precompile.GetPrecompileFilenameAndTags p)
  <> fst (precompile.GetPrecompileFilenameAndTags q).
Proof.
  intros Hp Hq Hk Heq.
  pose proof (dotted_same_kind p q Hp Hq) as Hpq.
  pose proof (dotted_same_kind q p Hq Hp) as Hqp.
  rewrite !precompile_name in Heq.
  destruct (kindOf p) eqn:Kp, (kindOf q) eqn:Kq; try congruence;
    rewrite <- ?(app_assoc ".") in Heq.
  - exact (tails_differ _ _ (eq_sym Heq)).
  - apply app_inv_tail in Heq. apply Hpq; [exact Heq | discriminate | reflexivity].
  - exact (tails_differ _ _ Heq).
  - exact (tails_differ _ _ Heq).
  - apply app_inv_tail in Heq.
    apply Hqp; [symmetry; exact Heq | discriminate | reflexivity].
  - exact (tails_differ _ _ (eq_sym Heq)).
Qed.

Lemma pure_names_differ (p q : string) :
  HasSuffix p ".gno" = true -> HasSuffix q ".gno" = true ->
  kindOf p <> kindOf q ->
  fst (gnolang.GetPrecompileFilenameAndTags p true)
  <> fst (gnolang.GetPrecompileFilenameAndTags q true).
Proof.
  intros Hp Hq Hk Heq.
  pose proof (dotted_same_kind p q Hp Hq) as Hpq.
  pose proof (dotted_same_kind q p Hq Hp) as Hqp.
  pose proof (same_name_same_kind p q Hp Hq) as Hsame.
  rewrite !gnolang_name in Heq.
  destruct (kindOf p) eqn:Kp, (kindOf q) eqn:Kq; try congruence;
    rewrite <- ?(app_assoc ".") in Heq; apply app_inv_tail in Heq;
    try (apply Hpq; [exact Heq | discriminate | reflexivity]);
    try (apply Hqp; [symmetry; exact Heq | discriminate | reflexivity]);
    try (apply app_inv_head in Heq; specialize (Hsame Heq); discriminate Hsame).
Qed.

End FilenameDerivation.

(** C9.  The generated file name and the build tags are a function of the
    name of the module without its extension and of its kind alone, in both
    packages; and modules, files named [*.gno], of two different kinds never
    get the same generated file name. *)
Theorem filename_derivation :
  (forall p q : string,
      nameNoExtension p = nameNoExtension q -> kindOf p = kindOf q ->
      precompile.GetPrecompileFilenameAndTags p
      = precompile.GetPrecompileFilenameAndTags q
      /\ forall isPureGo,
          gnolang.GetPrecompileFilenameAndTags p isPureGo
          = gnolang.GetPrecompileFilenameAndTags q isPureGo)
  /\ (forall p q : string,
      GoStrings.HasSuffix p ".gno" = true ->
      GoStrings.HasSuffix q ".gno" = true ->
      kindOf p <> kindOf q ->
      fst (precompile.GetPrecompileFilenameAndTags p)
      <> fst (precompile.GetPrecompileFilenameAndTags q)
      /\ forall isPureGo,
          fst (gnolang.GetPrecompileFilenameAndTags p isPureGo)
          <> fst (gnolang.GetPrecompileFilenameAndTags q isPureGo)).
Proof.
  split.
  - intros p q Hname Hkind.
    unfold precompile.GetPrecompileFilenameAndTags,
      gnolang.GetPrecompileFilenameAndTags, kindOf, nameNoExtension in *.
    rewrite Hname.
    destruct (GoStrings.HasSuffix p "_filetest.gno"),
      (GoStrings.HasSuffix p "_test.gno"),
      (GoStrings.HasSuffix q "_filetest.gno"),
      (GoStrings.HasSuffix q "_test.gno");
      try discriminate Hkind; split; reflexivity.
  - intros p q Hp Hq Hk. split.
    + apply precompile_names_differ; assumption.
    + intros [|].
      * apply pure_names_differ; assumption.
      * rewrite !gnolang_name. apply precompile_names_differ; assumption.
Qed.

Lemma filename_derivation_witness :
  (precompile.GetPrecompileFilenameAndTags "a/foo.gno"
   = precompile.GetPrecompileFilenameAndTags "b/foo.gno")
  /\ fst (precompile.GetPrecompileFilenameAndTags "a/foo_test.gno")
     <> fst (precompile.GetPrecompileFilenameAndTags "a/foo_filetest.gno").
Proof.
  split.
  - apply (proj1 filename_derivation "a/foo.gno" "b/foo.gno"); reflexivity.
  - apply (proj2 filename_derivation "a/foo_test.gno" "a/foo_filetest.gno");
      [reflexivity | reflexivity | vm_compute; discriminate].
Defined.

Section DiagnosticNormalization.
Import GoStrings StringFacts SplitFacts.

(** The text after the entry file name has no room for another one before
    the identifier starts: neither entry name begins inside
    [":12: undefined: "]. *)
Lemma undefined_no_entry (X sep : string) :
  sep = "main.gno.gen.go" \/ sep = "main.go" ->
  Contains X sep = false ->
  Index (":12: undefined: " +:+ X) sep = None.
Proof.
  intros Hsep HX. apply Contains_false in HX.
  destruct Hsep as [-> | ->]; rewrite !app_cons, app_nil_l;
    cbn [Index HasPrefix Ascii.eqb Bool.eqb]; rewrite HX; reflexivity.
Qed.

Lemma normalize_hit (sep input path pre rest : string) :
  sep <> EmptyString ->
  TrimSpace input = pre +:+ sep +:+ rest ->
  Index (TrimSpace input) sep = Some (String.length pre) ->
  Index rest sep = None ->
  match Split (TrimSpace input) sep with
  | _ :: part1 :: _ => path +:+ part1
  | _ => TrimSpace input
  end = path +:+ rest.
Proof.
  intros Hsep Hin Hi Hr. rewrite Hin in *.
  rewrite (Split_first _ _ _ Hsep Hi Hr). reflexivity.
Qed.

Lemma normalize_miss (sep input path : string) :
  Contains input sep = false ->
  match Split (TrimSpace input) sep with
  | _ :: part1 :: _ => path +:+ part1
  | _ => TrimSpace input
  end = TrimSpace input.
Proof.
  intros H. rewrite (Split_none _ _ (TrimSpace_no_occurrence _ _ H)). reflexivity.
Qed.

Lemma parseResult_fst (input path : string) :
  fst (precompile.parseResult input path) =
    match Split (TrimSpace input) "main.gno.gen.go" with
    | _ :: part1 :: _ => path +:+ part1
    | _ => TrimSpace input
    end.
Proof.
  unfold precompile.parseResult.
  destruct (Split (TrimSpace input) "main.gno.gen.go") as [|? [|? ?]]; reflexivity.
Qed.

Lemma identifyCommandLineArguments_fst (input path : string) :
  fst (gnolang.identifyCommandLineArguments input path) =
    match Split (TrimSpace input) "main.go" with
    | _ :: part1 :: _ => path +:+ part1
    | _ => TrimSpace input
    end.
Proof.
  unfold gnolang.identifyCommandLineArguments.
  destruct (Split (TrimSpace input) "main.go") as [|? [|? ?]]; reflexivity.
Qed.

End DiagnosticNormalization.

(** C6, as amended.  The captured text is trimmed of surrounding white
    space first.  If what is left reads, from the first occurrence of the
    entry file name on, as that name followed by [:12: undefined: X], the
    normalized text is exactly the logical path followed by
    [:12: undefined: X]; a text that does not contain the entry file name is
    returned trimmed.  This holds for [parseResult], whose entry file is
    [main.gno.gen.go], and for [identifyCommandLineArguments], whose entry
    file is [main.go]. *)
Theorem diagnostic_normalization :
  (forall input path pre X : string,
      GoStrings.TrimSpace input
      = pre +:+ "main.gno.gen.go" +:+ ":12: undefined: " +:+ X ->
      GoStrings.Index (GoStrings.TrimSpace input) "main.gno.gen.go"
      = Some (String.length pre) ->
      GoStrings.Contains X "main.gno.gen.go" = false ->
      fst (precompile.parseResult input path) = path +:+ ":12: undefined: " +:+ X)
  /\ (forall input path pre X : string,
      GoStrings.TrimSpace input = pre +:+ "main.go" +:+ ":12: undefined: " +:+ X ->
      GoStrings.Index (GoStrings.TrimSpace input) "main.go"
      = Some (String.length pre) ->
      GoStrings.Contains X "main.go" = false ->
      fst (gnolang.identifyCommandLineArguments input path)
      = path +:+ ":12: undefined: " +:+ X)
  /\ (forall input path : string,
      GoStrings.Contains input "main.gno.gen.go" = false ->
      fst (precompile.parseResult input path) = GoStrings.TrimSpace input)
  /\ (forall input path : string,
      GoStrings.Contains input "main.go" = false ->
      fst (gnolang.identifyCommandLineArguments input path)
      = GoStrings.TrimSpace input).
Proof.
  split; [|split; [|split]].
  - intros input path pre X Hin Hi HX. rewrite parseResult_fst.
    apply (normalize_hit _ _ _ pre); [discriminate | exact Hin | exact Hi |].
    apply undefined_no_entry; auto.
  - intros input path pre X Hin Hi HX. rewrite identifyCommandLineArguments_fst.
    apply (normalize_hit _ _ _ pre); [discriminate | exact Hin | exact Hi |].
    apply undefined_no_entry; auto.
  - intros input path H. rewrite parseResult_fst. apply normalize_miss. exact H.
  - intros input path H. rewrite identifyCommandLineArguments_fst.
    apply normalize_miss. exact H.
Qed.

Lemma diagnostic_normalization_witness :
  fst (precompile.parseResult
         ("# command-line-arguments" +:+ nl
          +:+ "./main.gno.gen.go:12: undefined: X" +:+ nl)
         "gno.land/r/demo/main.gno")
  = "gno.land/r/demo/main.gno:12: undefined: X"
  /\ fst (gnolang.identifyCommandLineArguments
            ("./main.go:12: undefined: X" +:+ nl) "files/a.gno")
     = "files/a.gno:12: undefined: X"
  /\ fst (precompile.parseResult ("hello" +:+ nl) "p.gno") = "hello"
  /\ fst (gnolang.identifyCommandLineArguments ("hello" +:+ nl) "p.gno") = "hello".
Proof.
  destruct diagnostic_normalization as [H1 [H2 [H3 H4]]].
  split; [|split; [|split]].
  - rewrite (H1 _ _ ("# command-line-arguments" +:+ nl +:+ "./") "X");
      reflexivity.
  - rewrite (H2 _ _ "./" "X"); reflexivity.
  - rewrite H3; reflexivity.
  - rewrite H4; reflexivity.
Defined.

(** C6 as stated fails.  A text without the entry file name is not
    returned unmodified when white space surrounds it; and of a text with two
    diagnostics, the second of which is the entry file name followed by
    [:12: undefined: X], the normalized form is the logical path followed by
    what stands between the first two occurrences of the entry file name. *)
Lemma normalization_trims_plain_output :
  (GoStrings.Contains ("hello" +:+ nl) "main.gno.gen.go" = false
   /\ GoStrings.Contains ("hello" +:+ nl) "main.go" = false
   /\ fst (precompile.parseResult ("hello" +:+ nl) "p.gno") <> "hello" +:+ nl
   /\ fst (gnolang.identifyCommandLineArguments ("hello" +:+ nl) "p.gno")
      <> "hello" +:+ nl)
  /\ (fst (precompile.parseResult
             ("./main.gno.gen.go:5:2: x declared and not used" +:+ nl
              +:+ "./main.gno.gen.go:12: undefined: X")
             "p.gno")
      = "p.gno:5:2: x declared and not used" +:+ nl +:+ "./"
      /\ fst (precompile.parseResult
                ("./main.gno.gen.go:5:2: x declared and not used" +:+ nl
                 +:+ "./main.gno.gen.go:12: undefined: X")
                "p.gno")
         <> "p.gno:12: undefined: X").
Proof.
  split.
  - split; [reflexivity|]. split; [reflexivity|].
    split; vm_compute; discriminate.
  - split; [reflexivity | vm_compute; discriminate].
Qed.

Section Translate.
Import GoStrings StringFacts TranslateFacts precompile.

Lemma Precompile_parsed (E : Env) (source tags filename : string) (f : File) :
  ParseFile E filename source = inr f ->
  Precompile E source tags filename =
    let '(transformed, err) := precompileAST E f (negb (isTestFile filename)) in
    match err with
    | Some err => (None, Some (Errorf_w EmptyString err))
    | None =>
        (Some (mkResult
                 (Imports transformed)
                 ((if String.eqb tags "no_header" then EmptyString
                   else generatedHeader
                        +:+ (if String.eqb tags EmptyString then EmptyString
                             else "//go:build " +:+ tags +:+ nl +:+ nl))
                  +:+ fst (format_Node E transformed))),
         None)
    end.
Proof.
  intros Hparse. unfold Precompile. rewrite Hparse.
  fold (isTestFile filename).
  destruct (precompileAST E f (negb (isTestFile filename))) as [transformed [err|]];
    [reflexivity|].
  destruct (format_Node E transformed) as [written e]. reflexivity.
Qed.

Lemma unlisted_imports_outcome (E : Env) (f : File) (check : bool) :
  parsedShape f ->
  Forall (fun importSpec => whitelisted (trimmedPath importSpec) = false) (Imports f) ->
  precompileAST E f check
  = (f, if check then fold_left (checkWhitelist E) (Imports f) None else None).
Proof.
  intros Hshape Hall.
  rewrite (precompileAST_parsed E f check Hshape). apply rewrite_nothing. exact Hall.
Qed.

End Translate.

(** C1, as amended.  When the import-policy pass of a parsed module gives
    a non-nil aggregate error, [Precompile] returns that error, wrapped, and
    a nil result: no text is generated and none is returned. *)
Theorem Precompile_policy_error_gives_no_result :
  forall (E : Env) (source tags filename : string) (f : File) (errs : error),
    ParseFile E filename source = inr f ->
    snd (precompile.precompileAST E f (negb (isTestFile filename))) = Some errs ->
    precompile.Precompile E source tags filename
    = (None, Some (Errorf_w EmptyString errs))
    /\ gnolang.Precompile E source tags filename
       = (None, Some (Errorf_w EmptyString errs)).
Proof.
  intros E source tags filename f errs Hparse Herrs.
  unfold gnolang.Precompile. rewrite (Precompile_parsed E _ _ _ f Hparse).
  destruct (precompile.precompileAST E f (negb (isTestFile filename))) as [g e].
  simpl in Herrs. subst e. split; reflexivity.
Qed.

Lemma Precompile_policy_error_gives_no_result_witness :
  precompile.Precompile (Demo.world Demo.pkgTree Demo.printer)
    (Demo.sourceOf Demo.b_gno) "gno" "pkg/b.gno"
  = (None,
     Some (Errorf_w EmptyString
             (errorString ("import " +:+ Demo.quoted "os"
                           +:+ " is not in the whitelist")))).
Proof.
  apply (Precompile_policy_error_gives_no_result
           (Demo.world Demo.pkgTree Demo.printer) _ "gno" "pkg/b.gno"
           (Demo.treeOf Demo.b_gno));
    reflexivity.
Defined.

(** C1 as stated fails: the module [pkg/b.gno], which imports [os], has a
    policy error, and [Precompile] returns no generated text for it. *)
Lemma Precompile_policy_error_counterexample :
  snd (precompile.precompileAST (Demo.world Demo.pkgTree Demo.printer)
         (Demo.treeOf Demo.b_gno) true) <> None
  /\ fst (precompile.Precompile (Demo.world Demo.pkgTree Demo.printer)
            (Demo.sourceOf Demo.b_gno) "gno" "pkg/b.gno") = None
  /\ fst (gnolang.Precompile (Demo.world Demo.pkgTree Demo.printer)
            (Demo.sourceOf Demo.b_gno) "gno" "pkg/b.gno") = None.
Proof.
  split; [vm_compute; discriminate|]. split; reflexivity.
Qed.

(** C2 fails on the code.  With a printer that reports an error after it
    wrote the package clause, [Precompile] returns a result and a nil error,
    and the result holds the header and the partial text. *)
Theorem Precompile_drops_printer_error :
  Demo.brokenPrinter (Demo.treeOf Demo.avl)
  = ("package avl", Some (errorString "format.Node internal error"))
  /\ precompile.Precompile (Demo.world Demo.pkgTree Demo.brokenPrinter)
       (Demo.sourceOf Demo.avl) "gno" "avl.gno"
     = (Some (mkResult []
                (precompile.generatedHeader +:+ "//go:build gno" +:+ nl +:+ nl
                 +:+ "package avl")),
        None)
  /\ gnolang.Precompile (Demo.world Demo.pkgTree Demo.brokenPrinter)
       (Demo.sourceOf Demo.avl) "gno" "avl.gno"
     = (Some (mkResult []
                (precompile.generatedHeader +:+ "//go:build gno" +:+ nl +:+ nl
                 +:+ "package avl")),
        None).
Proof. split; [reflexivity|]. split; reflexivity. Qed.

(** Whatever the module and the printer: the error of the printer never
    reaches the caller. *)
Lemma Precompile_result_has_no_error (E : Env) (source tags filename : string)
      (res : precompileResult) :
  fst (precompile.Precompile E source tags filename) = Some res ->
  snd (precompile.Precompile E source tags filename) = None.
Proof.
  unfold precompile.Precompile.
  destruct (ParseFile E filename source) as [err|f]; [discriminate|].
  destruct (precompile.precompileAST E f _) as [g [e|]]; [discriminate|].
  destruct (format_Node E g). reflexivity.
Qed.



Section ResultImports.
Import GoStrings StringFacts TranslateFacts RewriteFacts precompile.

Lemma eachImport_recordCall (paths : list ImportPath) (s : State) :
  eachImport recordCall paths s
  = Returns tt (mkState (Precompiled s) (trace s ++ List.map EvEnterPkg paths)).
Proof.
  revert s. induction paths as [|p paths IH]; intros s.
  - simpl. rewrite List.app_nil_r. destruct s; reflexivity.
  - simpl. rewrite IH. unfold emit. cbn [Precompiled trace].
    rewrite <- List.app_assoc. reflexivity.
Qed.

Lemma rewritten_meaning (E : Env) (o : ImportSpec) :
  Name (rewritten E o) = Name o
  /\ (trimmedPath o = GnoStdPkgBefore ->
      Path_Value (rewritten E o) = Quote E GnoStdPkgAfter)
  /\ (HasPrefix (trimmedPath o) GnoPackagePrefixBefore = true ->
      Path_Value (rewritten E o)
      = Quote E (GnoPackagePrefixAfter
                 +:+ TrimPrefix (trimmedPath o) GnoPackagePrefixBefore))
  /\ (HasPrefix (trimmedPath o) GnoRealmPkgsPrefixBefore = true ->
      Path_Value (rewritten E o)
      = Quote E (GnoRealmPkgsPrefixAfter
                 +:+ TrimPrefix (trimmedPath o) GnoRealmPkgsPrefixBefore))
  /\ (target (trimmedPath o) = None -> rewritten E o = o).
Proof.
  unfold rewritten, target.
  destruct (String.eqb (trimmedPath o) GnoStdPkgBefore) eqn:Hstd.
  - destruct (std_no_prefix _ Hstd) as [H1 H2]. rewrite H1, H2.
    repeat split; try reflexivity; discriminate.
  - apply String.eqb_neq in Hstd.
    destruct (HasPrefix (trimmedPath o) GnoPackagePrefixBefore) eqn:Hpkg.
    + rewrite (package_not_realm _ Hpkg).
      repeat split; try reflexivity; try discriminate. intros H. contradiction.
    + destruct (HasPrefix (trimmedPath o) GnoRealmPkgsPrefixBefore);
        repeat split; try reflexivity; try discriminate; intros H; contradiction.
Qed.

Lemma Precompile_imports (E : Env) (source tags filename : string) (f : File)
      (res : precompileResult) :
  ParseFile E filename source = inr f ->
  parsedShape f ->
  Forall (plainSpec E) (Imports f) ->
  Precompile E source tags filename = (Some res, None) ->
  res_Imports res = List.map (rewritten E) (Imports f).
Proof.
  intros Hparse Hshape Hplain Hres.
  rewrite (Precompile_parsed E _ _ _ f Hparse) in Hres.
  destruct (precompileAST_rewrites E f (negb (isTestFile filename)) Hshape Hplain)
    as [Himports _].
  destruct (precompileAST E f (negb (isTestFile filename))) as [g [e|]];
    [discriminate Hres|].
  injection Hres as <-. exact Himports.
Qed.

Lemma PrecompileFile_hands_rewritten (E : Env) (flags : PrecompileCfg)
      (srcPath source : string) (f : File) (s s' : State) :
  ReadFile E srcPath = inr source ->
  ParseFile E srcPath source = inr f ->
  parsedShape f ->
  Forall (plainSpec E) (Imports f) ->
  SkipImports flags = false ->
  PrecompileFile_ E flags recordCall srcPath s = Returns None s' ->
  exists targetPath text,
    trace s'
    = trace s
      ++ EvFile srcPath :: EvWrite targetPath text
         :: List.map EvEnterPkg
              (getPathsFromImportSpec E (List.map (rewritten E) (Imports f))).
Proof.
  intros Hread Hparse Hshape Hplain Hskip Hrun.
  unfold PrecompileFile_ in Hrun. rewrite Hread, Hskip in Hrun.
  destruct (GetPrecompileFilenameAndTags srcPath) as [targetFilename tags].
  destruct (Precompile E source tags srcPath) as [[res|] [err|]] eqn:Hres;
    try discriminate Hrun.
  rewrite (Precompile_imports E _ _ _ f res Hparse Hshape Hplain Hres) in Hrun.
  match type of Hrun with
  | match ?t with inl _ => _ | inr _ => _ end = _ =>
      destruct t as [err|targetPath]; [discriminate Hrun|]
  end.
  destruct (writeDirFile E targetPath (Translated res)); [discriminate Hrun|].
  match type of Hrun with
  | match ?t with Some _ => _ | None => _ end = _ =>
      destruct t; [discriminate Hrun|]
  end.
  rewrite eachImport_recordCall in Hrun. injection Hrun as <-.
  exists targetPath, (Translated res). cbn [trace emit].
  rewrite <- !List.app_assoc. reflexivity.
Qed.

End ResultImports.

(** C10.  For a parsed module whose import literals are plain and that
    [Precompile] translates, the import list of the result is the list of
    import nodes after the rewrite, not as written: a node keeps its place
    and its local name; [std] reads as the shim path, a path under
    [gno.land/p/demo/] or [gno.land/r/] reads as its location under the
    examples of the repository, and any other import is as written.  These
    rewritten nodes are what [PrecompileFile] hands to the package
    resolver. *)
Theorem result_reports_rewritten_imports :
  forall (E : Env) (source tags filename : string) (f : File) (res : precompileResult),
    ParseFile E filename source = inr f ->
    parsedShape f ->
    Forall (plainSpec E) (Imports f) ->
    precompile.Precompile E source tags filename = (Some res, None) ->
    res_Imports res = List.map (rewritten E) (Imports f)
    /\ (forall (i : nat) (importSpec : ImportSpec),
           nth_error (Imports f) i = Some importSpec ->
           exists reported,
             nth_error (res_Imports res) i = Some reported
             /\ Name reported = Name importSpec
             /\ (precompile.trimmedPath importSpec = precompile.GnoStdPkgBefore ->
                 Path_Value reported = Quote E precompile.GnoStdPkgAfter)
             /\ (GoStrings.HasPrefix (precompile.trimmedPath importSpec)
                                     precompile.GnoPackagePrefixBefore = true ->
                 Path_Value reported
                 = Quote E (precompile.GnoPackagePrefixAfter
                            +:+ GoStrings.TrimPrefix
                                  (precompile.trimmedPath importSpec)
                                  precompile.GnoPackagePrefixBefore))
             /\ (GoStrings.HasPrefix (precompile.trimmedPath importSpec)
                                     precompile.GnoRealmPkgsPrefixBefore = true ->
                 Path_Value reported
                 = Quote E (precompile.GnoRealmPkgsPrefixAfter
                            +:+ GoStrings.TrimPrefix
                                  (precompile.trimmedPath importSpec)
                                  precompile.GnoRealmPkgsPrefixBefore))
             /\ (target (precompile.trimmedPath importSpec) = None ->
                 reported = importSpec))
    /\ (forall (flags : PrecompileCfg) (s s' : State),
           ReadFile E filename = inr source ->
           SkipImports flags = false ->
           precompile.PrecompileFile_ E flags recordCall filename s
           = precompile.Returns None s' ->
           exists targetPath text,
             trace s'
             = trace s
               ++ EvFile filename :: EvWrite targetPath text
                  :: List.map EvEnterPkg (getPathsFromImportSpec E (res_Imports res))).
Proof.
  intros E source tags filename f res Hparse Hshape Hplain Hres.
  pose proof (Precompile_imports E _ _ _ f res Hparse Hshape Hplain Hres) as Himports.
  split; [exact Himports|]. split.
  - intros i importSpec Hi. exists (rewritten E importSpec). split.
    + rewrite Himports, nth_error_map, Hi. reflexivity.
    + apply rewritten_meaning.
  - intros flags s s' Hread Hskip Hrun. rewrite Himports.
    exact (PrecompileFile_hands_rewritten E flags filename source f s s'
             Hread Hparse Hshape Hplain Hskip Hrun).
Qed.

Lemma result_reports_rewritten_imports_witness :
  res_Imports Demo.rightResult
  = [ mkImportSpec None
        (Demo.quoted "github.com/gnolang/gno/examples/gno.land/p/demo/shared");
      mkImportSpec None
        (Demo.quoted "github.com/gnolang/gno/gnovm/stdlibs/stdshim") ].
Proof.
  rewrite (proj1 (result_reports_rewritten_imports
                    (Demo.world Demo.diamondTree Demo.printer)
                    (Demo.sourceOf Demo.right) "gno" "root/right.gno"
                    (Demo.treeOf Demo.right) Demo.rightResult
                    eq_refl eq_refl ltac:(repeat constructor) eq_refl)).
  reflexivity.
Defined.

Section AtMostOnce.
Import precompile RunFacts CheckFacts StringFacts.

Lemma NoDup_map_filter {A B : Type} (g : A -> B) (keep : A -> bool) (l : list A) :
  List.NoDup (List.map g l) -> List.NoDup (List.map g (List.filter keep l)).
Proof.
  induction l as [|a l IH]; intros Hnd; [constructor|].
  simpl in Hnd. apply List.NoDup_cons_iff in Hnd as [Ha Hnd]. simpl.
  destruct (keep a); [|apply IH; exact Hnd].
  simpl. constructor; [|apply IH; exact Hnd].
  intros Hin. apply Ha. apply List.in_map_iff in Hin as [x [Hx Hin]].
  apply List.in_map_iff. exists x. split; [exact Hx|].
  apply List.filter_In in Hin as [Hin _]. exact Hin.
Qed.

(** In the demonstration world a package lists the modules of the tree
    that lie in its directory. *)
Lemma demo_uniqueFiles (tree : list Demo.Module_)
      (printer : File -> string * option error) :
  List.NoDup (List.map Demo.m_path tree) -> uniqueFiles (Demo.world tree printer).
Proof.
  intros Hnd.
  assert (Hdir : forall q f, globs (Demo.world tree printer) q f -> q = Demo.dir f).
  { intros q f [files [Hglob Hin]]. cbn [Glob Join Demo.world] in Hglob.
    injection Hglob as <-.
    apply List.in_map_iff in Hin as [m [<- Hin]].
    apply List.filter_In in Hin as [_ Heq].
    apply String.eqb_eq in Heq. unfold Demo.join in Heq.
    apply app_inv_tail in Heq. symmetry. exact Heq. }
  split.
  - intros q files Hglob. cbn [Glob Join Demo.world] in Hglob.
    injection Hglob as <-. apply NoDup_map_filter. exact Hnd.
  - intros q q' f Hq Hq'. rewrite (Hdir q f Hq), (Hdir q' f Hq'). reflexivity.
Qed.

Lemma consistent_translatedOnce (S0 : gset ImportPath) (s : State) :
  consistent S0 s -> translatedOnce S0 (trace s).
Proof.
  intros [Hnd Hmarked Hfresh Hentered]. split; [|split].
  - apply List.NoDup_count_occ. exact Hnd.
  - intros p Hin Hp.
    apply (proj1 (List.NoDup_count_occ' string_dec _) Hnd).
    apply Hentered, Hmarked in Hin as [Hin | Hin]; [contradiction | exact Hin].
  - intros p Hp. apply List.count_occ_not_In. intros Hin.
    exact (Hfresh p Hin Hp).
Qed.

End AtMostOnce.



Section Termination.
Import precompile TerminationFacts StringFacts.

Lemma PrecompilePkg_total (E : Env) (flags : PrecompileCfg) (U : gset ImportPath)
      (fuel : nat) :
  (forall pkgPath file files,
      Glob E (Join E pkgPath "*.gno") = inr (file :: files) -> pkgPath ∈ U) ->
  size U < fuel ->
  endsAbove ∅ (PrecompilePkg E flags fuel).
Proof.
  intros HU Hfuel pkgPath s _. apply (PrecompilePkg_ends E flags U HU).
  assert (size (U ∖ Precompiled s) <= size U) by (apply subseteq_size; set_solver).
  lia.
Qed.

(** In the demonstration world a package has files only if a module of the
    tree lies in its directory. *)
Lemma cycle_packages (pkgPath : ImportPath) (file : string) (files : list string) :
  Glob (Demo.world Demo.cycleTree Demo.printer)
       (Join (Demo.world Demo.cycleTree Demo.printer) pkgPath "*.gno")
  = inr (file :: files) ->
  pkgPath ∈ Demo.cyclePackages.
Proof.
  cbn [Glob Join Demo.world Demo.cycleTree List.filter]. unfold Demo.join.
  intros H.
  destruct (String.eqb (Demo.dir (Demo.m_path Demo.ping) +:+ "/" +:+ "*.gno")
                       (pkgPath +:+ "/" +:+ "*.gno")) eqn:Hping.
  - apply String.eqb_eq, app_inv_tail in Hping. subst pkgPath.
    unfold Demo.cyclePackages. set_solver.
  - destruct (String.eqb (Demo.dir (Demo.m_path Demo.pong) +:+ "/" +:+ "*.gno")
                         (pkgPath +:+ "/" +:+ "*.gno")) eqn:Hpong.
    + apply String.eqb_eq, app_inv_tail in Hpong. subst pkgPath.
      unfold Demo.cyclePackages. set_solver.
    + discriminate H.
Qed.

End Termination.



(** C3 fails on the code.  The package of two modules below is checked the
    way [keyscli] does it: [a.gno] is translated, and with it the package
    [avl] that it imports; [b.gno] imports [os] and is rejected.  The flow
    returns right after the translation loop: the temporary directory is
    removed by the deferred call, [CleanGeneratedFiles] is never called, and
    the file generated in the directory of [avl] stays.  With paths on disk
    instead of a package in memory nothing at all is removed. *)
Theorem check_flow_skips_cleaning_on_translation_error :
  (returned (precompile.PrecompileAndCheckPkg
               (Demo.world Demo.memTree Demo.printer) 3 true Demo.memPkg [] None)
   = Some (Some (errorString "1 precompile errors from addpkg"))
   /\ option_map
        (fun s => (writtenPaths (trace s), cleanedPaths (trace s),
                   removedDirs (trace s), elements (Precompiled s)))
        (precompile.finalState
           (precompile.PrecompileAndCheckPkg
              (Demo.world Demo.memTree Demo.printer) 3 true Demo.memPkg [] None))
      = Some ([ "/work/pkg123/a.gno"; "/work/pkg123/b.gno";
                "/work/pkg123/a.gno.gen.go";
                "examples/gno.land/p/demo/avl/avl.gno.gen.go" ],
              [], [ "/work/pkg123" ], [ "examples/gno.land/p/demo/avl" ]))
  /\ (returned (precompile.PrecompileAndCheckPkg
                  (Demo.world Demo.pkgTree Demo.printer) 3 false
                  (precompile.mkMemPackage EmptyString EmptyString []) [ "pkg" ]
                  (Some Demo.flags))
      = Some (Some (errorString "1 precompile errors from addpkg"))
      /\ option_map
           (fun s => (writtenPaths (trace s), cleanedPaths (trace s),
                      removedDirs (trace s)))
           (precompile.finalState
              (precompile.PrecompileAndCheckPkg
                 (Demo.world Demo.pkgTree Demo.printer) 3 false
                 (precompile.mkMemPackage EmptyString EmptyString []) [ "pkg" ]
                 (Some Demo.flags)))
         = Some ([ "pkg/a.gno.gen.go";
                   "examples/gno.land/p/demo/avl/avl.gno.gen.go" ],
                 [], [])).
Proof. split; split; vm_compute; reflexivity. Qed.

(** When every module translates, the same flow does clean: the source
    paths first, then the packages it marked. *)
Lemma check_flow_cleans_after_build :
  option_map
    (fun s => (writtenPaths (trace s), cleanedPaths (trace s)))
    (precompile.finalState
       (precompile.PrecompileAndCheckPkg
          (Demo.world [Demo.a_gno; Demo.avl] Demo.printer) 3 false
          (precompile.mkMemPackage EmptyString EmptyString []) [ "pkg" ]
          (Some Demo.flags)))
  = Some ([ "pkg/a.gno.gen.go"; "examples/gno.land/p/demo/avl/avl.gno.gen.go" ],
          [ "pkg/a.gno"; "examples/gno.land/p/demo/avl" ]).
Proof. vm_compute. reflexivity. Qed.

(** C4 fails on the code.  The translation of [pkg/b.gno] fails with the
    message that [os] is not in the white list; the error that
    [PrecompileAndCheckPkg] returns is the count alone, and the message of
    the failure is no part of it. *)
Theorem check_flow_reports_count_only :
  option_map (option_map Error)
    (returned (precompile.PrecompileFile (Demo.world Demo.pkgTree Demo.printer)
                 Demo.flags 3 "pkg/b.gno" (mkState ∅ [])))
  = Some (Some ("import " +:+ Demo.quoted "os" +:+ " is not in the whitelist"))
  /\ returned (precompile.PrecompileAndCheckPkg
                 (Demo.world Demo.pkgTree Demo.printer) 3 false
                 (precompile.mkMemPackage EmptyString EmptyString []) [ "pkg" ]
                 (Some Demo.flags))
     = Some (Some (errorString "1 precompile errors from addpkg"))
  /\ Unwrap (errorString "1 precompile errors from addpkg") = None
  /\ GoStrings.Contains (Error (errorString "1 precompile errors from addpkg"))
                        "whitelist" = false.
Proof.
  split; [vm_compute; reflexivity|]. split; [vm_compute; reflexivity|].
  split; reflexivity.
Qed.


(** * More properties of the code *)

(** ** The names of the generated files *)

Section GeneratedNames.
Import GoStrings Filepath StringFacts PathFacts.

Lemma kinds_equal_or_not (a b : Kind) : a = b \/ a <> b.
Proof. destruct a, b; (left; reflexivity) || (right; discriminate). Qed.

Lemma same_artifact_same_name (p q : string) :
  HasSuffix p ".gno" = true -> HasSuffix q ".gno" = true ->
  fst (precompile.GetPrecompileFilenameAndTags p)
  = fst (precompile.GetPrecompileFilenameAndTags q) ->
  nameNoExtension p = nameNoExtension q.
Proof.
  intros Hp Hq Heq.
  destruct (kinds_equal_or_not (kindOf p) (kindOf q)) as [Hk|Hk].
  - rewrite !precompile_name, <- Hk in Heq.
    destruct (kindOf p).
    + apply (app_inv_tail _ _ _ Heq).
    + injection Heq as Heq. rewrite !app_nil_l in Heq. apply (app_inv_tail _ _ _ Heq).
    + injection Heq as Heq. rewrite !app_nil_l in Heq. apply (app_inv_tail _ _ _ Heq).
  - exfalso. apply (precompile_names_differ p q Hp Hq Hk Heq).
Qed.

Lemma same_pure_artifact_same_name (p q : string) :
  HasSuffix p ".gno" = true -> HasSuffix q ".gno" = true ->
  fst (gnolang.GetPrecompileFilenameAndTags p true)
  = fst (gnolang.GetPrecompileFilenameAndTags q true) ->
  nameNoExtension p = nameNoExtension q.
Proof.
  intros Hp Hq Heq.
  destruct (kinds_equal_or_not (kindOf p) (kindOf q)) as [Hk|Hk].
  - rewrite !gnolang_name, <- Hk in Heq.
    destruct (kindOf p).
    + apply (app_inv_tail _ _ _ Heq).
    + injection Heq as Heq. rewrite !app_nil_l in Heq. apply (app_inv_tail _ _ _ Heq).
    + injection Heq as Heq. rewrite !app_nil_l in Heq. apply (app_inv_tail _ _ _ Heq).
  - exfalso. apply (pure_names_differ p q Hp Hq Hk Heq).
Qed.

Lemma same_base_same_artifact (p q : string) (isPureGo : bool) :
  HasSuffix p ".gno" = true -> HasSuffix q ".gno" = true ->
  Base p = Base q ->
  fst (precompile.GetPrecompileFilenameAndTags p)
  = fst (precompile.GetPrecompileFilenameAndTags q)
  /\ fst (gnolang.GetPrecompileFilenameAndTags p isPureGo)
     = fst (gnolang.GetPrecompileFilenameAndTags q isPureGo).
Proof.
  intros Hp Hq Hb.
  assert (Hn : nameNoExtension p = nameNoExtension q)
    by (unfold nameNoExtension; rewrite Hb; reflexivity).
  assert (Hk : kindOf p = kindOf q)
    by (rewrite (kindOf_Base p Hp), (kindOf_Base q Hq), Hb; reflexivity).
  rewrite !gnolang_name, !precompile_name, Hn, Hk. split; reflexivity.
Qed.

Lemma go_not_gno (x : string) :
  HasSuffix (x +:+ ".go") ".go" = true /\ HasSuffix (x +:+ ".go") ".gno" = false.
Proof.
  split; [apply HasSuffix_app|].
  unfold HasSuffix. rewrite rev_app. reflexivity.
Qed.

End GeneratedNames.

(** X1.  Two modules get the same generated file name exactly when they
    have the same base name: within a directory no generated file
    overwrites that of another module, and a module of another directory
    with the same base name gets the same generated name.  This holds for
    [GetPrecompileFilenameAndTags] of package precompile and, with either
    value of [isPureGo], of package gnolang. *)
Theorem generated_name_determined_by_base_name :
  forall p q : string,
    GoStrings.HasSuffix p ".gno" = true ->
    GoStrings.HasSuffix q ".gno" = true ->
    (fst (precompile.GetPrecompileFilenameAndTags p)
     = fst (precompile.GetPrecompileFilenameAndTags q)
     <-> Filepath.Base p = Filepath.Base q)
    /\ forall isPureGo : bool,
        fst (gnolang.GetPrecompileFilenameAndTags p isPureGo)
        = fst (gnolang.GetPrecompileFilenameAndTags q isPureGo)
        <-> Filepath.Base p = Filepath.Base q.
Proof.
  intros p q Hp Hq.
  assert (Hname : nameNoExtension p = nameNoExtension q ->
                  Filepath.Base p = Filepath.Base q).
  { intros Hn. rewrite (PathFacts.Base_name p Hp), (PathFacts.Base_name q Hq).
    unfold nameNoExtension in Hn. rewrite Hn. reflexivity. }
  split; [|intros isPureGo]; split.
  - intros Heq. apply Hname, (same_artifact_same_name p q Hp Hq Heq).
  - intros Hb. apply (same_base_same_artifact p q true Hp Hq Hb).
  - intros Heq. apply Hname. destruct isPureGo.
    + apply (same_pure_artifact_same_name p q Hp Hq Heq).
    + rewrite !gnolang_name in Heq. apply (same_artifact_same_name p q Hp Hq Heq).
  - intros Hb. apply (same_base_same_artifact p q isPureGo Hp Hq Hb).
Qed.

Lemma generated_name_determined_by_base_name_witness :
  (fst (precompile.GetPrecompileFilenameAndTags "a/foo_test.gno")
   = fst (precompile.GetPrecompileFilenameAndTags "b/foo_test.gno")
   <-> Filepath.Base "a/foo_test.gno" = Filepath.Base "b/foo_test.gno")
  /\ (fst (gnolang.GetPrecompileFilenameAndTags "a/foo.gno" true)
      = fst (gnolang.GetPrecompileFilenameAndTags "a/.foo_test.gno" true)
      <-> Filepath.Base "a/foo.gno" = Filepath.Base "a/.foo_test.gno").
Proof.
  split.
  - apply (generated_name_determined_by_base_name "a/foo_test.gno" "b/foo_test.gno");
      reflexivity.
  - apply (generated_name_determined_by_base_name "a/foo.gno" "a/.foo_test.gno");
      reflexivity.
Defined.

(** X2.  A generated file is a Go file and never a module of the dialect:
    whatever the path of the module, the name that
    [GetPrecompileFilenameAndTags] gives ends in [.go] and does not end in
    [.gno], the suffix by which modules are recognised. *)
Theorem generated_name_is_go_file :
  forall (p : string) (isPureGo : bool),
    (GoStrings.HasSuffix (fst (precompile.GetPrecompileFilenameAndTags p)) ".go" = true
     /\ GoStrings.HasSuffix (fst (precompile.GetPrecompileFilenameAndTags p)) ".gno"
        = false)
    /\ (GoStrings.HasSuffix (fst (gnolang.GetPrecompileFilenameAndTags p isPureGo)) ".go"
        = true
        /\ GoStrings.HasSuffix (fst (gnolang.GetPrecompileFilenameAndTags p isPureGo))
             ".gno" = false).
Proof.
  intros p isPureGo.
  assert (Hpre : GoStrings.HasSuffix (fst (precompile.GetPrecompileFilenameAndTags p)) ".go"
                 = true
                 /\ GoStrings.HasSuffix
                      (fst (precompile.GetPrecompileFilenameAndTags p)) ".gno" = false).
  { rewrite precompile_name. destruct (kindOf p).
    - rewrite <- (StringFacts.app_assoc _ ".gno.gen" ".go"). apply go_not_gno.
    - rewrite <- (StringFacts.app_assoc _ ".gno.gen_test" ".go"),
        <- (StringFacts.app_assoc "." _ ".go").
      apply go_not_gno.
    - rewrite <- (StringFacts.app_assoc _ ".gno.gen" ".go"),
        <- (StringFacts.app_assoc "." _ ".go").
      apply go_not_gno. }
  split; [exact Hpre|].
  rewrite gnolang_name. destruct isPureGo; [|exact Hpre].
  destruct (kindOf p).
  - apply go_not_gno.
  - rewrite <- (StringFacts.app_assoc "." _ ".go"). apply go_not_gno.
  - rewrite <- (StringFacts.app_assoc "." _ ".go"). apply go_not_gno.
Qed.

(** ** The files that are built *)

Section BuildFilter.
Import GoStrings Filepath StringFacts PathFacts.

Lemma HasPrefix_app_same (t a b : string) :
  HasPrefix (t +:+ a) (t +:+ b) = HasPrefix a b.
Proof.
  induction t as [|c t IH]; [reflexivity|].
  rewrite !app_cons. cbn [HasPrefix]. rewrite Ascii.eqb_refl. exact IH.
Qed.

Lemma HasSuffix_app_same (t a b : string) :
  HasSuffix (a +:+ t) (b +:+ t) = HasSuffix a b.
Proof. unfold HasSuffix. rewrite !rev_app. apply HasPrefix_app_same. Qed.

Lemma untilSlash_app (a b : string) :
  noSlash a = true -> untilSlash (a +:+ "/" +:+ b) = a.
Proof.
  induction a as [|c a IH]; intros Ha; [reflexivity|].
  cbn [noSlash] in Ha. apply andb_prop in Ha as [Hc Ha].
  rewrite app_cons. cbn [untilSlash].
  destruct (isSlash c); [discriminate Hc|].
  rewrite (IH Ha). reflexivity.
Qed.

Lemma noSlash_untilSlash (r : string) : noSlash (untilSlash r) = true.
Proof.
  induction r as [|c r IH]; [reflexivity|].
  cbn [untilSlash]. destruct (isSlash c) eqn:Hc; [reflexivity|].
  cbn [noSlash]. rewrite Hc, IH. reflexivity.
Qed.

Lemma noSlash_Base (p : string) : HasSuffix p ".gno" = true -> noSlash (Base p) = true.
Proof.
  intros Hp. rewrite (Base_gno p Hp), noSlash_rev. apply noSlash_untilSlash.
Qed.

Lemma noSlash_name (p : string) :
  HasSuffix p ".gno" = true -> noSlash (nameNoExtension p) = true.
Proof.
  intros Hp. pose proof (noSlash_Base p Hp) as Hb.
  rewrite (Base_name p Hp), noSlash_app in Hb.
  apply andb_prop in Hb as [Hn _]. exact Hn.
Qed.

Lemma HasSuffix_in_dir (d s x : string) :
  d = EmptyString \/ HasSuffix d "/" = true ->
  noSlash s = true -> noSlash x = true ->
  HasSuffix (d +:+ s) x = HasSuffix s x.
Proof.
  intros [->|Hd] Hs Hx; [rewrite app_nil_l; reflexivity|].
  apply HasSuffix_iff in Hd as [d' ->].
  unfold HasSuffix. rewrite !rev_app.
  change (rev "/") with "/".
  rewrite <- (HasPrefix_untilSlash (rev x) (rev s +:+ "/" +:+ rev d'))
    by (rewrite noSlash_rev; exact Hx).
  rewrite untilSlash_app by (rewrite noSlash_rev; exact Hs).
  reflexivity.
Qed.

Lemma name_suffix (p x : string) :
  HasSuffix p ".gno" = true -> noSlash x = true ->
  HasSuffix (nameNoExtension p) x = HasSuffix p (x +:+ ".gno").
Proof.
  intros Hp Hx.
  rewrite <- (HasSuffix_Base p (x +:+ ".gno") Hp)
    by (rewrite noSlash_app, Hx; reflexivity).
  rewrite (Base_name p Hp). fold (nameNoExtension p).
  rewrite HasSuffix_app_same. reflexivity.
Qed.

Lemma kindOf_suffixes (p : string) :
  HasSuffix p "_filetest.gno" = match kindOf p with FileTest => true | _ => false end
  /\ (kindOf p <> FileTest ->
      HasSuffix p "_test.gno" = match kindOf p with Test => true | _ => false end).
Proof.
  unfold kindOf.
  destruct (HasSuffix p "_filetest.gno"); [split; [reflexivity|]; intros H; congruence|].
  destruct (HasSuffix p "_test.gno"); split; reflexivity.
Qed.

Lemma appendMatch_skips (files : list string) (goMatch : string) :
  HasPrefix goMatch "." = true
  \/ HasSuffix goMatch "_filetest.go" = true
  \/ HasSuffix goMatch "_filetest.gno.gen.go" = true
  \/ HasSuffix goMatch "_test.go" = true
  \/ HasSuffix goMatch "_test.gno.gen.go" = true ->
  precompile_exec.appendMatch files goMatch = files.
Proof.
  unfold precompile_exec.appendMatch.
  intros [H|[H|[H|[H|H]]]]; rewrite H;
    repeat match goal with |- context [if ?c then _ else _] => destruct c end;
    reflexivity.
Qed.

Lemma appendMatch_keeps (files : list string) (goMatch : string) :
  HasPrefix goMatch "." = false ->
  HasSuffix goMatch "_filetest.go" = false ->
  HasSuffix goMatch "_filetest.gno.gen.go" = false ->
  HasSuffix goMatch "_test.go" = false ->
  HasSuffix goMatch "_test.gno.gen.go" = false ->
  precompile_exec.appendMatch files goMatch = files ++ [goMatch].
Proof.
  unfold precompile_exec.appendMatch. intros -> -> -> -> ->. reflexivity.
Qed.

End BuildFilter.

(** X3.  The build step and the naming of generated files fit together.
    Take a module whose name ends in [.gno] and the path of its generated
    file in a directory ([d] is empty or ends in a slash).  The [switch] of
    [PrecompileBuildPackage] skips the generated file of every test and
    file-test module.  It appends the generated file of an implementation
    module, unless the path as a whole begins with a dot: the test for hidden
    files looks at the path that was globbed, not at its base name. *)
Theorem build_keeps_implementation_files_only :
  forall (files : list string) (d p : string),
    GoStrings.HasSuffix p ".gno" = true ->
    d = EmptyString \/ GoStrings.HasSuffix d "/" = true ->
    let generated := d +:+ fst (precompile.GetPrecompileFilenameAndTags p) in
    precompile_exec.appendMatch files generated
    = match kindOf p with
      | Implementation =>
          if GoStrings.HasPrefix generated "." then files else files ++ [generated]
      | _ => files
      end.
Proof.
  intros files d p Hp Hd generated. subst generated.
  rewrite precompile_name.
  pose proof (kindOf_suffixes p) as [Hft Ht].
  pose proof (name_suffix p "_filetest" Hp eq_refl) as Hnft.
  pose proof (name_suffix p "_test" Hp eq_refl) as Hnt.
  change ("_filetest" +:+ ".gno") with "_filetest.gno" in Hnft.
  change ("_test" +:+ ".gno") with "_test.gno" in Hnt.
  pose proof (noSlash_name p Hp) as Hns.
  destruct (kindOf p) eqn:Hk.
  - destruct (GoStrings.HasPrefix (d +:+ nameNoExtension p +:+ ".gno.gen.go") ".") eqn:Hdot.
    + apply appendMatch_skips. left. exact Hdot.
    + apply appendMatch_keeps; [exact Hdot| | | |].
      * rewrite HasSuffix_in_dir;
          [|exact Hd|rewrite PathFacts.noSlash_app, Hns; reflexivity|reflexivity].
        unfold GoStrings.HasSuffix. rewrite StringFacts.rev_app. reflexivity.
      * rewrite HasSuffix_in_dir;
          [|exact Hd|rewrite PathFacts.noSlash_app, Hns; reflexivity|reflexivity].
        change "_filetest.gno.gen.go" with ("_filetest" +:+ ".gno.gen.go").
        rewrite HasSuffix_app_same, Hnft. exact Hft.
      * rewrite HasSuffix_in_dir;
          [|exact Hd|rewrite PathFacts.noSlash_app, Hns; reflexivity|reflexivity].
        unfold GoStrings.HasSuffix. rewrite StringFacts.rev_app. reflexivity.
      * rewrite HasSuffix_in_dir;
          [|exact Hd|rewrite PathFacts.noSlash_app, Hns; reflexivity|reflexivity].
        change "_test.gno.gen.go" with ("_test" +:+ ".gno.gen.go").
        rewrite HasSuffix_app_same, Hnt. apply Ht. discriminate.
  - apply appendMatch_skips. right. right. right. left.
    apply StringFacts.HasSuffix_iff.
    exists (d +:+ "." +:+ nameNoExtension p +:+ ".gno.gen").
    rewrite !StringFacts.app_assoc. reflexivity.
  - apply appendMatch_skips. right. right. left.
    rewrite Hft in Hnft. apply StringFacts.HasSuffix_iff in Hnft as [stem Hstem].
    apply StringFacts.HasSuffix_iff.
    exists (d +:+ "." +:+ stem).
    rewrite Hstem, !StringFacts.app_assoc. reflexivity.
Qed.

Lemma build_keeps_implementation_files_only_witness :
  precompile_exec.appendMatch [ "pkg/a.gno.gen.go" ]
    ("pkg/" +:+ fst (precompile.GetPrecompileFilenameAndTags "pkg/b_test.gno"))
  = [ "pkg/a.gno.gen.go" ]
  /\ precompile_exec.appendMatch [ "pkg/a.gno.gen.go" ]
       ("pkg/" +:+ fst (precompile.GetPrecompileFilenameAndTags "pkg/b.gno"))
     = [ "pkg/a.gno.gen.go"; "pkg/b.gno.gen.go" ]
  /\ precompile_exec.appendMatch []
       ("../" +:+ fst (precompile.GetPrecompileFilenameAndTags "../b.gno"))
     = [].
Proof.
  split; [|split].
  - apply (build_keeps_implementation_files_only
             [ "pkg/a.gno.gen.go" ] "pkg/" "pkg/b_test.gno");
      [reflexivity | right; reflexivity].
  - apply (build_keeps_implementation_files_only
             [ "pkg/a.gno.gen.go" ] "pkg/" "pkg/b.gno");
      [reflexivity | right; reflexivity].
  - apply (build_keeps_implementation_files_only [] "../" "../b.gno");
      [reflexivity | right; reflexivity].
Defined.

Section BuildCommand.
Import precompile_exec.

Lemma insertSorted_perm (x : string) (l : list string) :
  Permutation (Sort.insertSorted x l) (x :: l).
Proof.
  induction l as [|y l IH]; [reflexivity|].
  cbn [Sort.insertSorted]. destruct (String.leb x y); [reflexivity|].
  rewrite IH. apply perm_swap.
Qed.

Lemma Strings_perm (l : list string) : Permutation (Sort.Strings l) l.
Proof.
  induction l as [|x l IH]; [reflexivity|].
  cbn [Sort.Strings fold_right]. fold (Sort.Strings l).
  rewrite insertSorted_perm, IH. reflexivity.
Qed.

Lemma insertSorted_ascending (x : string) (l : list string) :
  ascending l -> ascending (Sort.insertSorted x l).
Proof.
  induction l as [|y l IH]; intros Hl; [cbn; split; exact I|].
  cbn [Sort.insertSorted]. destruct (String.leb x y) eqn:Hxy.
  - split; [exact Hxy|exact Hl].
  - assert (Hyx : String.leb y x = true).
    { destruct (String.leb_total x y) as [H|H]; [congruence|exact H]. }
    destruct Hl as [Hhead Hl].
    split; [|apply IH; exact Hl].
    destruct l as [|z l]; [exact Hyx|].
    cbn [Sort.insertSorted]. destruct (String.leb x z); [exact Hyx|exact Hhead].
Qed.

Lemma Strings_ascending (l : list string) : ascending (Sort.Strings l).
Proof.
  induction l as [|x l IH]; [exact I|].
  cbn [Sort.Strings fold_right]. fold (Sort.Strings l).
  apply insertSorted_ascending, IH.
Qed.

Lemma appendMatch_keeps_or_not (files : list string) (goMatch : string) :
  appendMatch files goMatch = if keeps goMatch then files ++ [goMatch] else files.
Proof.
  unfold keeps, appendMatch.
  destruct (GoStrings.HasPrefix goMatch "."); [reflexivity|].
  destruct (GoStrings.HasSuffix goMatch "_filetest.go"); [reflexivity|].
  destruct (GoStrings.HasSuffix goMatch "_filetest.gno.gen.go"); [reflexivity|].
  destruct (GoStrings.HasSuffix goMatch "_test.go"); [reflexivity|].
  destruct (GoStrings.HasSuffix goMatch "_test.gno.gen.go"); reflexivity.
Qed.

Lemma fold_appendMatch (goMatches files : list string) :
  fold_left appendMatch goMatches files = files ++ List.filter keeps goMatches.
Proof.
  revert files. induction goMatches as [|m ms IH]; intros files.
  - cbn. rewrite List.app_nil_r. reflexivity.
  - cbn [fold_left List.filter]. rewrite IH, appendMatch_keeps_or_not.
    destruct (keeps m); [rewrite <- List.app_assoc|]; reflexivity.
Qed.

Lemma goBuild_outcome (E : Env) (W : Sys) (fileOrPkg goBinary : string)
      (files : list string) :
  exists dir,
    let argv := goBinary :: "build" :: "-v" :: "-tags=gno" :: Sort.Strings files in
    goBuild E W fileOrPkg goBinary files
    = (option_map (Errorf_w "std go compiler: ") (snd (CombinedOutputIn W dir argv)),
       snd (guessRootDir E W fileOrPkg goBinary) ++ [Ran dir argv]).
Proof.
  unfold goBuild.
  destruct (guessRootDir E W fileOrPkg goBinary) as [rootDir log].
  exists (match rootDir with inr d => d | inl _ => EmptyString end).
  cbn [snd].
  destruct (CombinedOutputIn W _ _) as [out [err|]]; reflexivity.
Qed.

End BuildCommand.

(** X4.  What [PrecompileBuildPackage] builds.  For a directory whose
    [*.go] files can be listed, the only process started after the guess of
    the root directory is the Go binary with [build -v -tags=gno] followed
    by the matches that the [switch] keeps: each of them as often as it was
    listed, none of the others, in ascending order.  The call fails exactly
    when that process does, with the error of the process wrapped.  A path
    that is not a directory is built as it is, without the [switch].  The
    version of package precompile, which reads the directory first, either
    does the same or stops before it starts any process. *)
Theorem build_command_files :
  forall (E : Env) (W : Sys) (fileOrPkg goBinary : string) (isDir : bool)
         (goMatches : list string),
    Stat W fileOrPkg = inr isDir ->
    (isDir = true -> Glob E (Join E fileOrPkg "*.go") = inr goMatches) ->
    exists (files : list string) (dir : string),
      let argv := goBinary :: "build" :: "-v" :: "-tags=gno" :: files in
      let run :=
        (option_map (Errorf_w "std go compiler: ") (snd (CombinedOutputIn W dir argv)),
         snd (precompile_exec.guessRootDir E W fileOrPkg goBinary) ++ [Ran dir argv]) in
      gnolang_exec.PrecompileBuildPackage E W fileOrPkg goBinary = run
      /\ (precompile_exec.PrecompileBuildPackage E W fileOrPkg goBinary = run
          \/ exists err,
               precompile_exec.PrecompileBuildPackage E W fileOrPkg goBinary
               = (Some err, []))
      /\ Permutation files
           (if isDir then List.filter keeps goMatches else [fileOrPkg])
      /\ ascending files.
Proof.
  intros E W fileOrPkg goBinary isDir goMatches Hstat Hglob.
  set (chosen := if isDir then List.filter keeps goMatches else [fileOrPkg]).
  assert (Hfiles : precompile_exec.filesToBuild E W fileOrPkg = inr chosen).
  { unfold precompile_exec.filesToBuild. rewrite Hstat. subst chosen.
    destruct isDir; [|reflexivity].
    cbn [negb]. rewrite (Hglob eq_refl), fold_appendMatch. reflexivity. }
  destruct (goBuild_outcome E W fileOrPkg goBinary chosen) as [dir Hbuild].
  exists (Sort.Strings chosen), dir. cbn zeta in Hbuild |- *.
  split; [|split; [|split]].
  - unfold gnolang_exec.PrecompileBuildPackage. rewrite Hfiles. exact Hbuild.
  - unfold precompile_exec.PrecompileBuildPackage. rewrite Hfiles.
    destruct (Getwd W) as [err|wd]; [right; exists err; reflexivity|].
    destruct (ReadDir E fileOrPkg) as [err|fileInfos]; [right; exists err; reflexivity|].
    destruct (precompile_exec.readEntries E fileOrPkg fileInfos) as [err|];
      [right; exists err; reflexivity|].
    left. exact Hbuild.
  - apply Strings_perm.
  - apply Strings_ascending.
Qed.

Lemma build_command_files_witness :
  exists (files : list string) (dir : string),
    let argv := "go" :: "build" :: "-v" :: "-tags=gno" :: files in
    let run :=
      (option_map (Errorf_w "std go compiler: ")
                  (snd (CombinedOutputIn DemoExec.sys dir argv)),
       snd (precompile_exec.guessRootDir DemoExec.env DemoExec.sys "pkg" "go")
       ++ [Ran dir argv]) in
    gnolang_exec.PrecompileBuildPackage DemoExec.env DemoExec.sys "pkg" "go" = run
    /\ (precompile_exec.PrecompileBuildPackage DemoExec.env DemoExec.sys "pkg" "go" = run
        \/ exists err,
             precompile_exec.PrecompileBuildPackage DemoExec.env DemoExec.sys "pkg" "go"
             = (Some err, []))
    /\ Permutation files [ "pkg/b.gno.gen.go"; "pkg/a.gno.gen.go" ]
    /\ ascending files.
Proof.
  apply (build_command_files DemoExec.env DemoExec.sys "pkg" "go" true DemoExec.goFiles);
    [reflexivity | intros _; reflexivity].
Defined.

(** ** Running a translated program *)

Section RunResult.
Import GoStrings StringFacts SplitFacts.

Lemma parseResult_marker (input path : string) :
  snd (precompile.parseResult input path)
  = Contains (TrimSpace input) "command-line-arguments".
Proof.
  unfold precompile.parseResult.
  destruct (Split (TrimSpace input) "main.gno.gen.go") as [|part0 [|part1 rest]];
    reflexivity.
Qed.

Lemma app_not_empty (a b : string) : a <> EmptyString -> a +:+ b <> EmptyString.
Proof. destruct a as [|c a]; [congruence|]. intros _. rewrite app_cons. discriminate. Qed.

Lemma parseResult_marker_text (input path : string) :
  path <> EmptyString ->
  Contains (TrimSpace input) "command-line-arguments" = true ->
  fst (precompile.parseResult input path) <> EmptyString.
Proof.
  intros Hpath Hmark. unfold precompile.parseResult.
  assert (Hne : TrimSpace input <> EmptyString).
  { intros Hempty. rewrite Hempty in Hmark. discriminate Hmark. }
  destruct (Split (TrimSpace input) "main.gno.gen.go") as [|part0 [|part1 rest]];
    cbn [fst]; [exact Hne|exact Hne|].
  apply app_not_empty, Hpath.
Qed.

Lemma eqb_empty_false (s : string) : s <> EmptyString -> String.eqb s EmptyString = false.
Proof. intros H. apply String.eqb_neq. exact H. Qed.

End RunResult.

(** X5.  [PrecompileRun] decides by the text alone.  With a non-empty
    logical path, it returns an error exactly when the trimmed output of the
    process contains [command-line-arguments]; the message is then the
    normalized text and the output returned is empty.  Otherwise it returns
    no error, whatever the exit status of the process, and hands back the
    normalized text, or the raw output when the normalized text is empty. *)
Theorem run_result_decided_by_marker :
  forall (W : Sys) (targetFileName tmpDir goRunBinary path : string),
    path <> EmptyString ->
    let out :=
      fst (CombinedOutputIn W tmpDir
             (GoStrings.Split goRunBinary " " ++ [ targetFileName ])) in
    let res := fst (precompile.parseResult out path) in
    let r := fst (precompile_exec.PrecompileRun W targetFileName tmpDir goRunBinary path) in
    (GoStrings.Contains (GoStrings.TrimSpace out) "command-line-arguments" = true ->
     r = (Some (errorString res), EmptyString))
    /\ (GoStrings.Contains (GoStrings.TrimSpace out) "command-line-arguments" = false ->
        r = (None, if String.eqb res EmptyString then out else res)).
Proof.
  intros W targetFileName tmpDir goRunBinary path Hpath out res r.
  subst r. unfold precompile_exec.PrecompileRun.
  fold out. destruct (CombinedOutputIn W tmpDir _) as [out' exitErr] eqn:Hrun.
  cbn [fst] in out. subst out. fold res.
  pose proof (parseResult_marker out' path) as Hmark.
  destruct (precompile.parseResult out' path) as [res' isErr] eqn:Hparse.
  cbn [fst snd] in res, Hmark. subst res. cbn [fst].
  split; intros Hcase; rewrite Hcase in Hmark; subst isErr.
  - assert (Hne : res' <> EmptyString).
    { replace res' with (fst (precompile.parseResult out' path))
        by (rewrite Hparse; reflexivity).
      apply parseResult_marker_text; assumption. }
    rewrite (eqb_empty_false _ Hne). reflexivity.
  - cbn [andb negb]. destruct (String.eqb res' EmptyString) eqn:Hres; [|reflexivity].
    cbn [negb]. destruct out' as [|c out']; reflexivity.
Qed.

Lemma run_result_decided_by_marker_witness :
  fst (precompile_exec.PrecompileRun DemoExec.sys "main.gno.gen.go" "/tmp/main1"
         "go run" "files/main.gno")
  = (Some (errorString ("files/main.gno:3:9: undefined: X")), EmptyString)
  /\ fst (precompile_exec.PrecompileRun DemoExec.sys "crash.gno.gen.go" "/tmp/main1"
            "go run" "files/crash.gno")
     = (None, "panic: boom").
Proof.
  split.
  - apply (run_result_decided_by_marker DemoExec.sys "main.gno.gen.go" "/tmp/main1"
             "go run" "files/main.gno");
      [discriminate | reflexivity].
  - apply (run_result_decided_by_marker DemoExec.sys "crash.gno.gen.go" "/tmp/main1"
             "go run" "files/crash.gno");
      [discriminate | reflexivity].
Defined.

(** ** Packages in memory *)

Section MemPackages.
Import precompile_exec.

Lemma Precompile_result_or_error (E : Env) (source tags filename : string) :
  (exists res, precompile.Precompile E source tags filename = (Some res, None))
  \/ (exists err, precompile.Precompile E source tags filename = (None, Some err)).
Proof.
  unfold precompile.Precompile.
  destruct (ParseFile E filename source) as [err|f]; [right; eauto|].
  destruct (precompile.precompileAST E f _) as [transformed [err|]]; [right; eauto|].
  destruct (format_Node E transformed) as [written printErr]. left; eauto.
Qed.

Lemma PrecompileRun_log (W : Sys) (targetFileName tmpDir goRunBinary path : string) :
  snd (PrecompileRun W targetFileName tmpDir goRunBinary path)
  = [Ran tmpDir (GoStrings.Split goRunBinary " " ++ [ targetFileName ])].
Proof.
  unfold PrecompileRun.
  destruct (CombinedOutputIn W tmpDir _) as [out exitErr].
  destruct (precompile.parseResult out path) as [res isErr]. reflexivity.
Qed.

Lemma runMemFile_done (E : Env) (W : Sys) (tmpDir path : string)
      (mfile : precompile.MemFile) (output : string) :
  exists r log,
    runMemFile E W tmpDir path mfile output = (Done r, log)
    /\ Forall (inside E tmpDir) log.
Proof.
  unfold runMemFile.
  destruct (precompile.GetPrecompileFilenameAndTags (precompile.mf_Name mfile))
    as [targetFileName tags].
  destruct (Precompile_result_or_error E (precompile.mf_Body mfile) tags
              (precompile.mf_Name mfile)) as [[res ->]|[err ->]].
  - destruct (WriteFile E _ _) as [err|]; [eauto|].
    pose proof (PrecompileRun_log W targetFileName tmpDir "go run" path) as Hlog.
    destruct (PrecompileRun W targetFileName tmpDir "go run" path) as [r log].
    cbn [snd] in Hlog. subst log.
    eexists _, _. split; [reflexivity|].
    repeat constructor. cbn. eauto.
  - eauto.
Qed.

Lemma runMemFiles_done (E : Env) (W : Sys) (tmpDir path : string)
      (files : list precompile.MemFile) (errs : option error) (output : string) :
  exists r log,
    runMemFiles E W tmpDir path files errs output = (Done r, log)
    /\ Forall (inside E tmpDir) log.
Proof.
  revert errs output. induction files as [|mfile rest IH]; intros errs output.
  - cbn. eauto.
  - cbn [runMemFiles].
    destruct (negb (GoStrings.HasSuffix (precompile.mf_Name mfile) ".gno"));
      [apply IH|].
    destruct (runMemFile_done E W tmpDir path mfile output) as ([err output'] & log & -> & Hlog).
    destruct (IH (Multierr.Append errs err) output') as (r & log' & -> & Hlog').
    eexists _, _. split; [reflexivity|].
    apply Forall_app; split; assumption.
Qed.

End MemPackages.

(** X6.  [PrecompileAndRunMempkg] never panics and cleans up after itself.
    If the temporary directory cannot be made, it returns that error and
    has done nothing.  Otherwise it returns; the directory is made first and
    removed last; all it does in between is to write files into that
    directory and to run processes in it; and an error comes with an empty
    output. *)
Theorem run_mempkg_cleans_up :
  forall (E : Env) (W : Sys) (mempkg : precompile.MemPackage) (path : string),
    match MkdirTemp E EmptyString (precompile.mp_Name mempkg) with
    | inl err =>
        precompile_exec.PrecompileAndRunMempkg E W mempkg path
        = (Done (Some err, EmptyString), [])
    | inr tmpDir =>
        exists (r : option error * string) (log : list Effect),
          precompile_exec.PrecompileAndRunMempkg E W mempkg path
          = (Done r, MadeTemp tmpDir :: log ++ [Removed tmpDir])
          /\ Forall (inside E tmpDir) log
          /\ (fst r <> None -> snd r = EmptyString)
    end.
Proof.
  intros E W mempkg path. unfold precompile_exec.PrecompileAndRunMempkg.
  destruct (MkdirTemp E EmptyString (precompile.mp_Name mempkg)) as [err|tmpDir];
    [reflexivity|].
  destruct (runMemFiles_done E W tmpDir path (precompile.mp_Files mempkg) None EmptyString)
    as ([errs output] & log & -> & Hlog).
  destruct errs as [errs|].
  - exists (Some errs, EmptyString), log. repeat split; assumption.
  - exists (None, output), log. repeat split; [assumption|].
    intros H. exfalso. apply H. reflexivity.
Qed.

Section MemLoops.
Import precompile_exec.

Lemma Errors_Append_any (a b : option error) :
  Multierr.Errors (Multierr.Append a b) = Multierr.Errors a ++ Multierr.Errors b.
Proof.
  destruct a as [a|], b as [b|]; cbn [Multierr.Append]; try reflexivity.
  rewrite List.app_nil_r. reflexivity.
Qed.

Lemma Append_None (a b : option error) :
  Multierr.Append a b = None <-> a = None /\ b = None.
Proof.
  destruct a as [a|], b as [b|]; cbn [Multierr.Append]; split.
  - discriminate.
  - intros [Ha _]. discriminate Ha.
  - discriminate.
  - intros [Ha _]. discriminate Ha.
  - discriminate.
  - intros [_ Hb]. discriminate Hb.
  - intros _. split; reflexivity.
  - reflexivity.
Qed.

Lemma runMemFile_result (E : Env) (W : Sys) (tmpDir path : string)
      (mfile : precompile.MemFile) (output : string) :
  exists output',
    fst (runMemFile E W tmpDir path mfile output)
    = Done (runFailure E W tmpDir path mfile, output')
    /\ (runFailure E W tmpDir path mfile = None ->
        output' = runOutput W tmpDir path mfile).
Proof.
  unfold runFailure, runOutput, runMemFile.
  destruct (precompile.GetPrecompileFilenameAndTags (precompile.mf_Name mfile))
    as [targetFileName tags]. cbn [fst].
  destruct (Precompile_result_or_error E (precompile.mf_Body mfile) tags
              (precompile.mf_Name mfile)) as [[res ->]|[err ->]].
  - destruct (WriteFile E _ _) as [err|].
    + exists output. split; [reflexivity|]. discriminate.
    + destruct (PrecompileRun W targetFileName tmpDir "go run" path) as [[err out] log].
      exists out. split; reflexivity.
  - exists output. split; [reflexivity|]. discriminate.
Qed.

Lemma runMemFiles_result (E : Env) (W : Sys) (tmpDir path : string)
      (files : list precompile.MemFile) (errs : option error) (output : string) :
  let gno := List.filter
               (fun mfile => GoStrings.HasSuffix (precompile.mf_Name mfile) ".gno")
               files in
  exists errs' output',
    fst (runMemFiles E W tmpDir path files errs output) = Done (errs', output')
    /\ Multierr.Errors errs'
       = Multierr.Errors errs
         ++ flat_map (fun mfile => Multierr.Errors (runFailure E W tmpDir path mfile)) gno
    /\ (errs' = None <->
        errs = None /\ Forall (fun mfile => runFailure E W tmpDir path mfile = None) gno)
    /\ (errs' = None ->
        output' = match last gno with
                  | Some mfile => runOutput W tmpDir path mfile
                  | None => output
                  end).
Proof.
  revert errs output. induction files as [|mfile rest IH]; intros errs output gno.
  - exists errs, output. cbn. rewrite List.app_nil_r.
    split; [reflexivity|]. split; [reflexivity|]. split; [|intros _; reflexivity].
    split; [intros ->; split; [reflexivity|constructor] | intros [-> _]; reflexivity].
  - subst gno. cbn [runMemFiles List.filter].
    destruct (GoStrings.HasSuffix (precompile.mf_Name mfile) ".gno"); cbn [negb];
      [|apply IH].
    destruct (runMemFile_result E W tmpDir path mfile output) as (out1 & Hone & Hout1).
    destruct (runMemFile E W tmpDir path mfile output) as [r1 log1].
    cbn [fst] in Hone. subst r1.
    destruct (IH (Multierr.Append errs (runFailure E W tmpDir path mfile)) out1)
      as (errs' & output' & Hrest & Herrors & Hnone & Hout).
    destruct (runMemFiles E W tmpDir path rest _ out1) as [r log'].
    cbn [fst] in Hrest |- *. subst r.
    exists errs', output'. split; [reflexivity|]. split; [|split].
    + rewrite Herrors, Errors_Append_any, <- List.app_assoc. reflexivity.
    + rewrite Hnone, Append_None, Forall_cons. tauto.
    + intros Hn. rewrite (Hout Hn). rewrite last_cons.
      destruct (last _); [reflexivity|].
      apply Hout1. apply Hnone in Hn as [Happ _].
      apply Append_None in Happ as [_ Hf]. exact Hf.
Qed.

Lemma checkMemFile_result (E : Env) (tmpDir : string) (mfile : precompile.MemFile) :
  fst (gnolang_exec.checkMemFile E tmpDir mfile) = Done (checkFailure E tmpDir mfile).
Proof.
  unfold checkFailure, gnolang_exec.checkMemFile, gnolang.Precompile.
  destruct (Precompile_result_or_error E (precompile.mf_Body mfile) "gno,tmp"
              (precompile.mf_Name mfile)) as [[res ->]|[err ->]]; [|reflexivity].
  destruct (WriteFile E _ _) as [err|]; reflexivity.
Qed.

Lemma checkMemFiles_result (E : Env) (tmpDir : string)
      (files : list precompile.MemFile) (errs : option error) :
  let gno := List.filter
               (fun mfile => GoStrings.HasSuffix (precompile.mf_Name mfile) ".gno")
               files in
  exists errs',
    fst (gnolang_exec.checkMemFiles E tmpDir files errs) = Done errs'
    /\ Multierr.Errors errs'
       = Multierr.Errors errs
         ++ flat_map (fun mfile => Multierr.Errors (checkFailure E tmpDir mfile)) gno
    /\ (errs' = None <->
        errs = None /\ Forall (fun mfile => checkFailure E tmpDir mfile = None) gno).
Proof.
  revert errs. induction files as [|mfile rest IH]; intros errs gno.
  - exists errs. cbn. rewrite List.app_nil_r.
    split; [reflexivity|]. split; [reflexivity|].
    split; [intros ->; split; [reflexivity|constructor] | intros [-> _]; reflexivity].
  - subst gno. cbn [gnolang_exec.checkMemFiles List.filter].
    destruct (GoStrings.HasSuffix (precompile.mf_Name mfile) ".gno"); cbn [negb];
      [|apply IH].
    pose proof (checkMemFile_result E tmpDir mfile) as Hone.
    destruct (gnolang_exec.checkMemFile E tmpDir mfile) as [r1 log1].
    cbn [fst] in Hone. subst r1.
    destruct (IH (Multierr.Append errs (checkFailure E tmpDir mfile)))
      as (errs' & Hrest & Herrors & Hnone).
    destruct (gnolang_exec.checkMemFiles E tmpDir rest _) as [r log'].
    cbn [fst] in Hrest |- *. subst r.
    exists errs'. split; [reflexivity|]. split.
    + rewrite Herrors, Errors_Append_any, <- List.app_assoc. reflexivity.
    + rewrite Hnone, Append_None, Forall_cons. tauto.
Qed.

End MemLoops.

(** X7.  When [PrecompileAndRunMempkg] succeeds, the output it returns is
    what the program of the last module of the package printed (the last one
    whose name ends in [.gno]); what the programs of the modules before it
    printed is not returned.  A package without such a module gives the
    empty output. *)
Theorem run_mempkg_returns_last_output :
  forall (E : Env) (W : Sys) (mempkg : precompile.MemPackage) (path tmpDir output : string),
    MkdirTemp E EmptyString (precompile.mp_Name mempkg) = inr tmpDir ->
    fst (precompile_exec.PrecompileAndRunMempkg E W mempkg path) = Done (None, output) ->
    output = match last (gnoFiles mempkg) with
             | Some mfile => runOutput W tmpDir path mfile
             | None => EmptyString
             end.
Proof.
  intros E W mempkg path tmpDir output Hmk Hrun.
  unfold precompile_exec.PrecompileAndRunMempkg in Hrun. rewrite Hmk in Hrun.
  destruct (runMemFiles_result E W tmpDir path (precompile.mp_Files mempkg) None EmptyString)
    as (errs' & output' & Hloop & _ & _ & Hout).
  destruct (precompile_exec.runMemFiles E W tmpDir path _ None EmptyString) as [r log].
  cbn [fst] in Hloop, Hrun. subst r.
  destruct errs' as [e|]; [discriminate Hrun|].
  injection Hrun as <-. apply Hout. reflexivity.
Qed.

Lemma run_mempkg_returns_last_output_witness :
  fst (precompile_exec.PrecompileAndRunMempkg DemoExec.runEnv DemoExec.sys
         DemoExec.scripts "files/scripts")
  = Done (None, "hello")
  /\ "hello"
     = runOutput DemoExec.sys "/main123" "files/scripts"
         (precompile.mkMemFile "hello.gno" (Demo.sourceOf DemoExec.hello_gno)).
Proof.
  split; [reflexivity|].
  apply (run_mempkg_returns_last_output DemoExec.runEnv DemoExec.sys DemoExec.scripts
           "files/scripts" "/main123" "hello");
    reflexivity.
Defined.

(** X8.  The loops over a package in memory go on after a failure and
    lose no error.  [PrecompileAndCheckMempkg] returns nil exactly when
    every module (every file whose name ends in [.gno]) translates, is
    written and passes the format check; otherwise it returns, behind the
    prefix [precompile package: ], an aggregate whose entries are the errors
    of the failing modules, all of them, in the order of the modules.
    [PrecompileAndRunMempkg] returns the same kind of aggregate, without a
    prefix, for translating, writing and running. *)
Theorem mempkg_loops_keep_every_error :
  forall (E : Env) (W : Sys) (mempkg : precompile.MemPackage) (path tmpDir : string),
    MkdirTemp E EmptyString (precompile.mp_Name mempkg) = inr tmpDir ->
    (exists errs : option error,
        fst (gnolang_exec.PrecompileAndCheckMempkg E mempkg)
        = Done (option_map (Errorf_w "precompile package: ") errs)
        /\ Multierr.Errors errs
           = flat_map (fun mfile => Multierr.Errors (checkFailure E tmpDir mfile))
                      (gnoFiles mempkg)
        /\ (errs = None <->
            Forall (fun mfile => checkFailure E tmpDir mfile = None) (gnoFiles mempkg)))
    /\ (exists (errs : option error) (output : string),
           fst (precompile_exec.PrecompileAndRunMempkg E W mempkg path)
           = Done (errs, output)
           /\ Multierr.Errors errs
              = flat_map (fun mfile => Multierr.Errors (runFailure E W tmpDir path mfile))
                         (gnoFiles mempkg)
           /\ (errs = None <->
               Forall (fun mfile => runFailure E W tmpDir path mfile = None)
                      (gnoFiles mempkg))).
Proof.
  intros E W mempkg path tmpDir Hmk. split.
  - unfold gnolang_exec.PrecompileAndCheckMempkg. rewrite Hmk.
    destruct (checkMemFiles_result E tmpDir (precompile.mp_Files mempkg) None)
      as (errs & Hloop & Herrors & Hnone).
    destruct (gnolang_exec.checkMemFiles E tmpDir _ None) as [r log].
    cbn [fst] in Hloop |- *. subst r.
    exists errs. split; [destruct errs; reflexivity|].
    split; [exact Herrors|]. rewrite Hnone. unfold gnoFiles. tauto.
  - unfold precompile_exec.PrecompileAndRunMempkg. rewrite Hmk.
    destruct (runMemFiles_result E W tmpDir path (precompile.mp_Files mempkg) None EmptyString)
      as (errs & output & Hloop & Herrors & Hnone & _).
    destruct (precompile_exec.runMemFiles E W tmpDir path _ None EmptyString) as [r log].
    cbn [fst] in Hloop |- *. subst r.
    exists errs, (match errs with Some _ => EmptyString | None => output end).
    split; [destruct errs; reflexivity|].
    split; [exact Herrors|]. rewrite Hnone. unfold gnoFiles. tauto.
Qed.

Lemma mempkg_loops_keep_every_error_witness :
  exists errs : option error,
    fst (gnolang_exec.PrecompileAndCheckMempkg DemoExec.runEnv DemoExec.faulty)
    = Done (option_map (Errorf_w "precompile package: ") errs)
    /\ Multierr.Errors errs
       = [ Errorf_w "parse: " (errorString "broken.gno:1:1: expected 'package'");
           Errorf_w EmptyString
             (errorString ("import " +:+ Demo.quoted "os" +:+ " is not in the whitelist")) ].
Proof.
  destruct (mempkg_loops_keep_every_error DemoExec.runEnv DemoExec.sys DemoExec.faulty
              "files/faulty" "/main123" eq_refl) as [(errs & Hret & Herrors & _) _].
  exists errs. split; [exact Hret|]. rewrite Herrors. reflexivity.
Defined.

Section CheckCleanup.

Lemma checkMemFile_log (E : Env) (tmpDir : string) (mfile : precompile.MemFile) :
  Forall (onlyTouches E tmpDir) (snd (gnolang_exec.checkMemFile E tmpDir mfile)).
Proof.
  unfold gnolang_exec.checkMemFile, gnolang.Precompile.
  destruct (Precompile_result_or_error E (precompile.mf_Body mfile) "gno,tmp"
              (precompile.mf_Name mfile)) as [[res ->]|[err ->]]; [|constructor].
  destruct (WriteFile E _ _) as [err|]; [constructor|].
  cbn [snd]. repeat constructor; cbn; eauto.
Qed.

Lemma checkMemFiles_log (E : Env) (tmpDir : string)
      (files : list precompile.MemFile) (errs : option error) :
  Forall (onlyTouches E tmpDir) (snd (gnolang_exec.checkMemFiles E tmpDir files errs)).
Proof.
  revert errs. induction files as [|mfile rest IH]; intros errs; [constructor|].
  cbn [gnolang_exec.checkMemFiles].
  destruct (negb (GoStrings.HasSuffix (precompile.mf_Name mfile) ".gno")); [apply IH|].
  pose proof (checkMemFile_log E tmpDir mfile) as Hone.
  pose proof (checkMemFile_result E tmpDir mfile) as Hres.
  destruct (gnolang_exec.checkMemFile E tmpDir mfile) as [r1 log1].
  cbn [fst snd] in Hone, Hres. subst r1.
  pose proof (IH (Multierr.Append errs (checkFailure E tmpDir mfile))) as Hrest.
  destruct (gnolang_exec.checkMemFiles E tmpDir rest _) as [r log'].
  cbn [snd] in Hrest |- *. apply Forall_app; split; assumption.
Qed.

End CheckCleanup.

(** X9.  [PrecompileAndCheckMempkg] never panics and cleans up after
    itself.  If the temporary directory cannot be made, it returns that
    error and has done nothing.  Otherwise it returns; the directory is made
    first and removed last, whether the check passes or not; and all it does
    in between is to write generated files into that directory and to run
    the format checker on them. *)
Theorem check_mempkg_cleans_up :
  forall (E : Env) (mempkg : precompile.MemPackage),
    match MkdirTemp E EmptyString (precompile.mp_Name mempkg) with
    | inl err => gnolang_exec.PrecompileAndCheckMempkg E mempkg = (Done (Some err), [])
    | inr tmpDir =>
        exists (r : option error) (log : list Effect),
          gnolang_exec.PrecompileAndCheckMempkg E mempkg
          = (Done r, MadeTemp tmpDir :: log ++ [Removed tmpDir])
          /\ Forall (onlyTouches E tmpDir) log
    end.
Proof.
  intros E mempkg. unfold gnolang_exec.PrecompileAndCheckMempkg.
  destruct (MkdirTemp E EmptyString (precompile.mp_Name mempkg)) as [err|tmpDir];
    [reflexivity|].
  destruct (checkMemFiles_result E tmpDir (precompile.mp_Files mempkg) None)
    as (errs & Hloop & _).
  pose proof (checkMemFiles_log E tmpDir (precompile.mp_Files mempkg) None) as Hlog.
  destruct (gnolang_exec.checkMemFiles E tmpDir _ None) as [r log].
  cbn [fst snd] in Hloop, Hlog. subst r.
  destruct errs as [errs|]; eexists _, log; (split; [reflexivity|exact Hlog]).
Qed.

(** ** The import policy *)

Section Policy.
Import GoStrings StringFacts TranslateFacts RewriteFacts precompile.

Lemma checkWhitelist_accepts (E : Env) (errs : option error) (importSpec : ImportSpec) :
  whitelisted (trimmedPath importSpec) = true ->
  checkWhitelist E errs importSpec = errs.
Proof.
  unfold whitelisted, checkWhitelist. intros H.
  destruct (HasPrefix (trimmedPath importSpec) GnoRealmPkgsPrefixBefore); [reflexivity|].
  destruct (HasPrefix (trimmedPath importSpec) GnoPackagePrefixBefore); [reflexivity|].
  destruct (existsb (String.eqb (trimmedPath importSpec)) stdlibWhitelist); [reflexivity|].
  destruct (existsb (HasPrefix (trimmedPath importSpec)) importPrefixWhitelist);
    [reflexivity|discriminate H].
Qed.

Lemma checkWhitelist_fold (E : Env) (l : list ImportSpec) (errs : option error) :
  Multierr.Errors (fold_left (checkWhitelist E) l errs)
  = Multierr.Errors errs ++ List.map (violation E) (List.filter unlisted l)
  /\ (fold_left (checkWhitelist E) l errs = None <->
      errs = None /\ List.filter unlisted l = []).
Proof.
  revert errs. induction l as [|importSpec l IH]; intros errs.
  - cbn. rewrite List.app_nil_r. split; [reflexivity|]. tauto.
  - cbn [fold_left List.filter].
    destruct (unlisted importSpec) eqn:Hu; unfold unlisted in Hu;
      destruct (whitelisted (trimmedPath importSpec)) eqn:Hw; try discriminate Hu.
    2: { rewrite (checkWhitelist_accepts E errs importSpec Hw). apply IH. }
    + rewrite (checkWhitelist_violation E errs importSpec Hw).
      destruct (IH (Multierr.Append errs (Some (violation E importSpec)))) as [IH1 IH2].
      split.
      * rewrite IH1. unfold violation at 1. rewrite Errors_Append.
        rewrite <- List.app_assoc. reflexivity.
      * rewrite IH2. split; [|intros [_ H]; discriminate H].
        intros [H _]. destruct errs; discriminate H.
Qed.

Lemma rewriteStep_keeps_error (E : Env) (st : File * option error) (ptr : nat) :
  snd st <> None -> snd (rewriteStep E st ptr) <> None.
Proof.
  destruct st as [g errs]. cbn [snd]. intros Herrs.
  unfold rewriteStep, atNode. cbn [fst].
  destruct (nth_error (Imports g) ptr) as [importSpec|]; [|exact Herrs].
  rewrite rewriteImport_target.
  destruct (target (trimmedPath importSpec)) as [t|]; [|exact Herrs].
  destruct (Astutil.RewriteImport E g (trimmedPath importSpec) t) as [g' ok].
  destruct ok; cbn [snd]; [exact Herrs|].
  destruct errs as [e|]; [discriminate|]. exfalso. apply Herrs. reflexivity.
Qed.

Lemma rewriteLoop_keeps_error (E : Env) (ptrs : list nat) (st : File * option error) :
  snd st <> None -> snd (fold_left (rewriteStep E) ptrs st) <> None.
Proof.
  revert st. induction ptrs as [|ptr ptrs IH]; intros st Hst; [exact Hst|].
  cbn [fold_left]. apply IH, rewriteStep_keeps_error, Hst.
Qed.

Lemma policy_rejects (E : Env) (source tags filename : string) (f : File)
      (importSpec : ImportSpec) :
  ParseFile E filename source = inr f ->
  parsedShape f ->
  kindOf filename = Implementation ->
  In importSpec (Imports f) ->
  whitelisted (trimmedPath importSpec) = false ->
  exists err, Precompile E source tags filename = (None, Some err).
Proof.
  intros Hparse Hshape Hkind Hin Hw.
  rewrite (Precompile_parsed E source tags filename f Hparse).
  rewrite (precompileAST_parsed E f _ Hshape).
  rewrite isTestFile_kind, Hkind. cbn [negb].
  assert (Hcheck : fold_left (checkWhitelist E) (Imports f) None <> None).
  { intros Hnone. apply (checkWhitelist_fold E (Imports f) None) in Hnone as [_ Hnil].
    assert (Hmem : In importSpec (List.filter unlisted (Imports f))).
    { apply List.filter_In. split; [exact Hin|]. unfold unlisted. rewrite Hw. reflexivity. }
    rewrite Hnil in Hmem. destruct Hmem. }
  pose proof (rewriteLoop_keeps_error E (seq 0 (length (Imports f)))
                (f, fold_left (checkWhitelist E) (Imports f) None) Hcheck) as Hafter.
  destruct (fold_left (rewriteStep E) _ _) as [transformed [err|]].
  - eauto.
  - exfalso. apply Hafter. reflexivity.
Qed.

Lemma raw_literal_path (name : option string) (rest : string) :
  exists tail, trimmedPath (mkImportSpec name ("`" +:+ rest)) = "`" +:+ tail.
Proof.
  unfold trimmedPath. cbn [Path_Value].
  assert (Hsuffix : exists tail, TrimSuffix ("`" +:+ rest) dquote = "`" +:+ tail).
  { unfold TrimSuffix. destruct (HasSuffix ("`" +:+ rest) dquote) eqn:Hs; [|eauto].
    apply HasSuffix_iff in Hs as [stem Hstem].
    destruct stem as [|c stem]; [discriminate Hstem|].
    rewrite Hstem, app_length.
    replace (String.length (String c stem) + String.length dquote - String.length dquote)
      with (String.length (String c stem)) by lia.
    rewrite take_app.
    rewrite app_cons in Hstem. injection Hstem as <- _. exists stem. reflexivity. }
  destruct Hsuffix as [tail ->]. exists tail. reflexivity.
Qed.

Lemma raw_literal_unlisted (name : option string) (rest : string) :
  whitelisted (trimmedPath (mkImportSpec name ("`" +:+ rest))) = false.
Proof.
  destruct (raw_literal_path name rest) as [tail ->]. reflexivity.
Qed.

End Policy.

(** X10.  The verdict of the import policy on any list of imports.  For
    a parsed module whose import literals are plain, the error that
    [Precompile] returns has one violation entry for each import that matches
    no rule of the white list, in source order, and nothing for the imports
    that match one; a test or file-test module has no entry at all.
    [Precompile] returns no error exactly when the module is a test or
    file-test module or every import matches a rule. *)
Theorem policy_verdict :
  forall (E : Env) (source tags filename : string) (f : File),
    ParseFile E filename source = inr f ->
    parsedShape f ->
    Forall (plainSpec E) (Imports f) ->
    entries (snd (precompile.Precompile E source tags filename))
    = match kindOf filename with
      | Implementation => List.map (violation E) (List.filter unlisted (Imports f))
      | _ => []
      end
    /\ (snd (precompile.Precompile E source tags filename) = None <->
        kindOf filename <> Implementation
        \/ Forall (fun importSpec => whitelisted (precompile.trimmedPath importSpec) = true)
                  (Imports f)).
Proof.
  intros E source tags filename f Hparse Hshape Hplain.
  rewrite (Precompile_parsed E source tags filename f Hparse).
  pose proof (RewriteFacts.precompileAST_rewrites E f (negb (isTestFile filename))
                Hshape Hplain) as [_ Herr].
  destruct (precompile.precompileAST E f (negb (isTestFile filename)))
    as [transformed err].
  cbn [snd] in Herr. subst err.
  rewrite TranslateFacts.isTestFile_kind.
  destruct (kindOf filename) eqn:Hkind; cbn [negb].
  - destruct (checkWhitelist_fold E (Imports f) None) as [Herrors Hnone].
    cbn [Multierr.Errors app] in Herrors.
    assert (Hall : List.filter unlisted (Imports f) = [] <->
                   Forall (fun importSpec =>
                             whitelisted (precompile.trimmedPath importSpec) = true)
                          (Imports f)).
    { clear. induction (Imports f) as [|importSpec l IH]; [split; [constructor|reflexivity]|].
      cbn [List.filter]. unfold unlisted at 1.
      destruct (whitelisted (precompile.trimmedPath importSpec)) eqn:Hw; cbn [negb].
      - rewrite IH. split; [intros H; constructor; assumption|].
        intros H. inversion H. assumption.
      - split; [discriminate|]. intros H. inversion H. congruence. }
    destruct (fold_left (precompile.checkWhitelist E) (Imports f) None) as [e|] eqn:Hfold.
    + cbn [snd entries Errorf_w]. split; [exact Herrors|].
      split; [discriminate|]. intros [H|H]; [congruence|].
      apply Hall in H. assert (Hn : Some e = None) by (apply Hnone; auto).
      discriminate Hn.
    + destruct (format_Node E transformed) as [written printErr].
      cbn [snd entries]. split; [exact Herrors|].
      split; [|reflexivity]. intros _. right. apply Hall.
      apply Hnone. reflexivity.
  - destruct (format_Node E transformed) as [written printErr]. cbn [snd entries].
    split; [reflexivity|]. split; [|reflexivity]. intros _. left. discriminate.
  - destruct (format_Node E transformed) as [written printErr]. cbn [snd entries].
    split; [reflexivity|]. split; [|reflexivity]. intros _. left. discriminate.
Qed.

Lemma policy_verdict_witness :
  entries (snd (precompile.Precompile
                  (Demo.world [ DemoExec.mixed_gno ] Demo.printer)
                  (Demo.sourceOf DemoExec.mixed_gno) "gno" "pkg/mixed.gno"))
  = [ errorString ("import " +:+ Demo.quoted "os" +:+ " is not in the whitelist");
      errorString ("import " +:+ Demo.quoted "net/http" +:+ " is not in the whitelist") ].
Proof.
  destruct (policy_verdict (Demo.world [ DemoExec.mixed_gno ] Demo.printer)
              (Demo.sourceOf DemoExec.mixed_gno) "gno" "pkg/mixed.gno"
              (Demo.treeOf DemoExec.mixed_gno)) as [H _].
  - reflexivity.
  - reflexivity.
  - repeat constructor.
  - rewrite H. reflexivity.
Defined.

(** X11.  The policy cannot be passed by.  An implementation module
    that the parser accepts and that has an import matching no rule of the
    white list is never translated: whatever its other imports and however
    their literals are written, [Precompile] returns an error and no
    result. *)
Theorem policy_is_enforced :
  forall (E : Env) (source tags filename : string) (f : File) (importSpec : ImportSpec),
    ParseFile E filename source = inr f ->
    parsedShape f ->
    kindOf filename = Implementation ->
    In importSpec (Imports f) ->
    whitelisted (precompile.trimmedPath importSpec) = false ->
    exists err,
      precompile.Precompile E source tags filename = (None, Some err)
      /\ gnolang.Precompile E source tags filename = (None, Some err).
Proof.
  intros E source tags filename f importSpec Hparse Hshape Hkind Hin Hw.
  destruct (policy_rejects E source tags filename f importSpec Hparse Hshape Hkind Hin Hw)
    as [err Herr].
  exists err. split; exact Herr.
Qed.

Lemma policy_is_enforced_witness :
  exists err,
    precompile.Precompile (Demo.world [ DemoExec.mixed_gno ] Demo.printer)
      (Demo.sourceOf DemoExec.mixed_gno) "gno" "pkg/mixed.gno" = (None, Some err)
    /\ gnolang.Precompile (Demo.world [ DemoExec.mixed_gno ] Demo.printer)
         (Demo.sourceOf DemoExec.mixed_gno) "gno" "pkg/mixed.gno" = (None, Some err).
Proof.
  apply (policy_is_enforced (Demo.world [ DemoExec.mixed_gno ] Demo.printer)
           (Demo.sourceOf DemoExec.mixed_gno) "gno" "pkg/mixed.gno"
           (Demo.treeOf DemoExec.mixed_gno)
           (mkImportSpec None (Demo.quoted "net/http"))).
  - reflexivity.
  - reflexivity.
  - reflexivity.
  - cbn. tauto.
  - reflexivity.
Defined.

(** X12.  The policy reads the import literal, not the path it denotes.
    An import written as a raw string literal (between backquotes) matches no
    rule, even when it names a package of the white list: an implementation
    module with such an import is rejected. *)
Theorem raw_literal_import_is_rejected :
  forall (E : Env) (source tags filename : string) (f : File)
         (name : option string) (rest : string),
    ParseFile E filename source = inr f ->
    parsedShape f ->
    kindOf filename = Implementation ->
    In (mkImportSpec name ("`" +:+ rest)) (Imports f) ->
    whitelisted (precompile.trimmedPath (mkImportSpec name ("`" +:+ rest))) = false
    /\ exists err, precompile.Precompile E source tags filename = (None, Some err).
Proof.
  intros E source tags filename f name rest Hparse Hshape Hkind Hin.
  pose proof (raw_literal_unlisted name rest) as Hw.
  split; [exact Hw|].
  apply (policy_rejects E source tags filename f _ Hparse Hshape Hkind Hin Hw).
Qed.

Lemma raw_literal_import_is_rejected_witness :
  whitelisted "fmt" = true
  /\ exists err,
       precompile.Precompile DemoExec.rawEnv "package main" "gno" "main.gno"
       = (None, Some err).
Proof.
  split; [reflexivity|].
  apply (raw_literal_import_is_rejected DemoExec.rawEnv "package main" "gno" "main.gno"
           DemoExec.rawFmt None "fmt`").
  - reflexivity.
  - reflexivity.
  - reflexivity.
  - cbn. tauto.
Defined.

(** ** Translating what is translated *)

Section Idempotence.
Import GoStrings StringFacts TranslateFacts RewriteFacts precompile.

Lemma precompileAST_tree (E : Env) (f : File) (check : bool) :
  parsedShape f ->
  Forall (plainSpec E) (Imports f) ->
  fst (precompileAST E f check)
  = mkFile (List.map (rewritten E) (Imports f)) (Paragraphs f) (Decls f).
Proof.
  intros Hshape Hplain.
  pose proof (precompileAST_rewrites E f check Hshape Hplain) as [Himports _].
  rewrite (precompileAST_parsed E f check Hshape) in Himports |- *.
  assert (Hv0 : visited E f f 0).
  { constructor; try reflexivity.
    - clear. induction (Imports f); constructor; [left; reflexivity | assumption].
    - intros j o Hj. lia. }
  destruct (visited_loop E f (if check then fold_left (checkWhitelist E) (Imports f) None
                              else None)
                         (length (Imports f)) 0 f Hplain eq_refl Hv0)
    as [g' [Hfold [Hpars Hdecls _ _]]].
  rewrite Hfold in Himports |- *. cbn [fst] in Himports |- *.
  destruct g' as [imports pars decls]. cbn in Himports, Hpars, Hdecls. subst.
  reflexivity.
Qed.

Lemma target_unlisted (p t : string) : target p = Some t -> whitelisted t = false.
Proof.
  unfold target.
  destruct (String.eqb p GnoStdPkgBefore); [intros H; injection H as <-; reflexivity|].
  destruct (HasPrefix p GnoPackagePrefixBefore);
    [intros H; injection H as <-; reflexivity|].
  destruct (HasPrefix p GnoRealmPkgsPrefixBefore);
    [intros H; injection H as <-; reflexivity | discriminate].
Qed.

Lemma rewritten_plain (E : Env) (o : ImportSpec) :
  plainSpec E o ->
  plainSpec E (rewritten E o) /\ rewritten E (rewritten E o) = rewritten E o.
Proof.
  intros Hplain. pose proof Hplain as [Hunq Htarget].
  unfold rewritten at 1 3 4.
  destruct (target (trimmedPath o)) as [t|] eqn:Ht.
  - destruct Htarget as [Hq Htrim].
    pose proof (target_of_target _ _ Ht) as Hnone.
    split.
    + split; cbn [Path_Value]; rewrite Htrim; [exact Hq|].
      rewrite Hnone. exact I.
    + unfold rewritten. rewrite Htrim, Hnone. reflexivity.
  - split; [exact Hplain|]. unfold rewritten. rewrite Ht. reflexivity.
Qed.

End Idempotence.

(** X13.  The rewrite is idempotent.  For a parsed module with plain
    import literals, running [precompileAST] on the tree it returned gives
    that tree again: paths that were rewritten are not rewritten a second
    time.  The policy is not idempotent: the target of every rewrite rule
    matches no rule of the white list. *)
Theorem rewrite_is_idempotent :
  forall (E : Env) (f : File) (check check' : bool),
    parsedShape f ->
    Forall (plainSpec E) (Imports f) ->
    fst (precompile.precompileAST E (fst (precompile.precompileAST E f check)) check')
    = fst (precompile.precompileAST E f check)
    /\ forall p t : string,
        target p = Some t -> target t = None /\ whitelisted t = false.
Proof.
  intros E f check check' Hshape Hplain. split.
  - rewrite (precompileAST_tree E f check Hshape Hplain).
    rewrite precompileAST_tree.
    + cbn [Imports Paragraphs Decls]. f_equal.
      rewrite List.map_map. apply List.map_ext_in. intros o Ho.
      rewrite List.Forall_forall in Hplain.
      apply (rewritten_plain E o (Hplain o Ho)).
    + unfold parsedShape in *. cbn [Imports Paragraphs].
      rewrite List.length_map. exact Hshape.
    + cbn [Imports]. rewrite List.Forall_forall in Hplain |- *.
      intros o' Ho'. apply List.in_map_iff in Ho' as [o [<- Ho]].
      apply (rewritten_plain E o (Hplain o Ho)).
  - intros p t Ht. split.
    + apply (RewriteFacts.target_of_target _ _ Ht).
    + apply (target_unlisted _ _ Ht).
Qed.

Lemma rewrite_is_idempotent_witness :
  fst (precompile.precompileAST (Demo.world Demo.diamondTree Demo.printer)
         (fst (precompile.precompileAST (Demo.world Demo.diamondTree Demo.printer)
                 (Demo.treeOf Demo.right) true))
         false)
  = fst (precompile.precompileAST (Demo.world Demo.diamondTree Demo.printer)
           (Demo.treeOf Demo.right) true).
Proof.
  apply (rewrite_is_idempotent (Demo.world Demo.diamondTree Demo.printer)
           (Demo.treeOf Demo.right) true false).
  - reflexivity.
  - repeat constructor.
Defined.

(** ** The set of precompiled packages *)

(** X14.  Marking and looking up.  In new options no package is
    precompiled and the flags are those given.  After a package is marked it
    is precompiled; marking it changes the answer for no other package; and
    marking is idempotent and independent of the order. *)
Theorem mark_and_lookup :
  (forall (cfg : PrecompileCfg) (pkg : ImportPath),
      GetFlags (NewPrecompileOptions cfg) = cfg
      /\ precompile.IsPrecompiled pkg (snd (NewPrecompileOptions cfg)) = false)
  /\ (forall (pkg other : ImportPath) (s : State),
         precompile.IsPrecompiled pkg (precompile.MarkAsPrecompiled pkg s) = true
         /\ (other <> pkg ->
             precompile.IsPrecompiled other (precompile.MarkAsPrecompiled pkg s)
             = precompile.IsPrecompiled other s)
         /\ precompile.MarkAsPrecompiled pkg (precompile.MarkAsPrecompiled pkg s)
            = precompile.MarkAsPrecompiled pkg s
         /\ precompile.MarkAsPrecompiled pkg (precompile.MarkAsPrecompiled other s)
            = precompile.MarkAsPrecompiled other (precompile.MarkAsPrecompiled pkg s)).
Proof.
  split.
  - intros cfg pkg. split; [reflexivity|].
    unfold precompile.IsPrecompiled. apply bool_decide_eq_false.
    cbn. set_solver.
  - intros pkg other s. unfold precompile.IsPrecompiled, precompile.MarkAsPrecompiled.
    cbn [Precompiled trace].
    split; [apply bool_decide_eq_true; set_solver|].
    split; [intros Hne; apply bool_decide_ext; set_solver|].
    split; f_equal; set_solver.
Qed.

Section Marks.
Import precompile.

Lemma PrecompilePkg_grows (E : Env) (flags : PrecompileCfg) (S0 : gset ImportPath)
      (fuel : nat) :
  preserving (fun s => S0 ⊆ Precompiled s) (PrecompilePkg E flags fuel).
Proof.
  apply RunFacts.PrecompilePkg_preserving.
  - intros srcPath s H. exact H.
  - intros path content s H. exact H.
  - intros pkgPath s H _. exact H.
  - intros pkgPath s H _. cbn. set_solver.
Qed.

Lemma PrecompilePkg_preserving_singleton (E : Env) (flags : PrecompileCfg)
      (pkgPath : ImportPath) (fuel : nat) :
  preserving (fun s => pkgPath ∈ Precompiled s) (PrecompilePkg E flags fuel).
Proof.
  intros x s s' Hs Hfin.
  assert (Hsub : {[ pkgPath ]} ⊆ Precompiled s') by
    (apply (PrecompilePkg_grows E flags {[ pkgPath ]} fuel x s s'); [set_solver|exact Hfin]).
  set_solver.
Qed.

Lemma PrecompilePkg_marks (E : Env) (flags : PrecompileCfg) (fuel : nat)
      (pkgPath : ImportPath) (s s' : State) :
  finalState (PrecompilePkg E flags fuel pkgPath s) = Some s' ->
  pkgPath ∈ Precompiled s'.
Proof.
  destruct fuel as [|fuel]; [discriminate|].
  intros Hfin.
  assert (Hkeep : forall fuel', preserving (fun st => pkgPath ∈ Precompiled st)
                                           (PrecompilePkg E flags fuel')).
  { intros fuel'.
    apply (PrecompilePkg_preserving_singleton E flags pkgPath fuel'). }
  cbn [PrecompilePkg] in Hfin. unfold IsPrecompiled in Hfin.
  cbn [emit Precompiled] in Hfin.
  destruct (bool_decide (pkgPath ∈ Precompiled s)) eqn:Hmarked.
  - apply bool_decide_eq_true in Hmarked.
    cbn in Hfin. injection Hfin as <-. exact Hmarked.
  - destruct (Glob E (Join E pkgPath "*.gno")) as [err|files].
    + cbn in Hfin. injection Hfin as <-. cbn. set_solver.
    + eapply (RunFacts.eachFile_preserving (fun st => pkgPath ∈ Precompiled st));
        [|shelve|exact Hfin].
      apply (RunFacts.PrecompileFile_preserving E flags
               (fun st => pkgPath ∈ Precompiled st)).
      * intros srcPath st H. exact H.
      * intros path content st H. exact H.
      * apply Hkeep.
      Unshelve. cbn. set_solver.
Qed.

End Marks.

(** X15.  A package is marked whatever happens to it.  When a call of
    [PrecompilePkg] ends, by returning nil, by returning an error or by
    stopping the process, every package that was marked before is still
    marked and the package asked for is marked too.  So a second request for
    the package, even for one whose translation failed, returns nil at once:
    the failure is reported once and the package is not tried again in this
    run. *)
Theorem package_marked_whatever_happens :
  forall (E : Env) (flags : PrecompileCfg) (fuel : nat) (pkgPath : ImportPath)
         (s s' : State),
    precompile.finalState (precompile.PrecompilePkg E flags fuel pkgPath s) = Some s' ->
    Precompiled s ⊆ Precompiled s'
    /\ pkgPath ∈ Precompiled s'
    /\ forall fuel' : nat,
        precompile.PrecompilePkg E flags (S fuel') pkgPath s'
        = precompile.Returns None
            (emit (EvSkipPkg pkgPath) (emit (EvEnterPkg pkgPath) s')).
Proof.
  intros E flags fuel pkgPath s s' Hfin.
  pose proof (PrecompilePkg_marks E flags fuel pkgPath s s' Hfin) as Hmarked.
  split; [|split; [exact Hmarked|]].
  - apply (PrecompilePkg_grows E flags (Precompiled s) fuel pkgPath s s');
      [reflexivity|exact Hfin].
  - intros fuel'. cbn [precompile.PrecompilePkg]. unfold precompile.IsPrecompiled.
    cbn [emit Precompiled].
    rewrite (bool_decide_eq_true_2 _ Hmarked). reflexivity.
Qed.

Lemma package_marked_whatever_happens_witness :
  returned (precompile.PrecompilePkg (Demo.world Demo.pkgTree Demo.printer) Demo.flags 3
              "pkg" (mkState ∅ []))
  <> Some None
  /\ "pkg" ∈ Precompiled DemoExec.pkgFinal
  /\ returned (precompile.PrecompilePkg (Demo.world Demo.pkgTree Demo.printer)
                Demo.flags 1 "pkg" DemoExec.pkgFinal)
     = Some None.
Proof.
  split; [vm_compute; discriminate|].
  assert (Hfin : precompile.finalState
                   (precompile.PrecompilePkg (Demo.world Demo.pkgTree Demo.printer)
                      Demo.flags 3 "pkg" (mkState ∅ []))
                 = Some DemoExec.pkgFinal) by reflexivity.
  destruct (package_marked_whatever_happens (Demo.world Demo.pkgTree Demo.printer)
              Demo.flags 3 "pkg" (mkState ∅ []) DemoExec.pkgFinal Hfin)
    as (_ & Hmarked & Hagain).
  split; [exact Hmarked|]. rewrite (Hagain 0). reflexivity.
Defined.

(** ** One module *)

Section OneModule.
Import precompile.

Lemma enteredPkgs_app (a b : list Event) :
  enteredPkgs (a ++ b) = enteredPkgs a ++ enteredPkgs b.
Proof.
  induction a as [|ev a IH]; [reflexivity|].
  destruct ev; cbn [app enteredPkgs]; rewrite IH; reflexivity.
Qed.

Lemma PrecompileFile_own_error (E : Env) (flags : PrecompileCfg)
      (pkg : ImportPath -> State -> Outcome (option error))
      (srcPath : string) (s s' : State) (err : error) :
  PrecompileFile_ E flags pkg srcPath s = Returns (Some err) s' ->
  Precompiled s' = Precompiled s
  /\ (trace s' = trace s ++ [EvFile srcPath]
      \/ exists path text inner,
           trace s' = trace s ++ [EvFile srcPath; EvWrite path text]
           /\ err = Errorf_w "check .go file: " inner).
Proof.
  unfold PrecompileFile_. intros Hrun.
  destruct (ReadFile E srcPath) as [readErr|source];
    [injection Hrun as <- <-; split; [reflexivity|left; reflexivity]|].
  destruct (GetPrecompileFilenameAndTags srcPath) as [targetFilename tags].
  destruct (Precompile E source tags srcPath) as [[res|] [transErr|]];
    try (injection Hrun as <- <-; split; [reflexivity|left; reflexivity]);
    try discriminate Hrun.
  match type of Hrun with
  | match ?t with inl _ => _ | inr _ => _ end = _ =>
      destruct t as [targetErr|targetPath];
        [injection Hrun as <- <-; split; [reflexivity|left; reflexivity]|]
  end.
  destruct (writeDirFile E targetPath (Translated res)) as [writeErr|];
    [injection Hrun as <- <-; split; [reflexivity|left; reflexivity]|].
  match type of Hrun with
  | match ?t with Some _ => _ | None => _ end = _ =>
      destruct t as [checkErr|]
  end.
  - injection Hrun as <- <-. split; [reflexivity|].
    right. exists targetPath, (Translated res), checkErr.
    split; [|reflexivity]. cbn [emit trace]. rewrite <- List.app_assoc. reflexivity.
  - destruct (SkipImports flags); [discriminate Hrun|].
    destruct (eachImport pkg _ _); discriminate Hrun.
Qed.

Lemma PrecompileFile_skip (E : Env) (flags : PrecompileCfg)
      (pkg pkg' : ImportPath -> State -> Outcome (option error))
      (srcPath : string) (s : State) :
  SkipImports flags = true ->
  PrecompileFile_ E flags pkg srcPath s = PrecompileFile_ E flags pkg' srcPath s
  /\ PrecompileFile_ E flags pkg srcPath s <> OutOfFuel
  /\ forall s', finalState (PrecompileFile_ E flags pkg srcPath s) = Some s' ->
                Precompiled s' = Precompiled s
                /\ enteredPkgs (trace s') = enteredPkgs (trace s).
Proof.
  intros Hskip. unfold PrecompileFile_. rewrite Hskip.
  assert (Hfile : enteredPkgs (trace (emit (EvFile srcPath) s)) = enteredPkgs (trace s)).
  { cbn [emit trace]. rewrite enteredPkgs_app. cbn. apply List.app_nil_r. }
  assert (Hwrite : forall path text,
             enteredPkgs (trace (emit (EvWrite path text) (emit (EvFile srcPath) s)))
             = enteredPkgs (trace s)).
  { intros path text. cbn [emit trace]. rewrite !enteredPkgs_app. cbn.
    rewrite !List.app_nil_r. reflexivity. }
  destruct (ReadFile E srcPath) as [readErr|source].
  { split; [reflexivity|]. split; [discriminate|].
    intros s' H. injection H as <-. split; [reflexivity|exact Hfile]. }
  destruct (GetPrecompileFilenameAndTags srcPath) as [targetFilename tags].
  destruct (Precompile E source tags srcPath) as [[res|] [transErr|]];
    try (split; [reflexivity|]; split; [discriminate|];
         intros s' H; injection H as <-; split; [reflexivity|exact Hfile]).
  match goal with
  | |- context [match ?t with inl _ => _ | inr _ => _ end] =>
      destruct t as [targetErr|targetPath]
  end.
  { split; [reflexivity|]. split; [discriminate|].
    intros s' H. injection H as <-. split; [reflexivity|exact Hfile]. }
  destruct (writeDirFile E targetPath (Translated res)) as [writeErr|].
  { split; [reflexivity|]. split; [discriminate|].
    intros s' H. injection H as <-. split; [reflexivity|exact Hfile]. }
  match goal with
  | |- context [match ?t with Some _ => _ | None => _ end] => destruct t as [checkErr|]
  end;
    (split; [reflexivity|]; split; [discriminate|];
     intros s' H; injection H as <-; split; [reflexivity|apply Hwrite]).
Qed.

End OneModule.

(** X16.  With the flag [skip-imports], [PrecompileFile] touches no other
    package: what it does is the same whatever [PrecompilePkg] would do, it
    needs no recursion, it marks no package and asks for none. *)
Theorem skip_imports_touches_no_package :
  forall (E : Env) (flags : PrecompileCfg) (fuel : nat) (srcPath : string) (s : State),
    SkipImports flags = true ->
    precompile.PrecompileFile E flags fuel srcPath s
    = precompile.PrecompileFile E flags 0 srcPath s
    /\ precompile.PrecompileFile E flags 0 srcPath s <> precompile.OutOfFuel
    /\ forall s',
        precompile.finalState (precompile.PrecompileFile E flags fuel srcPath s) = Some s' ->
        Precompiled s' = Precompiled s
        /\ enteredPkgs (trace s') = enteredPkgs (trace s).
Proof.
  intros E flags fuel srcPath s Hskip. unfold precompile.PrecompileFile.
  destruct (PrecompileFile_skip E flags (precompile.PrecompilePkg E flags fuel)
              (precompile.PrecompilePkg E flags 0) srcPath s Hskip) as (Hsame & _ & Hkeep).
  destruct (PrecompileFile_skip E flags (precompile.PrecompilePkg E flags 0)
              (precompile.PrecompilePkg E flags 0) srcPath s Hskip) as (_ & Hends & _).
  split; [exact Hsame|]. split; [exact Hends|exact Hkeep].
Qed.

Lemma skip_imports_touches_no_package_witness :
  precompile.PrecompileFile (Demo.world Demo.diamondTree Demo.printer) DemoExec.skipFlags 5
    "root/right.gno" (mkState ∅ [])
  = precompile.PrecompileFile (Demo.world Demo.diamondTree Demo.printer)
      DemoExec.skipFlags 0 "root/right.gno" (mkState ∅ []).
Proof.
  apply (skip_imports_touches_no_package (Demo.world Demo.diamondTree Demo.printer)
           DemoExec.skipFlags 5 "root/right.gno" (mkState ∅ [])).
  reflexivity.
Defined.

(** X17.  An error of [PrecompileFile] is the module's own.  When
    [PrecompileFile] returns an error it has neither asked for nor marked any
    package: a failure of an imported package is never what it returns.
    Either nothing was written, or the generated file was written and the
    error is that of the format check, and the file stays where it was
    written. *)
Theorem file_error_is_its_own :
  forall (E : Env) (flags : PrecompileCfg) (fuel : nat) (srcPath : string)
         (s s' : State) (err : error),
    precompile.PrecompileFile E flags fuel srcPath s
    = precompile.Returns (Some err) s' ->
    Precompiled s' = Precompiled s
    /\ (trace s' = trace s ++ [EvFile srcPath]
        \/ exists path text inner,
             trace s' = trace s ++ [EvFile srcPath; EvWrite path text]
             /\ err = Errorf_w "check .go file: " inner).
Proof.
  intros E flags fuel srcPath s s' err Hrun.
  apply (PrecompileFile_own_error E flags _ srcPath s s' err Hrun).
Qed.

Lemma file_error_is_its_own_witness :
  exists (err : error) (s' : State),
    precompile.PrecompileFile (Demo.world Demo.pkgTree Demo.printer) Demo.flags 3
      "pkg/b.gno" (mkState ∅ [])
    = precompile.Returns (Some err) s'
    /\ Precompiled s' = ∅
    /\ (trace s' = [] ++ [EvFile "pkg/b.gno"]
        \/ exists path text inner,
             trace s' = [] ++ [EvFile "pkg/b.gno"; EvWrite path text]
             /\ err = Errorf_w "check .go file: " inner).
Proof.
  eexists _, _. split; [reflexivity|].
  apply (file_error_is_its_own (Demo.world Demo.pkgTree Demo.printer) Demo.flags 3
           "pkg/b.gno" (mkState ∅ [])).
  reflexivity.
Defined.

(** ** The check of a package, phase by phase *)

Section Phases.
Import precompile.
Variable E : Env.
Variable P : State -> Prop.
Hypothesis P_translating : forall ev s, translating ev -> P s -> P (emit ev s).
Hypothesis P_mark : forall pkg s, P s -> P (MarkAsPrecompiled pkg s).

Lemma translation_keeps (flags : PrecompileCfg) (fuel : nat) :
  preserving P (PrecompileFile E flags fuel).
Proof.
  unfold PrecompileFile. apply RunFacts.PrecompileFile_preserving.
  - intros srcPath s Hs. apply P_translating; [exact I|exact Hs].
  - intros path content s Hs. apply P_translating; [exact I|exact Hs].
  - apply RunFacts.PrecompilePkg_preserving.
    + intros srcPath s Hs. apply P_translating; [exact I|exact Hs].
    + intros path content s Hs. apply P_translating; [exact I|exact Hs].
    + intros pkgPath s Hs _. apply P_translating; [exact I|].
      apply P_translating; [exact I|exact Hs].
    + intros pkgPath s Hs _. apply P_translating; [exact I|].
      apply P_mark. apply P_translating; [exact I|exact Hs].
Qed.

Lemma writing_keeps (tmpDir : string) : preserving P (writeMemFiles E tmpDir).
Proof.
  intros files. induction files as [|mfile rest IH]; intros s s' Hs Hfin.
  - simpl in Hfin. injection Hfin as <-. exact Hs.
  - simpl in Hfin.
    destruct (negb (GoStrings.HasSuffix (mf_Name mfile) ".gno")); [eauto|].
    destruct (WriteFile E _ _).
    + simpl in Hfin. injection Hfin as <-. exact Hs.
    + eapply IH; [|exact Hfin]. apply P_translating; [exact I | exact Hs].
Qed.

Lemma writing_never_exits (tmpDir : string) (files : list MemFile) (s s' : State)
      (err : error) :
  writeMemFiles E tmpDir files s <> Stops (Fatal err) s'.
Proof.
  revert s. induction files as [|mfile rest IH]; intros s; [discriminate|].
  simpl. destruct (negb (GoStrings.HasSuffix (mf_Name mfile) ".gno")); [apply IH|].
  destruct (WriteFile E _ _); [discriminate|apply IH].
Qed.

Lemma buildLoop_state (flags : PrecompileCfg) (pkgPaths : list string)
      (errCount : nat) (s : State) :
  snd (buildLoop E flags pkgPaths errCount s)
  = mkState (Precompiled s) (trace s ++ List.map EvBuild pkgPaths).
Proof.
  revert errCount s. induction pkgPaths as [|pkgPath rest IH]; intros errCount s.
  - cbn. rewrite List.app_nil_r. destruct s; reflexivity.
  - cbn [buildLoop]. destruct (GoBuildFileOrPkg E pkgPath flags); rewrite IH;
      cbn [emit Precompiled trace List.map]; rewrite <- List.app_assoc; reflexivity.
Qed.

Lemma cleanLoop_state (paths : list string) (s s' : State) :
  finalState (cleanLoop E paths s) = Some s' ->
  exists cleaned,
    s' = mkState (Precompiled s) (trace s ++ List.map EvClean cleaned)
    /\ (forall u, cleanLoop E paths s = Returns u s' -> cleaned = paths)
    /\ (forall err, cleanLoop E paths s <> Stops (Fatal err) s').
Proof.
  revert s s'. induction paths as [|path rest IH]; intros s s' Hfin.
  - cbn in Hfin. injection Hfin as <-. exists []. cbn. rewrite List.app_nil_r.
    split; [destruct s; reflexivity|]. split; [reflexivity|discriminate].
  - cbn [cleanLoop] in Hfin |- *.
    destruct (CleanGeneratedFiles E path) as [err|].
    + cbn in Hfin. injection Hfin as <-. exists [path].
      split; [reflexivity|]. split; [discriminate|discriminate].
    + destruct (IH _ _ Hfin) as (cleaned & Hs' & Hret & Hfatal).
      exists (path :: cleaned). split.
      { rewrite Hs'. cbn [emit Precompiled trace List.map].
        rewrite <- List.app_assoc. reflexivity. }
      split; [|exact Hfatal].
      intros u Hu. rewrite (Hret u Hu). reflexivity.
Qed.

Lemma precompileAndBuild_phases (fuel : nat) (targetPaths : list string)
      (cfg : option PrecompileCfg) (s s' : State) :
  P s ->
  finalState (precompileAndBuild E fuel targetPaths cfg s) = Some s' ->
  (P s' /\ returned (precompileAndBuild E fuel targetPaths cfg s) <> Some None)
  \/ reachedBuild E P targetPaths (precompileAndBuild E fuel targetPaths cfg s) s'.
Proof.
  intros Hs Hfin. unfold reachedBuild, precompileAndBuild in Hfin |- *.
  destruct (GnoFilesFromArgs E targetPaths) as [err|srcPaths];
    [simpl in Hfin; injection Hfin as <-; left; split; [exact Hs|discriminate]|].
  match type of Hfin with
  | context [precompileLoop E ?c fuel srcPaths 0 s] => set (flags := c) in *
  end.
  assert (Hloop : forall st, finalState (precompileLoop E flags fuel srcPaths 0 s) = Some st ->
                             P st).
  { intros st Hst.
    apply (CheckFacts.precompileLoop_preserving E P translation_keeps
             flags fuel srcPaths 0 s st Hs Hst). }
  destruct (precompileLoop E flags fuel srcPaths 0 s) as [r s1|why s1|] eqn:Hrun;
    [|cbn in Hfin; injection Hfin as <-; left; split;
      [apply Hloop; reflexivity|discriminate]
     |discriminate Hfin].
  assert (Hs1 : P s1) by (apply Hloop; reflexivity).
  cbn [andThen] in Hfin |- *.
  destruct r as [err|[|n]];
    try (cbn in Hfin; injection Hfin as <-; left; split; [exact Hs1|discriminate]).
  destruct (GnoPackagesFromArgs E targetPaths) as [err|pkgPaths];
    [cbn in Hfin; injection Hfin as <-; left; split; [exact Hs1|discriminate]|].
  pose proof (buildLoop_state flags pkgPaths 0 s1) as Hbuild.
  destruct (buildLoop E flags pkgPaths 0 s1) as [errCount s2].
  cbn [snd] in Hbuild. subst s2.
  right. exists srcPaths, pkgPaths, s1.
  set (s2 := mkState (Precompiled s1) (trace s1 ++ List.map EvBuild pkgPaths)) in *.
  destruct (cleanLoop E srcPaths s2) as [u s3|why s3|] eqn:Hclean1;
    [|cbn in Hfin; injection Hfin as Hfin; subst s3|discriminate Hfin].
  - destruct (cleanLoop_state srcPaths s2 s3) as (cleaned1 & Hs3 & Hret1 & _);
      [rewrite Hclean1; reflexivity|].
    rewrite (Hret1 u Hclean1) in Hs3. clear Hret1.
    cbn [andThen] in Hfin |- *.
    assert (Hmarked : Precompiled s3 = Precompiled s1) by (rewrite Hs3; reflexivity).
    destruct (cleanLoop E (elements (Precompiled s3)) s3) as [u' s4|why s4|] eqn:Hclean2;
      [|cbn in Hfin; injection Hfin as Hfin; subst s4|discriminate Hfin].
    + destruct (cleanLoop_state (elements (Precompiled s3)) s3 s4)
        as (cleaned2 & Hs4 & Hret2 & _); [rewrite Hclean2; reflexivity|].
      rewrite (Hret2 u' Hclean2) in Hs4. clear Hret2.
      exists (srcPaths ++ elements (Precompiled s1)).
      split; [reflexivity|]. split; [reflexivity|]. split; [exact Hs1|].
      assert (Hs' : s' = mkState (Precompiled s1)
                                 (trace s1 ++ List.map EvBuild pkgPaths
                                  ++ List.map EvClean (srcPaths ++ elements (Precompiled s1)))).
      { cbn [andThen] in Hfin.
        assert (Hs4' : s4 = s') by (destruct errCount; cbn in Hfin; congruence).
        rewrite <- Hs4', Hs4, Hs3. cbn [Precompiled trace]. subst s2.
        cbn [Precompiled trace]. rewrite List.map_app, <- !List.app_assoc. reflexivity. }
      split; [exact Hs'|]. split.
      * intros r Hr. split; [reflexivity|].
        cbn [andThen] in Hr. destruct errCount as [|n]; cbn in Hr; injection Hr as <-;
          [left; reflexivity|right; exists n; reflexivity].
      * intros err. cbn [andThen]. destruct errCount; discriminate.
    + destruct (cleanLoop_state (elements (Precompiled s3)) s3 s')
        as (cleaned2 & Hs4 & _ & Hfatal); [rewrite Hclean2; reflexivity|].
      exists (srcPaths ++ cleaned2).
      split; [reflexivity|]. split; [reflexivity|]. split; [exact Hs1|].
      split.
      * rewrite Hs4, Hs3. subst s2. cbn [Precompiled trace].
        rewrite List.map_app, <- !List.app_assoc. reflexivity.
      * split; [intros r Hr; discriminate Hr|].
        intros err. cbn [andThen]. intros Heq. injection Heq as Hwhy.
        apply (Hfatal err). rewrite Hclean2, Hwhy. reflexivity.
  - destruct (cleanLoop_state srcPaths s2 s') as (cleaned1 & Hs3 & _ & Hfatal);
      [rewrite Hclean1; reflexivity|].
    exists cleaned1.
    split; [reflexivity|]. split; [reflexivity|]. split; [exact Hs1|].
    split; [rewrite Hs3; subst s2; cbn [Precompiled trace];
            rewrite <- List.app_assoc; reflexivity|].
    split; [intros r Hr; discriminate Hr|].
    intros err. cbn [andThen]. intros Heq. injection Heq as Hwhy.
    apply (Hfatal err). rewrite Hclean1, Hwhy. reflexivity.
Qed.

Lemma mem_phases (fuel : nat) (tmpDir : string) (files : list MemFile)
      (targetPaths : list string) (cfg : option PrecompileCfg) (s s' : State) :
  P s ->
  finalState (andThen (writeMemFiles E tmpDir files s)
                      (fun _ s => precompileAndBuild E fuel targetPaths cfg s)) = Some s' ->
  (P s' /\ returned (andThen (writeMemFiles E tmpDir files s)
                             (fun _ s => precompileAndBuild E fuel targetPaths cfg s))
           <> Some None)
  \/ reachedBuild E P targetPaths
       (andThen (writeMemFiles E tmpDir files s)
                (fun _ s => precompileAndBuild E fuel targetPaths cfg s)) s'.
Proof.
  intros Hs Hfin.
  pose proof (writing_keeps tmpDir files s) as Hwrite.
  destruct (writeMemFiles E tmpDir files s) as [u sw|why sw|]; cbn [andThen] in Hfin |- *.
  - apply precompileAndBuild_phases; [|exact Hfin].
    apply Hwrite; [exact Hs|reflexivity].
  - left. split; [|discriminate]. apply Hwrite; [exact Hs|exact Hfin].
  - discriminate Hfin.
Qed.

End Phases.

Section CheckOutcomes.
Import precompile.

Lemma builtPaths_app (a b : list Event) : builtPaths (a ++ b) = builtPaths a ++ builtPaths b.
Proof. apply List.flat_map_app. Qed.

Lemma cleanedPaths_app (a b : list Event) :
  cleanedPaths (a ++ b) = cleanedPaths a ++ cleanedPaths b.
Proof. apply List.flat_map_app. Qed.

Lemma removedDirs_app (a b : list Event) :
  removedDirs (a ++ b) = removedDirs a ++ removedDirs b.
Proof. apply List.flat_map_app. Qed.

Lemma paths_of_builds (l : list string) :
  builtPaths (List.map EvBuild l) = l
  /\ cleanedPaths (List.map EvBuild l) = []
  /\ removedDirs (List.map EvBuild l) = [].
Proof.
  induction l as [|x l (IH1 & IH2 & IH3)]; [repeat split|].
  cbn. fold (builtPaths (List.map EvBuild l)). fold (cleanedPaths (List.map EvBuild l)).
  fold (removedDirs (List.map EvBuild l)). rewrite IH1, IH2, IH3. repeat split.
Qed.

Lemma paths_of_cleans (l : list string) :
  builtPaths (List.map EvClean l) = []
  /\ cleanedPaths (List.map EvClean l) = l
  /\ removedDirs (List.map EvClean l) = [].
Proof.
  induction l as [|x l (IH1 & IH2 & IH3)]; [repeat split|].
  cbn. fold (builtPaths (List.map EvClean l)). fold (cleanedPaths (List.map EvClean l)).
  fold (removedDirs (List.map EvClean l)). rewrite IH1, IH2, IH3. repeat split.
Qed.

Lemma untouched_translating (ev : Event) (s : State) :
  translating ev -> untouched s -> untouched (emit ev s).
Proof.
  intros Hev [Hb Hc]. unfold untouched. cbn [emit trace].
  rewrite builtPaths_app, cleanedPaths_app, Hb, Hc.
  destruct ev; try contradiction; split; reflexivity.
Qed.

Lemma untouched_mark (pkg : ImportPath) (s : State) :
  untouched s -> untouched (MarkAsPrecompiled pkg s).
Proof. intros H. exact H. Qed.

End CheckOutcomes.

Section CheckTheorems.
Import precompile.

Lemma untouched_after_build (E : Env) (targetPaths : list string)
      (o : Outcome (option error)) (s' : State) (r : option error) :
  reachedBuild E untouched targetPaths o s' ->
  returned o = Some r ->
  exists srcPaths pkgPaths,
    GnoFilesFromArgs E targetPaths = inr srcPaths
    /\ GnoPackagesFromArgs E targetPaths = inr pkgPaths
    /\ builtPaths (trace s') = pkgPaths
    /\ cleanedPaths (trace s') = srcPaths ++ elements (Precompiled s')
    /\ (r = None
        \/ exists n, r = Some (errorString (Strconv.Itoa (S n) +:+ " build errors"))).
Proof.
  intros (srcPaths & pkgPaths & s1 & cleaned & Hsrc & Hpkg & [Hb Hc] & -> & Hret & _) Hr.
  destruct (Hret r Hr) as [-> Hshape].
  exists srcPaths, pkgPaths. split; [exact Hsrc|]. split; [exact Hpkg|].
  cbn [trace Precompiled].
  rewrite !builtPaths_app, !cleanedPaths_app, Hb, Hc.
  destruct (paths_of_builds pkgPaths) as (-> & -> & _).
  destruct (paths_of_cleans (srcPaths ++ elements (Precompiled s1))) as (-> & -> & _).
  cbn [app]. rewrite List.app_nil_r. repeat split. exact Hshape.
Qed.

Lemma counts_differ (n m : nat) :
  Strconv.Itoa n +:+ " precompile errors from addpkg"
  <> Strconv.Itoa m +:+ " build errors".
Proof.
  intros H. apply (f_equal GoStrings.rev) in H.
  rewrite !StringFacts.rev_app in H. discriminate H.
Qed.

Lemma untouched_removal (tmpDir : string) (s : State) :
  untouched s -> untouched (emit (EvRemoveAll tmpDir) s).
Proof.
  intros [Hb Hc]. unfold untouched. cbn [emit trace].
  rewrite builtPaths_app, cleanedPaths_app, Hb, Hc. split; reflexivity.
Qed.

Lemma untouched_start : untouched (mkState ∅ []).
Proof. split; reflexivity. Qed.

Lemma untouched_temp (tmpDir : string) :
  untouched (emit (EvMkdirTemp tmpDir) (mkState ∅ [])).
Proof. split; reflexivity. Qed.

(** What a check that returned has built and cleaned. *)
Lemma check_returned (E : Env) (fuel : nat) (isMem : bool) (mempkg : MemPackage)
      (paths : list string) (cfg : option PrecompileCfg) (r : option error) (s' : State) :
  PrecompileAndCheckPkg E fuel isMem mempkg paths cfg = Returns r s' ->
  (untouched s' /\ r <> None)
  \/ exists targetPaths srcPaths pkgPaths,
       (isMem = false -> targetPaths = paths)
       /\ GnoFilesFromArgs E targetPaths = inr srcPaths
       /\ GnoPackagesFromArgs E targetPaths = inr pkgPaths
       /\ builtPaths (trace s') = pkgPaths
       /\ cleanedPaths (trace s') = srcPaths ++ elements (Precompiled s')
       /\ (r = None
           \/ exists n, r = Some (errorString (Strconv.Itoa (S n) +:+ " build errors"))).
Proof.
  unfold PrecompileAndCheckPkg. intros Hrun. destruct isMem.
  - destruct (Abs E EmptyString) as [err|absPath]; [discriminate Hrun|].
    destruct (MkdirTemp E absPath (mp_Name mempkg)) as [err|tmpDir].
    { injection Hrun as <- <-. left. split; [exact untouched_start|discriminate]. }
    match type of Hrun with
    | deferRemoveAll _ ?inner = _ => destruct inner as [r0 s0|[e|e] s0|] eqn:Hinner
    end; try discriminate Hrun.
    cbn [deferRemoveAll] in Hrun. injection Hrun as -> <-.
    destruct (mem_phases E untouched untouched_translating untouched_mark fuel tmpDir
                (mp_Files mempkg) [tmpDir] cfg _ s0 (untouched_temp tmpDir))
      as [[Hs0 Hr]|Hbuilt].
    + rewrite Hinner. reflexivity.
    + left. split; [apply untouched_removal, Hs0|].
      rewrite Hinner in Hr. cbn in Hr. congruence.
    + right. rewrite Hinner in Hbuilt.
      destruct (untouched_after_build E [tmpDir] _ s0 r Hbuilt eq_refl)
        as (srcPaths & pkgPaths & Hsrc & Hpkg & Hb & Hc & Hshape).
      exists [tmpDir], srcPaths, pkgPaths.
      split; [discriminate|]. split; [exact Hsrc|]. split; [exact Hpkg|].
      cbn [emit trace Precompiled]. rewrite builtPaths_app, cleanedPaths_app, Hb, Hc.
      cbn. rewrite !List.app_nil_r. repeat split. exact Hshape.
  - destruct (precompileAndBuild_phases E untouched untouched_translating untouched_mark
                fuel paths cfg (mkState ∅ []) s' untouched_start)
      as [[Hs' Hr]|Hbuilt].
    + rewrite Hrun. reflexivity.
    + left. split; [exact Hs'|]. rewrite Hrun in Hr. cbn in Hr. congruence.
    + right. rewrite Hrun in Hbuilt.
      destruct (untouched_after_build E paths _ s' r Hbuilt eq_refl)
        as (srcPaths & pkgPaths & Hrest).
      exists paths, srcPaths, pkgPaths. split; [reflexivity|exact Hrest].
Qed.

End CheckTheorems.

(** X18.  A check that succeeds has built and cleaned everything.  When
    [PrecompileAndCheckPkg] returns nil, every package path of the targets
    was handed to the build, in order, and the cleaning was asked first for
    every source path of the targets, in order, and then once for every
    package that the run marked as precompiled, in the order in which the
    set is ranged over. *)
Theorem successful_check_cleans_everything :
  forall (E : Env) (fuel : nat) (isMem : bool) (mempkg : precompile.MemPackage)
         (paths : list string) (cfg : option PrecompileCfg) (s' : State),
    precompile.PrecompileAndCheckPkg E fuel isMem mempkg paths cfg
    = precompile.Returns None s' ->
    exists targetPaths srcPaths pkgPaths marked,
      (isMem = false -> targetPaths = paths)
      /\ GnoFilesFromArgs E targetPaths = inr srcPaths
      /\ GnoPackagesFromArgs E targetPaths = inr pkgPaths
      /\ builtPaths (trace s') = pkgPaths
      /\ cleanedPaths (trace s') = srcPaths ++ marked
      /\ Permutation marked (elements (Precompiled s')).
Proof.
  intros E fuel isMem mempkg paths cfg s' Hrun.
  destruct (check_returned E fuel isMem mempkg paths cfg None s' Hrun)
    as [[_ Hr]|(targetPaths & srcPaths & pkgPaths & H1 & H2 & H3 & H4 & H5 & _)].
  - exfalso. apply Hr. reflexivity.
  - exists targetPaths, srcPaths, pkgPaths, (elements (Precompiled s')).
    repeat split; assumption || reflexivity.
Qed.

Lemma successful_check_cleans_everything_witness :
  exists marked,
    builtPaths (trace DemoExec.goodFinal) = [ "pkg" ]
    /\ cleanedPaths (trace DemoExec.goodFinal) = [ "pkg/a.gno" ] ++ marked
    /\ Permutation marked (elements (Precompiled DemoExec.goodFinal)).
Proof.
  destruct (successful_check_cleans_everything
              (Demo.world [ Demo.a_gno; Demo.avl ] Demo.printer) 3 false
              (precompile.mkMemPackage EmptyString EmptyString []) [ "pkg" ]
              (Some Demo.flags) DemoExec.goodFinal eq_refl)
    as (targetPaths & srcPaths & pkgPaths & marked
        & Htargets & Hsrc & Hpkg & Hbuilt & Hcleaned & Hperm).
  rewrite (Htargets eq_refl) in Hsrc, Hpkg.
  injection Hsrc as <-. injection Hpkg as <-.
  exists marked. split; [exact Hbuilt|]. split; [exact Hcleaned|exact Hperm].
Defined.

(** X19.  After a translation error nothing is built and nothing is
    cleaned.  When [PrecompileAndCheckPkg] returns the count of the
    translation errors, no package was handed to the build and the cleaning
    was asked for no path: whatever the modules that did translate have
    written stays on disk. *)
Theorem translation_errors_skip_build_and_cleaning :
  forall (E : Env) (fuel : nat) (isMem : bool) (mempkg : precompile.MemPackage)
         (paths : list string) (cfg : option PrecompileCfg) (n : nat) (s' : State),
    precompile.PrecompileAndCheckPkg E fuel isMem mempkg paths cfg
    = precompile.Returns
        (Some (errorString (Strconv.Itoa n +:+ " precompile errors from addpkg"))) s' ->
    builtPaths (trace s') = [] /\ cleanedPaths (trace s') = [].
Proof.
  intros E fuel isMem mempkg paths cfg n s' Hrun.
  destruct (check_returned E fuel isMem mempkg paths cfg _ s' Hrun)
    as [[Hs' _]|(_ & _ & _ & _ & _ & _ & _ & _ & [Hr|[m Hr]])].
  - exact Hs'.
  - discriminate Hr.
  - injection Hr as Hr. exfalso. apply (counts_differ n (S m) Hr).
Qed.

Lemma translation_errors_skip_build_and_cleaning_witness :
  builtPaths (trace DemoExec.failedFinal) = []
  /\ cleanedPaths (trace DemoExec.failedFinal) = [].
Proof.
  apply (translation_errors_skip_build_and_cleaning
           (Demo.world Demo.memTree Demo.printer) 3 true Demo.memPkg [] None 1
           DemoExec.failedFinal).
  reflexivity.
Defined.

Section TempDir.
Import precompile.

Lemma tempOpen_translating (tmpDir : string) (ev : Event) (s : State) :
  translating ev -> tempOpen tmpDir s -> tempOpen tmpDir (emit ev s).
Proof.
  intros Hev (mid & Htrace & Hmid). exists (mid ++ [ev]). cbn [emit trace].
  rewrite Htrace, removedDirs_app, Hmid. split; [reflexivity|].
  destruct ev; try contradiction; reflexivity.
Qed.

Lemma tempOpen_mark (tmpDir : string) (pkg : ImportPath) (s : State) :
  tempOpen tmpDir s -> tempOpen tmpDir (MarkAsPrecompiled pkg s).
Proof. intros H. exact H. Qed.

Lemma tempOpen_after_build (E : Env) (tmpDir : string) (targetPaths : list string)
      (o : Outcome (option error)) (s' : State) :
  reachedBuild E (tempOpen tmpDir) targetPaths o s' -> tempOpen tmpDir s'.
Proof.
  intros (srcPaths & pkgPaths & s1 & cleaned & _ & _ & (mid & Htrace & Hmid) & -> & _).
  exists (mid ++ List.map EvBuild pkgPaths ++ List.map EvClean cleaned).
  cbn [trace]. rewrite Htrace, !removedDirs_app, Hmid.
  destruct (paths_of_builds pkgPaths) as (_ & _ & ->).
  destruct (paths_of_cleans cleaned) as (_ & _ & ->).
  split; reflexivity.
Qed.

End TempDir.

(** X20.  The temporary directory of a check in memory.  Once the
    directory is made, however [PrecompileAndCheckPkg] ends, the directory
    was made before anything else and is not removed on the way.  When the
    call returns or panics, removing the directory is the last thing that
    happens.  When the process exits, on the fatal error of a pattern that
    cannot be globbed, the directory is never removed and stays on disk. *)
Theorem temp_dir_removed_unless_process_exits :
  forall (E : Env) (fuel : nat) (mempkg : precompile.MemPackage) (paths : list string)
         (cfg : option PrecompileCfg) (absPath tmpDir : string) (s' : State),
    Abs E EmptyString = inr absPath ->
    MkdirTemp E absPath (precompile.mp_Name mempkg) = inr tmpDir ->
    precompile.finalState (precompile.PrecompileAndCheckPkg E fuel true mempkg paths cfg)
    = Some s' ->
    exists mid,
      removedDirs mid = []
      /\ trace s'
         = EvMkdirTemp tmpDir
           :: mid ++ match precompile.PrecompileAndCheckPkg E fuel true mempkg paths cfg with
                     | precompile.Stops (precompile.Fatal _) _ => []
                     | _ => [EvRemoveAll tmpDir]
                     end.
Proof.
  intros E fuel mempkg paths cfg absPath tmpDir s' Habs Hmk.
  unfold precompile.PrecompileAndCheckPkg. rewrite Habs, Hmk.
  set (s0 := emit (EvMkdirTemp tmpDir) (mkState ∅ [])).
  assert (Hs0 : tempOpen tmpDir s0) by (exists []; split; reflexivity).
  pose proof (mem_phases E (tempOpen tmpDir) (tempOpen_translating tmpDir)
                (tempOpen_mark tmpDir) fuel tmpDir (precompile.mp_Files mempkg)
                [tmpDir] cfg s0) as Hphases.
  destruct (precompile.andThen _ _) as [r s1|[err|err] s1|]; cbn; intros Hfin;
    try discriminate Hfin; injection Hfin as <-.
  - destruct (Hphases s1 Hs0 eq_refl) as [[Hopen _]|Hbuilt];
      [|apply tempOpen_after_build in Hbuilt as Hopen];
      destruct Hopen as (mid & Htrace & Hmid); exists mid;
      (split; [exact Hmid|]); cbn [emit trace]; rewrite Htrace; reflexivity.
  - destruct (Hphases s1 Hs0 eq_refl) as [[Hopen _]|Hbuilt];
      [|apply tempOpen_after_build in Hbuilt as Hopen];
      destruct Hopen as (mid & Htrace & Hmid); exists mid;
      (split; [exact Hmid|]); rewrite Htrace, List.app_nil_r; reflexivity.
  - destruct (Hphases s1 Hs0 eq_refl) as [[Hopen _]|Hbuilt];
      [|apply tempOpen_after_build in Hbuilt as Hopen];
      destruct Hopen as (mid & Htrace & Hmid); exists mid;
      (split; [exact Hmid|]); cbn [emit trace]; rewrite Htrace; reflexivity.
Qed.

Lemma temp_dir_removed_unless_process_exits_witness :
  (exists mid,
      removedDirs mid = []
      /\ trace DemoExec.failedFinal
         = EvMkdirTemp "/work/pkg123" :: mid ++ [EvRemoveAll "/work/pkg123"])
  /\ (exists mid,
         removedDirs mid = []
         /\ trace DemoExec.badGlobFinal = EvMkdirTemp "/work/pkg123" :: mid ++ []).
Proof.
  split.
  - apply (temp_dir_removed_unless_process_exits
             (Demo.world Demo.memTree Demo.printer) 3 Demo.memPkg [] None
             "/work" "/work/pkg123" DemoExec.failedFinal);
      reflexivity.
  - apply (temp_dir_removed_unless_process_exits
             DemoExec.badGlobEnv 3 Demo.memPkg [] None
             "/work" "/work/pkg123" DemoExec.badGlobFinal);
      reflexivity.
Defined.

(** ** What the normalization keeps *)

Section Segments.
Import GoStrings StringFacts SplitFacts.

Lemma Index_Some_factor (s sep : string) (n : nat) :
  Index s sep = Some n ->
  exists rest, s = take n s +:+ sep +:+ rest /\ String.length (take n s) = n.
Proof.
  revert n. induction s as [|c s IH]; intros n H.
  - cbn [Index] in H. destruct (HasPrefix EmptyString sep) eqn:Hp; [|discriminate H].
    injection H as <-. apply HasPrefix_iff in Hp as [rest Hrest].
    exists rest. split; [exact Hrest|reflexivity].
  - destruct n as [|n].
    + cbn [Index] in H. destruct (HasPrefix (String c s) sep) eqn:Hp.
      * apply HasPrefix_iff in Hp as [rest Hrest]. exists rest.
        split; [exact Hrest|reflexivity].
      * destruct (Index s sep); discriminate H.
    + apply Index_cons_S in H as [_ H].
      destruct (IH n H) as (rest & Hrest & Hlen).
      exists rest. cbn [take String.length]. rewrite app_cons, <- Hrest, Hlen.
      split; reflexivity.
Qed.

Lemma split_go_head (sep rest : string) :
  sep <> EmptyString ->
  exists tail, split_go sep rest 0 EmptyString = upTo sep rest :: tail.
Proof.
  intros Hsep. unfold upTo. destruct (Index rest sep) as [m|] eqn:Hi.
  - destruct (Index_Some_factor rest sep m Hi) as (rest' & Hrest & Hlen).
    remember (take m rest) as pre eqn:Hpre.
    assert (Hi' : Index (pre +:+ sep +:+ rest') sep = Some (String.length pre))
      by (rewrite <- Hrest, Hlen; exact Hi).
    rewrite Hrest.
    rewrite (split_go_first sep pre rest' EmptyString Hsep Hi').
    eexists. reflexivity.
  - rewrite (split_go_none sep rest EmptyString Hi). eexists. reflexivity.
Qed.

Lemma normalize_segment (sep input path : string) (n : nat) :
  sep <> EmptyString ->
  Index (TrimSpace input) sep = Some n ->
  exists rest,
    TrimSpace input = take n (TrimSpace input) +:+ sep +:+ rest
    /\ match Split (TrimSpace input) sep with
       | _ :: part1 :: _ => path +:+ part1
       | _ => TrimSpace input
       end = path +:+ upTo sep rest.
Proof.
  intros Hsep Hi.
  destruct (Index_Some_factor _ sep n Hi) as (rest & Hrest & Hlen).
  exists rest. split; [exact Hrest|].
  remember (take n (TrimSpace input)) as pre eqn:Hpre.
  assert (Hi' : Index (pre +:+ sep +:+ rest) sep = Some (String.length pre))
    by (rewrite <- Hrest, Hlen; exact Hi).
  unfold Split. rewrite Hrest.
  rewrite (split_go_first sep pre rest EmptyString Hsep Hi').
  destruct (split_go_head sep rest Hsep) as [tail ->]. reflexivity.
Qed.

End Segments.

(** X21.  What the normalization keeps of a text with the entry file
    name.  When the trimmed text contains the entry file name, the normalized
    text is the logical path followed by what stands between the first
    occurrence of the name and the next one (or the end): the text before
    the first occurrence is dropped, and so is everything from the second
    occurrence on.  This holds for [parseResult] with [main.gno.gen.go] and
    for [identifyCommandLineArguments] with [main.go]. *)
Theorem normalization_keeps_one_segment :
  forall (input path : string) (n : nat),
    (GoStrings.Index (GoStrings.TrimSpace input) "main.gno.gen.go" = Some n ->
     exists rest,
       GoStrings.TrimSpace input
       = GoStrings.take n (GoStrings.TrimSpace input) +:+ "main.gno.gen.go" +:+ rest
       /\ fst (precompile.parseResult input path)
          = path +:+ upTo "main.gno.gen.go" rest)
    /\ (GoStrings.Index (GoStrings.TrimSpace input) "main.go" = Some n ->
        exists rest,
          GoStrings.TrimSpace input
          = GoStrings.take n (GoStrings.TrimSpace input) +:+ "main.go" +:+ rest
          /\ fst (gnolang.identifyCommandLineArguments input path)
             = path +:+ upTo "main.go" rest).
Proof.
  intros input path n. split; intros Hi.
  - rewrite parseResult_fst.
    apply (normalize_segment "main.gno.gen.go" input path n); [discriminate|exact Hi].
  - rewrite identifyCommandLineArguments_fst.
    apply (normalize_segment "main.go" input path n); [discriminate|exact Hi].
Qed.

Lemma normalization_keeps_one_segment_witness :
  exists rest,
    GoStrings.TrimSpace
      ("# command-line-arguments" +:+ nl
       +:+ "./main.gno.gen.go:5:2: x declared and not used" +:+ nl
       +:+ "./main.gno.gen.go:12: undefined: X" +:+ nl)
    = GoStrings.take 27
        (GoStrings.TrimSpace
           ("# command-line-arguments" +:+ nl
            +:+ "./main.gno.gen.go:5:2: x declared and not used" +:+ nl
            +:+ "./main.gno.gen.go:12: undefined: X" +:+ nl))
      +:+ "main.gno.gen.go" +:+ rest
    /\ fst (precompile.parseResult
              ("# command-line-arguments" +:+ nl
               +:+ "./main.gno.gen.go:5:2: x declared and not used" +:+ nl
               +:+ "./main.gno.gen.go:12: undefined: X" +:+ nl)
              "p.gno")
       = "p.gno" +:+ upTo "main.gno.gen.go" rest.
Proof.
  apply (normalization_keeps_one_segment
           ("# command-line-arguments" +:+ nl
            +:+ "./main.gno.gen.go:5:2: x declared and not used" +:+ nl
            +:+ "./main.gno.gen.go:12: undefined: X" +:+ nl)
           "p.gno" 27).
  reflexivity.
Defined.

(** ** What is written *)

Section Headers.
Import precompile.

Lemma tags_of_kind (srcPath : string) :
  In (snd (GetPrecompileFilenameAndTags srcPath))
     [ "gno"; "gno && test"; "gno && filetest" ].
Proof.
  unfold GetPrecompileFilenameAndTags.
  destruct (GoStrings.HasSuffix srcPath "_filetest.gno"); [cbn; tauto|].
  destruct (GoStrings.HasSuffix srcPath "_test.gno"); cbn; tauto.
Qed.

Lemma Precompile_header (E : Env) (source tags filename : string)
      (res : precompileResult) :
  In tags [ "gno"; "gno && test"; "gno && filetest" ] ->
  Precompile E source tags filename = (Some res, None) ->
  headedText (Translated res).
Proof.
  intros Htags. unfold Precompile.
  destruct (ParseFile E filename source) as [err|f]; [discriminate|].
  destruct (precompileAST E f _) as [transformed [err|]]; [discriminate|].
  destruct (format_Node E transformed) as [written printErr].
  intros H. injection H as <-. cbn [Translated].
  exists tags, written. split; [exact Htags|].
  assert (Hno : String.eqb tags "no_header" = false
                /\ String.eqb tags EmptyString = false).
  { cbn in Htags. destruct Htags as [<-|[<-|[<-|[]]]]; split; reflexivity. }
  destruct Hno as [-> ->].
  rewrite !StringFacts.app_assoc. reflexivity.
Qed.

Lemma wroteHeaded_refl (s : State) : wroteHeaded s s.
Proof. exists []. split; [rewrite List.app_nil_r; reflexivity|constructor]. Qed.

Lemma wroteHeaded_emit (s0 s : State) (ev : Event) :
  headed ev -> wroteHeaded s0 s -> wroteHeaded s0 (emit ev s).
Proof.
  intros Hev (tr & Htrace & Htr). exists (tr ++ [ev]). cbn [emit trace].
  rewrite Htrace, <- List.app_assoc. split; [reflexivity|].
  apply Forall_app. split; [exact Htr|]. constructor; [exact Hev|constructor].
Qed.

Lemma PrecompileFile_headed (E : Env) (flags : PrecompileCfg) (s0 : State)
      (pkg : ImportPath -> State -> Outcome (option error)) :
  preserving (wroteHeaded s0) pkg ->
  preserving (wroteHeaded s0) (PrecompileFile_ E flags pkg).
Proof.
  intros Hpkg srcPath s s' Hs Hfin. unfold PrecompileFile_ in Hfin.
  pose proof (wroteHeaded_emit s0 s (EvFile srcPath) I Hs) as Hs1.
  destruct (ReadFile E srcPath) as [readErr|source];
    [cbn in Hfin; injection Hfin as <-; exact Hs1|].
  pose proof (tags_of_kind srcPath) as Htags.
  destruct (GetPrecompileFilenameAndTags srcPath) as [targetFilename tags].
  cbn [snd] in Htags.
  pose proof (Precompile_header E source tags srcPath) as Hheader.
  destruct (Precompile E source tags srcPath) as [[res|] [transErr|]];
    try (cbn in Hfin; injection Hfin as <-; exact Hs1).
  specialize (Hheader res Htags eq_refl).
  match type of Hfin with
  | context [match ?t with inl _ => _ | inr _ => _ end] =>
      destruct t as [targetErr|targetPath];
        [cbn in Hfin; injection Hfin as <-; exact Hs1|]
  end.
  destruct (writeDirFile E targetPath (Translated res)) as [writeErr|];
    [cbn in Hfin; injection Hfin as <-; exact Hs1|].
  pose proof (wroteHeaded_emit s0 _ (EvWrite targetPath (Translated res)) Hheader Hs1)
    as Hs2.
  match type of Hfin with
  | context [match ?t with Some _ => _ | None => _ end] =>
      destruct t as [checkErr|]; [cbn in Hfin; injection Hfin as <-; exact Hs2|]
  end.
  destruct (SkipImports flags); [cbn in Hfin; injection Hfin as <-; exact Hs2|].
  pose proof (RunFacts.eachImport_preserving (wroteHeaded s0) pkg Hpkg
                (getPathsFromImportSpec E (res_Imports res)) _ s' Hs2) as Himports.
  destruct (eachImport pkg _ _) as [u s3|why s3|]; [| |discriminate Hfin];
    cbn in Hfin; injection Hfin as <-; apply Himports; reflexivity.
Qed.

Lemma PrecompilePkg_headed (E : Env) (flags : PrecompileCfg) (s0 : State) (fuel : nat) :
  preserving (wroteHeaded s0) (PrecompilePkg E flags fuel).
Proof.
  induction fuel as [|fuel IH]; intros pkgPath s s' Hs Hfin; [discriminate Hfin|].
  cbn [PrecompilePkg] in Hfin.
  pose proof (wroteHeaded_emit s0 s (EvEnterPkg pkgPath) I Hs) as Hs1.
  destruct (IsPrecompiled pkgPath (emit (EvEnterPkg pkgPath) s)).
  - cbn in Hfin. injection Hfin as <-.
    apply (wroteHeaded_emit s0 _ (EvSkipPkg pkgPath) I Hs1).
  - assert (Hs2 : wroteHeaded s0 (emit (EvTranslatePkg pkgPath)
                                       (MarkAsPrecompiled pkgPath
                                          (emit (EvEnterPkg pkgPath) s)))).
    { apply (wroteHeaded_emit s0 _ (EvTranslatePkg pkgPath) I). exact Hs1. }
    destruct (Glob E (Join E pkgPath "*.gno")) as [err|files].
    + cbn in Hfin. injection Hfin as <-. exact Hs2.
    + eapply (RunFacts.eachFile_preserving (wroteHeaded s0) _
                (PrecompileFile_headed E flags s0 _ IH)); [exact Hs2|exact Hfin].
Qed.

End Headers.

(** X22.  Every file that the translation writes is marked as generated.
    Whatever a call of [PrecompilePkg] or [PrecompileFile] writes, for the
    module itself or for a module of a package it imports, begins with the
    header [Code generated ... DO NOT EDIT], an empty line and a build
    constraint [//go:build] with the tags [gno], [gno && test] or
    [gno && filetest].  The calls only add to the trace of the run. *)
Theorem written_files_are_marked_generated :
  forall (E : Env) (flags : PrecompileCfg) (fuel : nat) (path : string) (s s' : State),
    (precompile.finalState (precompile.PrecompilePkg E flags fuel path s) = Some s'
     \/ precompile.finalState (precompile.PrecompileFile E flags fuel path s) = Some s') ->
    exists tr,
      trace s' = trace s ++ tr
      /\ forall target text,
          In (EvWrite target text) tr ->
          exists tags body,
            In tags [ "gno"; "gno && test"; "gno && filetest" ]
            /\ text = precompile.generatedHeader +:+ "//go:build " +:+ tags
                      +:+ nl +:+ nl +:+ body.
Proof.
  intros E flags fuel path s s' Hfin.
  assert (Hrun : wroteHeaded s s').
  { destruct Hfin as [Hfin|Hfin].
    - apply (PrecompilePkg_headed E flags s fuel path s s' (wroteHeaded_refl s) Hfin).
    - apply (PrecompileFile_headed E flags s _ (PrecompilePkg_headed E flags s fuel)
               path s s' (wroteHeaded_refl s) Hfin). }
  destruct Hrun as (tr & Htrace & Htr). exists tr. split; [exact Htrace|].
  intros target text Hin. rewrite List.Forall_forall in Htr.
  apply (Htr _ Hin).
Qed.

Lemma written_files_are_marked_generated_witness :
  exists tr,
    trace Demo.diamondFinal = [] ++ tr
    /\ forall target text,
        In (EvWrite target text) tr ->
        exists tags body,
          In tags [ "gno"; "gno && test"; "gno && filetest" ]
          /\ text = precompile.generatedHeader +:+ "//go:build " +:+ tags
                    +:+ nl +:+ nl +:+ body.
Proof.
  apply (written_files_are_marked_generated (Demo.world Demo.diamondTree Demo.printer)
           Demo.flags 3 "root" (mkState ∅ []) Demo.diamondFinal).
  left. reflexivity.
Defined.

(** ** The first failure *)

Section FirstFailure.
Import precompile.

Lemma eachFile_error (file_ : string -> State -> Outcome (option error))
      (files : list string) (s s' : State) (err : error) :
  eachFile file_ files s = Returns (Some err) s' ->
  exists file inner s1,
    In file files
    /\ file_ file s1 = Returns (Some inner) s'
    /\ err = Errorf_w (file +:+ ": ") inner.
Proof.
  revert s. induction files as [|file rest IH]; intros s Hrun; [discriminate Hrun|].
  cbn [eachFile] in Hrun.
  destruct (file_ file s) as [[inner|] s1|why s1|] eqn:Hfile; try discriminate Hrun.
  - injection Hrun as <- <-. exists file, inner, s.
    split; [left; reflexivity|]. split; [exact Hfile|reflexivity].
  - destruct (IH s1 Hrun) as (file' & inner & s2 & Hin & Hcall & Herr).
    exists file', inner, s2. split; [right; exact Hin|]. split; assumption.
Qed.

Lemma last_file_of_failure (tr : list Event) (file : string) (rest : list Event) :
  filesOf rest = [] ->
  last (filesOf (tr ++ EvFile file :: rest)) = Some file.
Proof.
  intros Hrest. rewrite FileFacts.filesOf_app.
  change (filesOf (EvFile file :: rest)) with (file :: filesOf rest).
  rewrite Hrest. apply last_snoc.
Qed.

End FirstFailure.



(** ** The whole check comes to an end *)

Section CheckEnds.
Import precompile.
Variable E : Env.

Lemma cleanLoop_ends (paths : list string) (s : State) :
  cleanLoop E paths s <> OutOfFuel.
Proof.
  revert s. induction paths as [|path rest IH]; intros s; [discriminate|].
  cbn [cleanLoop]. destruct (CleanGeneratedFiles E path); [discriminate|apply IH].
Qed.

Lemma writeMemFiles_ends (tmpDir : string) (files : list MemFile) (s : State) :
  writeMemFiles E tmpDir files s <> OutOfFuel.
Proof.
  revert s. induction files as [|mfile rest IH]; intros s; [discriminate|].
  cbn [writeMemFiles].
  destruct (negb (GoStrings.HasSuffix (mf_Name mfile) ".gno")); [apply IH|].
  destruct (WriteFile E _ _); [discriminate|apply IH].
Qed.

Variables fuel fuel' : nat.
Hypothesis file_ends :
  forall flags srcPath s, PrecompileFile E flags fuel srcPath s <> OutOfFuel.
Hypothesis file_same :
  forall flags srcPath s,
    PrecompileFile E flags fuel' srcPath s = PrecompileFile E flags fuel srcPath s.

Lemma precompileLoop_ends (flags : PrecompileCfg) (srcPaths : list string)
      (errCount : nat) (s : State) :
  precompileLoop E flags fuel srcPaths errCount s <> OutOfFuel
  /\ precompileLoop E flags fuel' srcPaths errCount s
     = precompileLoop E flags fuel srcPaths errCount s.
Proof.
  revert errCount s. induction srcPaths as [|srcPath rest IH]; intros errCount s.
  - split; [discriminate|reflexivity].
  - cbn [precompileLoop]. rewrite file_same.
    pose proof (file_ends flags srcPath s) as Hends.
    destruct (PrecompileFile E flags fuel srcPath s) as [err s1|why s1|];
      [|split; [discriminate|reflexivity]|contradiction].
    cbn [andThen].
    destruct (ReadDir E (Dir E srcPath)) as [e|fileInfos];
      [split; [discriminate|reflexivity]|].
    destruct (readEach E srcPath fileInfos); [split; [discriminate|reflexivity]|].
    apply IH.
Qed.

Lemma precompileAndBuild_ends (targetPaths : list string) (cfg : option PrecompileCfg)
      (s : State) :
  precompileAndBuild E fuel targetPaths cfg s <> OutOfFuel
  /\ precompileAndBuild E fuel' targetPaths cfg s
     = precompileAndBuild E fuel targetPaths cfg s.
Proof.
  unfold precompileAndBuild.
  destruct (GnoFilesFromArgs E targetPaths) as [err|srcPaths];
    [split; [discriminate|reflexivity]|].
  match goal with
  | |- context [precompileLoop E ?c fuel srcPaths 0 s] =>
      destruct (precompileLoop_ends c srcPaths 0 s) as [Hends Hsame]
  end.
  rewrite Hsame. split; [|reflexivity].
  match goal with
  | |- andThen ?loop _ <> _ => destruct loop as [r s1|why s1|]
  end; [|discriminate|contradiction].
  cbn [andThen]. destruct r as [err|[|n]]; try discriminate.
  destruct (GnoPackagesFromArgs E targetPaths) as [err|pkgPaths]; [discriminate|].
  destruct (buildLoop E _ pkgPaths 0 s1) as [errCount s2].
  pose proof (cleanLoop_ends srcPaths s2) as Hclean1.
  destruct (cleanLoop E srcPaths s2) as [u s3|why s3|]; [|discriminate|contradiction].
  cbn [andThen].
  pose proof (cleanLoop_ends (elements (Precompiled s3)) s3) as Hclean2.
  destruct (cleanLoop E (elements (Precompiled s3)) s3) as [u' s4|why s4|];
    [|discriminate|contradiction].
  cbn [andThen]. destruct errCount; discriminate.
Qed.

Lemma PrecompileAndCheckPkg_ends (isMem : bool) (mempkg : MemPackage)
      (paths : list string) (cfg : option PrecompileCfg) :
  PrecompileAndCheckPkg E fuel isMem mempkg paths cfg <> OutOfFuel
  /\ PrecompileAndCheckPkg E fuel' isMem mempkg paths cfg
     = PrecompileAndCheckPkg E fuel isMem mempkg paths cfg.
Proof.
  unfold PrecompileAndCheckPkg. destruct isMem; [|apply precompileAndBuild_ends].
  destruct (Abs E EmptyString) as [err|absPath]; [split; [discriminate|reflexivity]|].
  destruct (MkdirTemp E absPath (mp_Name mempkg)) as [err|tmpDir];
    [split; [discriminate|reflexivity]|].
  pose proof (writeMemFiles_ends tmpDir (mp_Files mempkg)
                (emit (EvMkdirTemp tmpDir) (mkState ∅ []))) as Hwrite.
  destruct (writeMemFiles E tmpDir (mp_Files mempkg) _) as [u s1|[err|err] s1|];
    [|split; [discriminate|reflexivity]|split; [discriminate|reflexivity]|contradiction].
  cbn [andThen].
  destruct (precompileAndBuild_ends [tmpDir] cfg s1) as [Hends Hsame].
  rewrite Hsame. split; [|reflexivity].
  destruct (precompileAndBuild E fuel [tmpDir] cfg s1) as [r s2|[err|err] s2|];
    [discriminate|discriminate|discriminate|contradiction].
Qed.

End CheckEnds.



(** ** How the programs are run *)

Section RunSteps.
Import precompile_exec.

Lemma runMemFile_steps (E : Env) (W : Sys) (tmpDir path : string)
      (mfile : precompile.MemFile) (output : string) :
  Forall (fun eff =>
            let target :=
              fst (precompile.GetPrecompileFilenameAndTags (precompile.mf_Name mfile)) in
            (exists text, eff = Wrote (Join E tmpDir target) text /\ headedText text)
            \/ eff = Ran tmpDir [ "go"; "run"; target ])
         (snd (runMemFile E W tmpDir path mfile output)).
Proof.
  unfold runMemFile.
  pose proof (tags_of_kind (precompile.mf_Name mfile)) as Htags.
  destruct (precompile.GetPrecompileFilenameAndTags (precompile.mf_Name mfile))
    as [targetFileName tags].
  cbn [fst snd] in Htags |- *.
  pose proof (Precompile_header E (precompile.mf_Body mfile) tags
                (precompile.mf_Name mfile)) as Hheader.
  destruct (precompile.Precompile E (precompile.mf_Body mfile) tags
              (precompile.mf_Name mfile)) as [[res|] [err|]]; try constructor.
  destruct (WriteFile E _ _) as [err|]; [constructor|].
  pose proof (PrecompileRun_log W targetFileName tmpDir "go run" path) as Hlog.
  destruct (PrecompileRun W targetFileName tmpDir "go run" path) as [r log].
  cbn [snd] in Hlog |- *. subst log.
  constructor; [left; exists (Translated res); split; [reflexivity|]|].
  - apply Hheader; [exact Htags|reflexivity].
  - constructor; [right; reflexivity|constructor].
Qed.

Lemma runMemFiles_steps (E : Env) (W : Sys) (tmpDir path : string)
      (mempkg : precompile.MemPackage) (files : list precompile.MemFile)
      (errs : option error) (output : string) :
  (forall mfile, In mfile files ->
                 GoStrings.HasSuffix (precompile.mf_Name mfile) ".gno" = true ->
                 In mfile (gnoFiles mempkg)) ->
  Forall (runStep E tmpDir mempkg) (snd (runMemFiles E W tmpDir path files errs output)).
Proof.
  revert errs output. induction files as [|mfile rest IH]; intros errs output Hfiles;
    [constructor|].
  cbn [runMemFiles].
  assert (Hrest : forall m, In m rest ->
                            GoStrings.HasSuffix (precompile.mf_Name m) ".gno" = true ->
                            In m (gnoFiles mempkg))
    by (intros m Hm; apply Hfiles; right; exact Hm).
  destruct (GoStrings.HasSuffix (precompile.mf_Name mfile) ".gno") eqn:Hgno; cbn [negb];
    [|apply IH; exact Hrest].
  pose proof (runMemFile_steps E W tmpDir path mfile output) as Hone.
  destruct (runMemFile E W tmpDir path mfile output) as [[[err output']|panicErr] log].
  - specialize (IH (Multierr.Append errs err) output' Hrest).
    destruct (runMemFiles E W tmpDir path rest _ output') as [r log'].
    cbn [snd] in Hone, IH |- *. apply Forall_app. split; [|exact IH].
    eapply Forall_impl; [exact Hone|].
    intros eff Heff. exists mfile. split; [|exact Heff].
    apply Hfiles; [left; reflexivity|exact Hgno].
  - cbn [snd] in Hone |- *. eapply Forall_impl; [exact Hone|].
    intros eff Heff. exists mfile. split; [|exact Heff].
    apply Hfiles; [left; reflexivity|exact Hgno].
Qed.

End RunSteps.

(** X25.  How [PrecompileAndRunMempkg] runs the programs.  Between making
    and removing the temporary directory, every step belongs to a module of
    the package: its generated text, which begins with the header and a
    build constraint with the tag [gno], is written into the directory under
    its generated name, or the command [go run] is started in the directory
    with that name as its only argument, without any build tag. *)
Theorem run_mempkg_steps :
  forall (E : Env) (W : Sys) (mempkg : precompile.MemPackage) (path tmpDir : string),
    MkdirTemp E EmptyString (precompile.mp_Name mempkg) = inr tmpDir ->
    exists log,
      snd (precompile_exec.PrecompileAndRunMempkg E W mempkg path)
      = MadeTemp tmpDir :: log ++ [Removed tmpDir]
      /\ Forall (runStep E tmpDir mempkg) log.
Proof.
  intros E W mempkg path tmpDir Hmk.
  unfold precompile_exec.PrecompileAndRunMempkg. rewrite Hmk.
  pose proof (runMemFiles_steps E W tmpDir path mempkg (precompile.mp_Files mempkg)
                None EmptyString) as Hsteps.
  destruct (precompile_exec.runMemFiles E W tmpDir path _ None EmptyString) as [r log].
  exists log. split; [reflexivity|]. apply Hsteps.
  intros mfile Hin Hgno. unfold gnoFiles. apply List.filter_In. split; assumption.
Qed.

Lemma run_mempkg_steps_witness :
  exists log,
    snd (precompile_exec.PrecompileAndRunMempkg DemoExec.runEnv DemoExec.sys
           DemoExec.scripts "files/scripts")
    = MadeTemp "/main123" :: log ++ [Removed "/main123"]
    /\ Forall (runStep DemoExec.runEnv "/main123" DemoExec.scripts) log.
Proof.
  apply (run_mempkg_steps DemoExec.runEnv DemoExec.sys DemoExec.scripts "files/scripts"
           "/main123").
  reflexivity.
Defined.

(** ** Where the generated file goes *)

Section Location.
Import precompile.

Lemma PrecompileFile_written (E : Env) (flags : PrecompileCfg) (fuel : nat)
      (srcPath : string) (s s' : State) :
  PrecompileFile E flags fuel srcPath s = Returns None s' ->
  exists dir text rest,
    (if String.eqb (Output flags) "." then dir = Dir E srcPath
     else resolvePath E (Output flags) (Dir E srcPath) = inr dir)
    /\ trace s'
       = trace s ++ EvFile srcPath
                 :: EvWrite (Join E dir (fst (GetPrecompileFilenameAndTags srcPath))) text
                 :: rest
    /\ headedText text.
Proof.
  unfold PrecompileFile, PrecompileFile_. intros Hrun.
  destruct (ReadFile E srcPath) as [readErr|source]; [discriminate Hrun|].
  pose proof (tags_of_kind srcPath) as Htags.
  destruct (GetPrecompileFilenameAndTags srcPath) as [targetFilename tags].
  cbn [fst snd] in Htags |- *.
  pose proof (Precompile_header E source tags srcPath) as Hheader.
  destruct (Precompile E source tags srcPath) as [[res|] [transErr|]];
    try discriminate Hrun.
  specialize (Hheader res Htags eq_refl).
  assert (Hdir : exists dir,
             (if String.eqb (Output flags) "." then dir = Dir E srcPath
              else resolvePath E (Output flags) (Dir E srcPath) = inr dir)
             /\ (if negb (String.eqb (Output flags) ".")
                 then match resolvePath E (Output flags) (Dir E srcPath) with
                      | inl err => inl (Errorf_w "resolve output path: " err)
                      | inr path => inr (Join E path targetFilename)
                      end
                 else inr (Join E (Dir E srcPath) targetFilename))
                = inr (Join E dir targetFilename)).
  { destruct (String.eqb (Output flags) "."); cbn [negb].
    - exists (Dir E srcPath). split; reflexivity.
    - destruct (resolvePath E (Output flags) (Dir E srcPath)) as [err|dir];
        [discriminate Hrun|].
      exists dir. split; reflexivity. }
  destruct Hdir as (dir & Hdir & Htarget). rewrite Htarget in Hrun.
  exists dir, (Translated res).
  destruct (writeDirFile E (Join E dir targetFilename) (Translated res)) as [writeErr|];
    [discriminate Hrun|].
  match type of Hrun with
  | context [match ?t with Some _ => _ | None => _ end] =>
      destruct t as [checkErr|]; [discriminate Hrun|]
  end.
  set (s2 := emit (EvWrite (Join E dir targetFilename) (Translated res))
                  (emit (EvFile srcPath) s)) in *.
  assert (Hs2 : trace s2 = trace s ++ [EvFile srcPath;
                                       EvWrite (Join E dir targetFilename) (Translated res)]).
  { subst s2. cbn [emit trace]. rewrite <- List.app_assoc. reflexivity. }
  destruct (SkipImports flags).
  - injection Hrun as <-. exists []. split; [exact Hdir|]. split; [exact Hs2|exact Hheader].
  - pose proof (RunFacts.eachImport_preserving (wroteHeaded s2) _
                  (PrecompilePkg_headed E flags s2 fuel)
                  (getPathsFromImportSpec E (res_Imports res)) s2) as Himports.
    destruct (eachImport (PrecompilePkg E flags fuel) _ s2) as [u s3|why s3|];
      try discriminate Hrun.
    injection Hrun as <-.
    destruct (Himports s3 (wroteHeaded_refl s2) eq_refl) as (rest & Htrace & _).
    exists rest. split; [exact Hdir|]. split; [|exact Hheader].
    rewrite Htrace, Hs2, <- List.app_assoc. reflexivity.
Qed.

End Location.

(** X26.  Where the generated file goes.  When [PrecompileFile] returns
    nil, the first thing it did after taking up the module was to write the
    generated text of the module, under the name that
    [GetPrecompileFilenameAndTags] gives, into the directory of the module
    when the output flag is [.], and otherwise into the directory that
    [resolvePath] gives for the output flag and the directory of the module;
    what it did for the imports comes after. *)
Theorem generated_file_location :
  forall (E : Env) (flags : PrecompileCfg) (fuel : nat) (srcPath : string)
         (s s' : State),
    precompile.PrecompileFile E flags fuel srcPath s = precompile.Returns None s' ->
    exists dir text rest,
      (if String.eqb (Output flags) "." then dir = Dir E srcPath
       else resolvePath E (Output flags) (Dir E srcPath) = inr dir)
      /\ trace s'
         = trace s
           ++ EvFile srcPath
              :: EvWrite (Join E dir (fst (precompile.GetPrecompileFilenameAndTags srcPath)))
                         text
              :: rest
      /\ headedText text.
Proof.
  intros E flags fuel srcPath s s' Hrun.
  apply (PrecompileFile_written E flags fuel srcPath s s' Hrun).
Qed.

Lemma generated_file_location_witness :
  exists dir text rest,
    dir = "root"
    /\ trace DemoExec.leftFinal
       = [] ++ EvFile "root/left.gno"
               :: EvWrite (Demo.join dir "left.gno.gen.go") text :: rest
    /\ headedText text.
Proof.
  apply (generated_file_location (Demo.world Demo.diamondTree Demo.printer) Demo.flags 3
           "root/left.gno" (mkState ∅ []) DemoExec.leftFinal).
  reflexivity.
Defined.
